(** * Host-side transport and parsing of the RFID reader dashboard

    A shallow embedding of the command/response core of
    [rfid_dashboard_configure_lightsleep_multibutton_S3_live.py] (module
    [S3Live] below) and of the older
    [rfid_dashboard_configure_lightsleep_multibutton.py] (module
    [MultiButton]), and of the live view of the dashboard tab of the
    first, with the properties of the prose specification stated and
    proved over it.

    Conventions of the embedding.
    - A Python [str] is a [string]: a sequence of bytes, ASCII text with
      the degree sign held as its two UTF-8 bytes.  [\d], [\s],
      [str.strip] and [str.upper] are given on ASCII characters.
    - Times are integers in milliseconds ([0.6] s is [600]).
    - The serial link, the clock and the Streamlit session state form one
      explicit [World]; every function that performs I/O is a state
      transformer over it that may raise a Python exception.
    - [while True] loops take a fuel argument; the theorems show that the
      fuel computed from the hard timeout is always enough.
    - The naive [datetime] of the live view and [time.time()] read the
      same clock.
    - The messages of [st.error], [st.warning] and [st.info] are kept as
      plain text: the symbols and the bold markup of the source strings,
      and the text of the exception in the messages of the auto-refresh
      handler and of [convert_timestamp_to_timezone], are left out.
    - The bounded debug logs ([log_debug] and friends) are display-only:
      the calls are left out of the transport and of the page, and the
      three logs are modelled on their own. *)

From Stdlib Require Import ZArith Lia List Bool Ascii String DecimalString.
From stdpp Require Import base gmap strings list.
Import ListNotations.
Open Scope string_scope.
Open Scope list_scope.

(** ** Python string primitives *)

Module PyStr.

Definition code (c : ascii) : nat := nat_of_ascii c.

(** [\d] on ASCII. *)
Definition isdigit (c : ascii) : bool :=
  (48 <=? code c)%nat && (code c <=? 57)%nat.

(** [str.isspace] / [\s] on ASCII: TAB..CR, FS..US and the blank. *)
Definition isspace (c : ascii) : bool :=
  ((9 <=? code c)%nat && (code c <=? 13)%nat)
  || ((28 <=? code c)%nat && (code c <=? 32)%nat).

Definition newline : ascii := ascii_of_nat 10.

(** The two UTF-8 bytes of the degree sign followed by [C]. *)
Definition degC : string :=
  String (ascii_of_nat 194) (String (ascii_of_nat 176) "C").

Fixpoint lstrip (s : string) : string :=
  match s with
  | String c s' => if isspace c then lstrip s' else s
  | EmptyString => EmptyString
  end.

Fixpoint rstrip (s : string) : string :=
  match s with
  | EmptyString => EmptyString
  | String c s' =>
      match rstrip s' with
      | EmptyString => if isspace c then EmptyString else String c EmptyString
      | r => String c r
      end
  end.

(** [s.strip()] *)
Definition strip (s : string) : string := rstrip (lstrip s).

(** [s.startswith(p)] *)
Definition startswith (s p : string) : bool := String.prefix p s.

(** [pat in s] *)
Fixpoint contains (pat s : string) : bool :=
  String.prefix pat s
  || match s with
     | EmptyString => false
     | String _ s' => contains pat s'
     end.

(** [s.split('\n')] *)
Fixpoint split_nl (s : string) : list string :=
  match s with
  | EmptyString => [EmptyString]
  | String c s' =>
      if Ascii.eqb c newline then EmptyString :: split_nl s'
      else match split_nl s' with
           | h :: t => String c h :: t
           | [] => [String c EmptyString]
           end
  end.

(** ['\n'.join(l)] *)
Fixpoint join_nl (l : list string) : string :=
  match l with
  | [] => EmptyString
  | [x] => x
  | x :: rest => x +:+ String newline (join_nl rest)
  end.

(** [s.upper()] on ASCII letters. *)
Definition upper_char (c : ascii) : ascii :=
  if (97 <=? code c)%nat && (code c <=? 122)%nat
  then ascii_of_nat (code c - 32) else c.

Fixpoint upper (s : string) : string :=
  match s with
  | EmptyString => EmptyString
  | String c s' => String (upper_char c) (upper s')
  end.

(** [s.replace(old, new)] for a non-empty [old]: occurrences are replaced
    from the left and do not overlap.  [skip] counts the characters of an
    occurrence that are still to be passed over. *)
Fixpoint replace_from (old new : string) (skip : nat) (s : string) : string :=
  match s with
  | EmptyString => EmptyString
  | String c s' =>
      match skip with
      | S k => replace_from old new k s'
      | O =>
          if String.prefix old s
          then new +:+ replace_from old new (String.length old - 1) s'
          else String c (replace_from old new 0 s')
      end
  end.

Definition replace (old new s : string) : string := replace_from old new 0 s.

(** Truthiness of a string: [if s:]. *)
Definition truthy (s : string) : bool :=
  match s with EmptyString => false | _ => true end.

(** [f"{n}"] for an [int]. *)
Definition str_of_int (n : Z) : string := NilZero.string_of_int (Z.to_int n).

End PyStr.

(** ** A backtracking matcher for the regular expressions of the source

    The constructs are those the source's patterns use: literals,
    one-character classes with the greedy quantifiers [*] and [+], the lazy
    [*?], concatenation, alternation and capture groups.  Matching is in
    continuation-passing style, so that a quantifier gives back characters
    exactly when what follows it fails, as Python's [re] does. *)

Module Re.

Inductive regex : Type :=
| Eps
| Chr (c : ascii)
| Cls (p : ascii -> bool)
| Lit (l : string)
| Seq (r1 r2 : regex)
| Alt (r1 r2 : regex)
| Star (p : ascii -> bool)
| Plus (p : ascii -> bool)
| LazyStar (p : ascii -> bool)
| Grp (r : regex).

(** The rest of [s] after the literal [l], if [s] starts with it. *)
Fixpoint lit_rest (l s : string) : option string :=
  match l with
  | EmptyString => Some s
  | String a l' =>
      match s with
      | String b s' => if Ascii.eqb a b then lit_rest l' s' else None
      | EmptyString => None
      end
  end.

Section Matcher.
Context {R : Type}.

(** Greedy [p*]: the longest run first, then shorter ones. *)
Fixpoint star_k (p : ascii -> bool) (k : string -> option R) (s : string)
  : option R :=
  match s with
  | String c s' =>
      if p c
      then match star_k p k s' with
           | Some r => Some r
           | None => k s
           end
      else k s
  | EmptyString => k s
  end.

(** Lazy [p*?]: the shortest run first, then longer ones. *)
Fixpoint lazy_k (p : ascii -> bool) (k : string -> option R) (s : string)
  : option R :=
  match k s with
  | Some r => Some r
  | None =>
      match s with
      | String c s' => if p c then lazy_k p k s' else None
      | EmptyString => None
      end
  end.

(** The text a group captured: what lies between the input at its start
    and the input at its end. *)
Definition consumed (s s' : string) : string :=
  substring 0 (String.length s - String.length s') s.

Fixpoint rmatch (r : regex) (s : string) (g : list string)
    (k : string -> list string -> option R) : option R :=
  match r with
  | Eps => k s g
  | Chr c =>
      match s with
      | String x s' => if Ascii.eqb x c then k s' g else None
      | EmptyString => None
      end
  | Cls p =>
      match s with
      | String x s' => if p x then k s' g else None
      | EmptyString => None
      end
  | Lit l =>
      match lit_rest l s with
      | Some s' => k s' g
      | None => None
      end
  | Seq r1 r2 => rmatch r1 s g (fun s' g' => rmatch r2 s' g' k)
  | Alt r1 r2 =>
      match rmatch r1 s g k with
      | Some x => Some x
      | None => rmatch r2 s g k
      end
  | Star p => star_k p (fun s' => k s' g) s
  | Plus p =>
      match s with
      | String x s' => if p x then star_k p (fun s'' => k s'' g) s' else None
      | EmptyString => None
      end
  | LazyStar p => lazy_k p (fun s' => k s' g) s
  | Grp r1 => rmatch r1 s g (fun s' g' => k s' (g' ++ [consumed s s']))
  end.
End Matcher.

(** A match anchored at the start of [s]: the groups and the unread rest. *)
Definition match_here (r : regex) (s : string) : option (list string * string) :=
  rmatch r s [] (fun s' g => Some (g, s')).

(** [re.search(r, s)]: the leftmost start position that matches. *)
Fixpoint search_rest (r : regex) (s : string) : option (list string * string) :=
  match match_here r s with
  | Some m => Some m
  | None =>
      match s with
      | EmptyString => None
      | String _ s' => search_rest r s'
      end
  end.

(** [m.groups()] of [re.search(r, s)], [None] when there is no match. *)
Definition search (r : regex) (s : string) : option (list string) :=
  fst <$> search_rest r s.

(** [re.findall(r, s)] for a pattern with one group whose matches are never
    empty: the successive leftmost matches, each search resuming where the
    previous match ended. *)
Fixpoint findall_fuel (fuel : nat) (r : regex) (s : string) : list string :=
  match fuel with
  | O => []
  | S f =>
      match search_rest r s with
      | Some (g, rest) => hd EmptyString g :: findall_fuel f r rest
      | None => []
      end
  end.

Definition findall (r : regex) (s : string) : list string :=
  findall_fuel (S (String.length s)) r s.

Fixpoint seq_of (rs : list regex) : regex :=
  match rs with
  | [] => Eps
  | [r] => r
  | r :: rest => Seq r (seq_of rest)
  end.

End Re.

(** ** Readings and the sentinels of the wire format *)

Record Reading : Type := mkReading {
  Timestamp : string;
  Value1 : string;
  Tag : string;
  Temperature_C : string
}.

Definition BEGIN_READINGS : string := "---BEGIN_READINGS---".
Definition END_READINGS : string := "---END_READINGS---".
Definition DASHBOARD_OPEN : string := "<DASHBOARD_DATA>".
Definition DASHBOARD_CLOSE : string := "</DASHBOARD_DATA>".

Definition digit_or_dash (c : ascii) : bool := PyStr.isdigit c || Ascii.eqb c "-".
Definition digit_or_colon (c : ascii) : bool := PyStr.isdigit c || Ascii.eqb c ":".
Definition digit_or_dot (c : ascii) : bool := PyStr.isdigit c || Ascii.eqb c ".".
Definition any_char (c : ascii) : bool := true.

(** [([\d\-]+\s[\d:]+),\s*([\d]+),\s*([\d]+),\s*] : the three leading
    fields that every record pattern of the source shares. *)
Definition re_fields : list Re.regex :=
  [ Re.Grp (Re.seq_of [Re.Plus digit_or_dash; Re.Cls PyStr.isspace; Re.Plus digit_or_colon]);
    Re.Chr ","; Re.Star PyStr.isspace;
    Re.Grp (Re.Plus PyStr.isdigit);
    Re.Chr ","; Re.Star PyStr.isspace;
    Re.Grp (Re.Plus PyStr.isdigit);
    Re.Chr ","; Re.Star PyStr.isspace ].

(** [#\d+:\s*] *)
Definition re_index : list Re.regex :=
  [ Re.Chr "#"; Re.Plus PyStr.isdigit; Re.Chr ":"; Re.Star PyStr.isspace ].

(** [\[DEBUG\]\s*raw_timestamp=\d+,\s*converted=] *)
Definition re_debug_prefix : list Re.regex :=
  [ Re.Lit "[DEBUG]"; Re.Star PyStr.isspace; Re.Lit "raw_timestamp=";
    Re.Plus PyStr.isdigit; Re.Chr ","; Re.Star PyStr.isspace;
    Re.Lit "converted=" ].

(** [<DASHBOARD_DATA>(.*?)</DASHBOARD_DATA>] with [re.DOTALL]. *)
Definition re_dashboard : Re.regex :=
  Re.seq_of [ Re.Lit DASHBOARD_OPEN; Re.Grp (Re.LazyStar any_char);
              Re.Lit DASHBOARD_CLOSE ].

(** [extract_latest_readings_block]: the loop over the lines.  [current]
    is [current_block], [blocks] the blocks closed so far. *)
Fixpoint collect_blocks (in_block : bool) (current : list string)
    (blocks : list string) (lines : list string) : list string :=
  match lines with
  | [] => blocks
  | line :: rest =>
      if PyStr.contains BEGIN_READINGS line
      then collect_blocks true [] blocks rest
      else if PyStr.contains END_READINGS line
      then collect_blocks false current (blocks ++ [PyStr.join_nl current]) rest
      else if in_block
      then collect_blocks in_block (current ++ [line]) blocks rest
      else collect_blocks in_block current blocks rest
  end.

(** [extract_latest_readings_block(response)]; the function is the same in
    both dashboards. *)
Definition extract_latest_readings_block (response : string) : string :=
  let dashboard_blocks := Re.findall re_dashboard response in
  let response :=
    match last dashboard_blocks with
    | Some b => b
    | None => response
    end in
  let blocks := collect_blocks false [] [] (PyStr.split_nl response) in
  match last blocks with
  | Some b => b
  | None => EmptyString
  end.

(** The reading appended for a match: [groups()] unpacked into four
    names, the temperature passed through [temp_value]. *)
Definition reading_of_groups (temp_value : string -> string) (g : list string)
  : option Reading :=
  match g with
  | [timestamp; value1; tag; temp] =>
      Some (mkReading timestamp value1 tag (temp_value temp))
  | _ => None
  end.

(** The body of the loop of [parse_readings] for a line inside a block:
    the debug pattern is tried first, then the normal one. *)
Definition parse_line (re_debug re_normal : Re.regex)
    (temp_value : string -> string) (line : string) : option Reading :=
  match Re.search re_debug line with
  | Some g => reading_of_groups temp_value g
  | None =>
      match Re.search re_normal line with
      | Some g => reading_of_groups temp_value g
      | None => None
      end
  end.

(** The loop of [parse_readings] over the lines of the response. *)
Fixpoint parse_lines (line_reading : string -> option Reading)
    (in_block : bool) (lines : list string) : list Reading :=
  match lines with
  | [] => []
  | line :: rest =>
      if PyStr.contains BEGIN_READINGS line
      then parse_lines line_reading true rest
      else if PyStr.contains END_READINGS line
      then parse_lines line_reading false rest
      else if in_block
      then match line_reading line with
           | Some r => r :: parse_lines line_reading in_block rest
           | None => parse_lines line_reading in_block rest
           end
      else parse_lines line_reading in_block rest
  end.

(** ** The world: clock, serial link, session state, user interface *)

(** Python exceptions, as far as the handlers of the source tell them
    apart: [SERIAL_EXCEPTIONS] is [OSError] (which [SerialException]
    inherits from), [termios.error] and [AttributeError];
    [RerunException] is what [st.rerun()] raises, and is not an
    [Exception]. *)
Inductive exn : Type :=
| SerialException
| AttributeError
| OtherException
| RerunException.

Definition is_serial_exception (e : exn) : bool :=
  match e with
  | SerialException | AttributeError => true
  | _ => false
  end.

(** [except Exception] catches everything but the rerun request. *)
Definition is_Exception (e : exn) : bool :=
  match e with
  | RerunException => false
  | _ => true
  end.

(** What the next I/O operation on the port does. *)
Inductive fault : Type :=
| NoFault
| FaultSerial
| FaultOther.

(** The serial port.  [rx] is what the device sends: raw lines with the
    time at which each has completely arrived, in order; [tx] is what the
    host has written so far; [faults] scripts the failures of the coming
    I/O operations, one entry per operation. *)
Record Serial : Type := mkSerial {
  is_open : bool;
  rx : list (Z * string);
  tx : list string;
  faults : list fault
}.

(** A value of a variable bound to the serial object: [None] or the
    port. *)
Inductive serial_ref : Type :=
| PyNone
| ThePort.

(** One row of the displayed table: a reading with its timestamp split. *)
Record Row : Type := mkRow {
  row_reading : Reading;
  Year : Z; Month : Z; Day : Z; Hour : Z; Minute : Z
}.

Definition DataFrame : Type := list Row.

(** The keys of [st.session_state] that the modelled code reads or
    writes. *)
Record Session : Type := mkSession {
  connected : bool;
  connected_port : option string;
  serial_connection : serial_ref;
  last_df : option DataFrame;
  last_raw_response : option string;
  selected_timezone : string;
  new_query : bool;
  live_view_enabled : bool;
  live_view_start_timestamp : option Z;
  last_live_update : Z;
  is_auto_refresh : bool;
  last_successful_update : option Z;
  connection_error_count : Z;
  last_connection_test : Z;
  live_view_checkbox : bool;
  live_view_stop_requested : bool;
  live_view_checkbox_previous : bool
}.

(** [st.session_state[key] = v], one function per key. *)
Definition put_connected (v : bool) (s : Session) : Session :=
  mkSession v (connected_port s) (serial_connection s) (last_df s)
    (last_raw_response s) (selected_timezone s) (new_query s)
    (live_view_enabled s) (live_view_start_timestamp s)
    (last_live_update s) (is_auto_refresh s) (last_successful_update s)
    (connection_error_count s) (last_connection_test s)
    (live_view_checkbox s) (live_view_stop_requested s)
    (live_view_checkbox_previous s).
Definition put_connected_port (v : option string) (s : Session) : Session :=
  mkSession (connected s) v (serial_connection s) (last_df s)
    (last_raw_response s) (selected_timezone s) (new_query s)
    (live_view_enabled s) (live_view_start_timestamp s)
    (last_live_update s) (is_auto_refresh s) (last_successful_update s)
    (connection_error_count s) (last_connection_test s)
    (live_view_checkbox s) (live_view_stop_requested s)
    (live_view_checkbox_previous s).
Definition put_serial_connection (v : serial_ref) (s : Session) : Session :=
  mkSession (connected s) (connected_port s) v (last_df s)
    (last_raw_response s) (selected_timezone s) (new_query s)
    (live_view_enabled s) (live_view_start_timestamp s)
    (last_live_update s) (is_auto_refresh s) (last_successful_update s)
    (connection_error_count s) (last_connection_test s)
    (live_view_checkbox s) (live_view_stop_requested s)
    (live_view_checkbox_previous s).
Definition put_last_df (v : option DataFrame) (s : Session) : Session :=
  mkSession (connected s) (connected_port s) (serial_connection s) v
    (last_raw_response s) (selected_timezone s) (new_query s)
    (live_view_enabled s) (live_view_start_timestamp s)
    (last_live_update s) (is_auto_refresh s) (last_successful_update s)
    (connection_error_count s) (last_connection_test s)
    (live_view_checkbox s) (live_view_stop_requested s)
    (live_view_checkbox_previous s).
Definition put_last_raw_response (v : option string) (s : Session) : Session :=
  mkSession (connected s) (connected_port s) (serial_connection s)
    (last_df s) v (selected_timezone s) (new_query s) (live_view_enabled s)
    (live_view_start_timestamp s) (last_live_update s) (is_auto_refresh s)
    (last_successful_update s) (connection_error_count s)
    (last_connection_test s) (live_view_checkbox s)
    (live_view_stop_requested s) (live_view_checkbox_previous s).
Definition put_selected_timezone (v : string) (s : Session) : Session :=
  mkSession (connected s) (connected_port s) (serial_connection s)
    (last_df s) (last_raw_response s) v (new_query s) (live_view_enabled s)
    (live_view_start_timestamp s) (last_live_update s) (is_auto_refresh s)
    (last_successful_update s) (connection_error_count s)
    (last_connection_test s) (live_view_checkbox s)
    (live_view_stop_requested s) (live_view_checkbox_previous s).
Definition put_new_query (v : bool) (s : Session) : Session :=
  mkSession (connected s) (connected_port s) (serial_connection s)
    (last_df s) (last_raw_response s) (selected_timezone s) v
    (live_view_enabled s) (live_view_start_timestamp s)
    (last_live_update s) (is_auto_refresh s) (last_successful_update s)
    (connection_error_count s) (last_connection_test s)
    (live_view_checkbox s) (live_view_stop_requested s)
    (live_view_checkbox_previous s).
Definition put_live_view_enabled (v : bool) (s : Session) : Session :=
  mkSession (connected s) (connected_port s) (serial_connection s)
    (last_df s) (last_raw_response s) (selected_timezone s) (new_query s) v
    (live_view_start_timestamp s) (last_live_update s) (is_auto_refresh s)
    (last_successful_update s) (connection_error_count s)
    (last_connection_test s) (live_view_checkbox s)
    (live_view_stop_requested s) (live_view_checkbox_previous s).
Definition put_live_view_start_timestamp (v : option Z) (s : Session) : Session :=
  mkSession (connected s) (connected_port s) (serial_connection s)
    (last_df s) (last_raw_response s) (selected_timezone s) (new_query s)
    (live_view_enabled s) v (last_live_update s) (is_auto_refresh s)
    (last_successful_update s) (connection_error_count s)
    (last_connection_test s) (live_view_checkbox s)
    (live_view_stop_requested s) (live_view_checkbox_previous s).
Definition put_last_live_update (v : Z) (s : Session) : Session :=
  mkSession (connected s) (connected_port s) (serial_connection s)
    (last_df s) (last_raw_response s) (selected_timezone s) (new_query s)
    (live_view_enabled s) (live_view_start_timestamp s) v
    (is_auto_refresh s) (last_successful_update s)
    (connection_error_count s) (last_connection_test s)
    (live_view_checkbox s) (live_view_stop_requested s)
    (live_view_checkbox_previous s).
Definition put_is_auto_refresh (v : bool) (s : Session) : Session :=
  mkSession (connected s) (connected_port s) (serial_connection s)
    (last_df s) (last_raw_response s) (selected_timezone s) (new_query s)
    (live_view_enabled s) (live_view_start_timestamp s)
    (last_live_update s) v (last_successful_update s)
    (connection_error_count s) (last_connection_test s)
    (live_view_checkbox s) (live_view_stop_requested s)
    (live_view_checkbox_previous s).
Definition put_last_successful_update (v : option Z) (s : Session) : Session :=
  mkSession (connected s) (connected_port s) (serial_connection s)
    (last_df s) (last_raw_response s) (selected_timezone s) (new_query s)
    (live_view_enabled s) (live_view_start_timestamp s)
    (last_live_update s) (is_auto_refresh s) v (connection_error_count s)
    (last_connection_test s) (live_view_checkbox s)
    (live_view_stop_requested s) (live_view_checkbox_previous s).
Definition put_connection_error_count (v : Z) (s : Session) : Session :=
  mkSession (connected s) (connected_port s) (serial_connection s)
    (last_df s) (last_raw_response s) (selected_timezone s) (new_query s)
    (live_view_enabled s) (live_view_start_timestamp s)
    (last_live_update s) (is_auto_refresh s) (last_successful_update s) v
    (last_connection_test s) (live_view_checkbox s)
    (live_view_stop_requested s) (live_view_checkbox_previous s).
Definition put_last_connection_test (v : Z) (s : Session) : Session :=
  mkSession (connected s) (connected_port s) (serial_connection s)
    (last_df s) (last_raw_response s) (selected_timezone s) (new_query s)
    (live_view_enabled s) (live_view_start_timestamp s)
    (last_live_update s) (is_auto_refresh s) (last_successful_update s)
    (connection_error_count s) v (live_view_checkbox s)
    (live_view_stop_requested s) (live_view_checkbox_previous s).
Definition put_live_view_checkbox (v : bool) (s : Session) : Session :=
  mkSession (connected s) (connected_port s) (serial_connection s)
    (last_df s) (last_raw_response s) (selected_timezone s) (new_query s)
    (live_view_enabled s) (live_view_start_timestamp s)
    (last_live_update s) (is_auto_refresh s) (last_successful_update s)
    (connection_error_count s) (last_connection_test s) v
    (live_view_stop_requested s) (live_view_checkbox_previous s).
Definition put_live_view_stop_requested (v : bool) (s : Session) : Session :=
  mkSession (connected s) (connected_port s) (serial_connection s)
    (last_df s) (last_raw_response s) (selected_timezone s) (new_query s)
    (live_view_enabled s) (live_view_start_timestamp s)
    (last_live_update s) (is_auto_refresh s) (last_successful_update s)
    (connection_error_count s) (last_connection_test s)
    (live_view_checkbox s) v (live_view_checkbox_previous s).
Definition put_live_view_checkbox_previous (v : bool) (s : Session) : Session :=
  mkSession (connected s) (connected_port s) (serial_connection s)
    (last_df s) (last_raw_response s) (selected_timezone s) (new_query s)
    (live_view_enabled s) (live_view_start_timestamp s)
    (last_live_update s) (is_auto_refresh s) (last_successful_update s)
    (connection_error_count s) (last_connection_test s)
    (live_view_checkbox s) (live_view_stop_requested s) v.

(** Messages shown to the user. *)
Inductive ui_event : Type :=
| StError (msg : string)
| StWarning (msg : string)
| StInfo (msg : string).

Record World : Type := mkWorld {
  now : Z;
  tick : Z;
  port : Serial;
  session : Session;
  ui : list ui_event
}.

Definition set_now (t : Z) (w : World) : World :=
  mkWorld t (tick w) (port w) (session w) (ui w).
Definition set_port (p : Serial) (w : World) : World :=
  mkWorld (now w) (tick w) p (session w) (ui w).
Definition set_session (s : Session) (w : World) : World :=
  mkWorld (now w) (tick w) (port w) s (ui w).
Definition show (e : ui_event) (w : World) : World :=
  mkWorld (now w) (tick w) (port w) (session w) (ui w ++ [e]).

Definition set_faults (fs : list fault) (p : Serial) : Serial :=
  mkSerial (is_open p) (rx p) (tx p) fs.
Definition set_rx (r : list (Z * string)) (p : Serial) : Serial :=
  mkSerial (is_open p) r (tx p) (faults p).
Definition set_tx (t : list string) (p : Serial) : Serial :=
  mkSerial (is_open p) (rx p) t (faults p).
Definition set_is_open (b : bool) (p : Serial) : Serial :=
  mkSerial b (rx p) (tx p) (faults p).

(** The result of running a piece of code: a value, a raised exception,
    or fuel exhausted inside a [while] loop. *)
Inductive outcome (A : Type) : Type :=
| Ok (a : A)
| Raise (e : exn)
| Diverge.
Arguments Ok {A} a.
Arguments Raise {A} e.
Arguments Diverge {A}.

Definition M (A : Type) : Type := World -> outcome A * World.

Definition ret {A : Type} (a : A) : M A := fun w => (Ok a, w).

Definition bind {A B : Type} (m : M A) (k : A -> M B) : M B :=
  fun w =>
    match m w with
    | (Ok a, w') => k a w'
    | (Raise e, w') => (Raise e, w')
    | (Diverge, w') => (Diverge, w')
    end.

Definition raise {A : Type} (e : exn) : M A := fun w => (Raise e, w).
Definition diverge {A : Type} : M A := fun w => (Diverge, w).

(** [try: m  except Exception as e: h e] *)
Definition try_except {A : Type} (m : M A) (h : exn -> M A) : M A :=
  fun w =>
    match m w with
    | (Raise e, w') => if is_Exception e then h e w' else (Raise e, w')
    | r => r
    end.

Definition gets {A : Type} (f : World -> A) : M A := fun w => (Ok (f w), w).
Definition modify (f : World -> World) : M unit := fun w => (Ok tt, f w).

(** Read and write the session state. *)
Definition session_get {A : Type} (f : Session -> A) : M A :=
  gets (fun w => f (session w)).
Definition session_put (f : Session -> Session) : M unit :=
  modify (fun w => set_session (f (session w)) w).

(** [st.error(msg)], [st.warning(msg)], [st.info(msg)], [st.rerun()] *)
Definition st_error (msg : string) : M unit := modify (show (StError msg)).
Definition st_warning (msg : string) : M unit := modify (show (StWarning msg)).
Definition st_info (msg : string) : M unit := modify (show (StInfo msg)).
Definition st_rerun {A : Type} : M A := raise RerunException.

(** [try: m  except SERIAL_EXCEPTIONS as e: h e] *)
Definition try_except_serial {A : Type} (m : M A) (h : exn -> M A) : M A :=
  fun w =>
    match m w with
    | (Raise e, w') => if is_serial_exception e then h e w' else (Raise e, w')
    | r => r
    end.

Declare Scope io_scope.
Delimit Scope io_scope with io.
Notation "'let*' x ':=' m 'in' k" := (bind m (fun x => k))
  (at level 10, x pattern, m at level 100, k at level 200) : io_scope.
Notation "m '>>' k" := (bind m (fun _ => k))
  (at level 100, k at level 200, right associativity) : io_scope.
Open Scope io_scope.

(** [time.time()] and [datetime.now()] read the one clock; [time.sleep]
    advances it. *)
Definition time_time : M Z := gets now.
Definition time_sleep (d : Z) : M unit := modify (fun w => set_now (now w + d) w).

(** Every operation on the port goes through this: a [None] reference has
    no attributes, the next scripted fault is consumed, and a port that is
    not open refuses the operation. *)
Definition io_guard (ser : serial_ref) : M unit :=
  fun w =>
    match ser with
    | PyNone => (Raise AttributeError, w)
    | ThePort =>
        let p := port w in
        let w' := set_port (set_faults (tl (faults p)) p) w in
        match hd NoFault (faults p) with
        | FaultSerial => (Raise SerialException, w')
        | FaultOther => (Raise OtherException, w')
        | NoFault =>
            if is_open p then (Ok tt, w') else (Raise SerialException, w')
        end
    end.

(** A line has arrived when its arrival time is not in the future. *)
Definition arrived (t : Z) (e : Z * string) : bool := (fst e <=? t)%Z.

Fixpoint drop_arrived (t : Z) (l : list (Z * string)) : list (Z * string) :=
  match l with
  | e :: l' => if arrived t e then drop_arrived t l' else l
  | [] => []
  end.

(** [ser.write(data)] *)
Definition ser_write (ser : serial_ref) (data : string) : M unit :=
  io_guard ser >>
  modify (fun w => set_port (set_tx (tx (port w) ++ [data]) (port w)) w).

(** [ser.flush()] *)
Definition ser_flush (ser : serial_ref) : M unit := io_guard ser.

(** [ser.reset_input_buffer()] discards what has arrived. *)
Definition ser_reset_input_buffer (ser : serial_ref) : M unit :=
  io_guard ser >>
  modify (fun w => set_port (set_rx (drop_arrived (now w) (rx (port w))) (port w)) w).

(** [ser.in_waiting], as a truth value.  One poll of the port takes
    [tick] milliseconds. *)
Definition ser_in_waiting (ser : serial_ref) : M bool :=
  io_guard ser >>
  modify (fun w => set_now (now w + tick w) w) >>
  gets (fun w => match rx (port w) with
                 | e :: _ => arrived (now w) e
                 | [] => false
                 end).

(** The read timeout the port is opened with, [timeout=2]. *)
Definition READ_TIMEOUT : Z := 2000.

(** [ser.readline()]: the next line if it has arrived, otherwise the empty
    bytes after the read timeout. *)
Definition ser_readline (ser : serial_ref) : M string :=
  io_guard ser >>
  (fun w =>
     match rx (port w) with
     | e :: rest =>
         if arrived (now w) e
         then (Ok (snd e), set_port (set_rx rest (port w)) w)
         else (Ok EmptyString, set_now (now w + READ_TIMEOUT) w)
     | [] => (Ok EmptyString, set_now (now w + READ_TIMEOUT) w)
     end).

(** [ser.close()] *)
Definition ser_close (ser : serial_ref) : M unit :=
  match ser with
  | PyNone => raise AttributeError
  | ThePort => modify (fun w => set_port (set_is_open false (port w)) w)
  end.

(** [raw.decode(errors='ignore')]: the bytes are the text.  The lines of
    the device are taken to be valid UTF-8; bytes that are not, which
    Python drops, are not modelled. *)
Definition decode_ignore (raw : string) : string := raw.

(** [(cmd + "\n").encode()] *)
Definition command_line (cmd : string) : string :=
  cmd +:+ String PyStr.newline EmptyString.

Definition WAKE_DELAY : Z := 220.

(** How a collection ended. *)
Inductive end_reason : Type :=
| EndMarker
| QuietPeriod
| HardTimeout.

Definition nl : string := String PyStr.newline EmptyString.

(** ** Marker-delimited configuration variables *)

(** The [marker_map] dictionary of [get_variable_with_markers]. *)
Definition marker_map : gmap string string :=
  <[ "rfidOnTimeMs" := "RFIDONTIME" ]>
  (<[ "periodicIntervalMs" := "PERIODICINTERVAL" ]>
  (<[ "ssid" := "SSID" ]>
  (<[ "password" := "PASSWORD" ]>
  (<[ "longPressMs" := "LONGPRESSMS" ]> ∅)))).

(** [marker_map.get(var, var.upper())] *)
Definition marker_base (var : string) : string :=
  default (PyStr.upper var) (marker_map !! var).

Definition start_marker (var : string) : string :=
  "<GET_" +:+ marker_base var +:+ "_BEGIN>".
Definition end_marker (var : string) : string :=
  "<GET_" +:+ marker_base var +:+ "_END>".

(** What the body of the reading loop does with one received line:
    [found] and [lines_between] afterwards, or [None] for [break]. *)
Definition marker_step (smark emark : string) (found : bool)
    (lines_between : list string) (line : string)
  : option (bool * list string) :=
  if String.eqb line smark then Some (true, lines_between)
  else if found && String.eqb line emark then None
  else if found then Some (found, lines_between ++ [line])
  else Some (found, lines_between).

(** [next((l for l in lines_between
          if l and l != start_marker and l != end_marker), None)] *)
Definition first_value (smark emark : string) (lines_between : list string)
  : option string :=
  List.find (fun l => PyStr.truthy l && negb (String.eqb l smark)
                      && negb (String.eqb l emark)) lines_between.

(** How the reading loop was left. *)
Inductive loop_exit : Type :=
| ReturnedNone
| LoopDone (lines_between : list string).

Definition GET_TIMEOUT : Z := 4000.

(** ** The parser of the ESP32-S3 live dashboard *)

Module S3Live.

(** [((?:[\d.]+°C|N/A))] *)
Definition re_temp : Re.regex :=
  Re.Grp (Re.Alt (Re.Seq (Re.Plus digit_or_dot) (Re.Lit PyStr.degC)) (Re.Lit "N/A")).

Definition re_debug : Re.regex :=
  Re.seq_of (re_index ++ re_debug_prefix ++ re_fields ++ [re_temp]).

Definition re_normal : Re.regex :=
  Re.seq_of (re_index ++ re_fields ++ [re_temp]).

(** Remove the unit suffix if present, keep [N/A] as it is. *)
Definition temp_value (temp : string) : string :=
  if String.eqb temp "N/A" then "N/A" else PyStr.replace PyStr.degC "" temp.

Definition line_reading : string -> option Reading :=
  parse_line re_debug re_normal temp_value.

Definition parse_readings (response : string) : list Reading :=
  parse_lines line_reading false (PyStr.split_nl response).

(** *** Transport *)

(** [is_serial_valid(ser)] *)
Definition is_serial_valid (ser : serial_ref) : M bool :=
  match ser with
  | PyNone => ret false
  | ThePort => gets (fun w => is_open (port w))
  end.

(** [_wake_serial(ser, wake_delay)]: serial exceptions are re-raised, any
    other exception is swallowed. *)
Definition _wake_serial (ser : serial_ref) (wake_delay : Z) : M unit :=
  try_except
    (let* valid := is_serial_valid ser in
     if negb valid then ret tt
     else
       ser_write ser nl >>
       ser_flush ser >>
       time_sleep wake_delay)
    (fun e => if is_serial_exception e then raise e else ret tt).

(** [received_any and last_rx_time is not None and
     (t - last_rx_time) > quiet_period] *)
Definition quiet_elapsed (received_any : bool) (last_rx_time : option Z)
    (t quiet_period : Z) : bool :=
  received_any &&
  match last_rx_time with
  | Some l => (t - l >? quiet_period)%Z
  | None => false
  end.

(** The timing profile of [_wake_and_send_command]. *)
Definition fast_quiet_period : Z := 600.
Definition fast_hard_timeout : Z := 10000.

(** The [while True] loop of [_wake_and_send_command].  The quiet-period
    test sits inside the [if ser.in_waiting:] branch, as in the source. *)
Fixpoint fast_collect (fuel : nat) (ser : serial_ref) (start_time : Z)
    (response : string) (received_any : bool) (last_rx_time : option Z)
  : M (string * end_reason) :=
  match fuel with
  | O => diverge
  | S fuel' =>
      let* waiting := ser_in_waiting ser in
      let* step :=
        (if waiting : bool then
           let* raw := ser_readline ser in
           let line := PyStr.strip (decode_ignore raw) in
           let* st :=
             (if PyStr.truthy line then
                let* t := time_time in
                ret (response +:+ line +:+ nl, true, Some t)
              else ret (response, received_any, last_rx_time)) in
           let* t := time_time in
           if quiet_elapsed (snd (fst st)) (snd st) t fast_quiet_period
           then ret (inl (fst (fst st), QuietPeriod))
           else ret (inr st)
         else ret (inr (response, received_any, last_rx_time))) in
      match step with
      | inl r => ret r
      | inr st =>
          let* now_ts := time_time in
          if (now_ts - start_time >? fast_hard_timeout)%Z
          then ret (fst (fst st), HardTimeout)
          else fast_collect fuel' ser start_time
                 (fst (fst st)) (snd (fst st)) (snd st)
      end
  end.

(** One pass through the [try] block of [_wake_and_send_command], from the
    wake-up byte to the end of the collection. *)
Definition wake_and_send_attempt (fuel : nat) (ser : serial_ref)
    (command : string) (wake_delay : Z) : M (string * end_reason) :=
  ser_write ser nl >>
  ser_flush ser >>
  time_sleep wake_delay >>
  ser_reset_input_buffer ser >>
  ser_write ser (command_line command) >>
  ser_flush ser >>
  time_sleep 100 >>
  let* start_time := time_time in
  fast_collect fuel ser start_time EmptyString false None.

(** What one iteration of the [for attempt in range(max_retries)] loop
    decides. *)
Inductive attempt_result : Type :=
| Return (s : string)
| NextAttempt.

Definition RETRY_BACKOFF : Z := 500.

(** The body of the [for] loop for the given [attempt]. *)
Definition wake_and_send_iteration (fuel : nat) (ser : serial_ref)
    (command : string) (wake_delay max_retries : Z) (attempt : Z)
  : M attempt_result :=
  try_except
    (match ser with
     | PyNone => ret (Return EmptyString)
     | ThePort =>
         let* cr := wake_and_send_attempt fuel ser command wake_delay in
         let response := fst cr in
         if PyStr.truthy (PyStr.strip response)
         then ret (Return (PyStr.strip response))
         else if (attempt <? max_retries - 1)%Z
         then time_sleep RETRY_BACKOFF >> ret NextAttempt
         else ret (Return EmptyString)
     end)
    (fun _ =>
       if (attempt <? max_retries - 1)%Z
       then time_sleep RETRY_BACKOFF >> ret NextAttempt
       else ret (Return EmptyString)).

(** The [for] loop with [n] iterations left; falling off its end is
    Python's implicit [return None]. *)
Fixpoint wake_and_send_from (n : nat) (fuel : nat) (ser : serial_ref)
    (command : string) (wake_delay max_retries : Z) (attempt : Z)
  : M (option string) :=
  match n with
  | O => ret None
  | S n' =>
      let* r := wake_and_send_iteration fuel ser command wake_delay
                  max_retries attempt in
      match r with
      | Return s => ret (Some s)
      | NextAttempt =>
          wake_and_send_from n' fuel ser command wake_delay max_retries
            (attempt + 1)
      end
  end.

(** [_wake_and_send_command(ser, command, wake_delay, max_retries)] *)
Definition _wake_and_send_command (fuel : nat) (ser : serial_ref)
    (command : string) (wake_delay max_retries : Z) : M (option string) :=
  wake_and_send_from (Z.to_nat max_retries) fuel ser command wake_delay
    max_retries 0.

(** The commands that [send_command] routes through
    [_wake_and_send_command]. *)
Definition fast_commands : list string :=
  [ "dashboardmode on"; "dashboardmode off"; "status"; "debugsimple";
    "debug"; "buttonmode"; "testbutton"; "print" ].

Definition is_fast (command : string) : bool :=
  existsb (String.eqb command) fast_commands.

(** [expect_range = command.strip().startswith("range ")] *)
Definition expect_range (command : string) : bool :=
  PyStr.startswith (PyStr.strip command) "range ".

(** [quiet_period = 1.5 if expect_range else 0.6] *)
Definition plain_quiet_period (command : string) : Z :=
  if expect_range command then 1500 else 600.

(** [hard_timeout = 30 if expect_range else 20] *)
Definition plain_hard_timeout (command : string) : Z :=
  if expect_range command then 30000 else 20000.

(** ['</DASHBOARD_DATA>' in line or
     (expect_range and '---END_READINGS---' in line)] *)
Definition has_end_marker (command line : string) : bool :=
  PyStr.contains DASHBOARD_CLOSE line
  || (expect_range command && PyStr.contains END_READINGS line).

(** The [while True] loop of [send_command]. *)
Fixpoint plain_collect (fuel : nat) (ser : serial_ref) (command : string)
    (start_time : Z) (response : string) (received_any : bool)
    (last_rx_time : option Z) : M (string * end_reason) :=
  match fuel with
  | O => diverge
  | S fuel' =>
      let* waiting := ser_in_waiting ser in
      let* step :=
        (if waiting : bool then
           let* raw := ser_readline ser in
           let line := PyStr.strip (decode_ignore raw) in
           let* st :=
             (if PyStr.truthy line then
                let* t := time_time in
                ret (response +:+ line +:+ nl, true, Some t)
              else ret (response, received_any, last_rx_time)) in
           if has_end_marker command line
           then ret (inl (fst (fst st), EndMarker))
           else ret (inr st)
         else ret (inr (response, received_any, last_rx_time))) in
      match step with
      | inl r => ret r
      | inr st =>
          let* now_ts := time_time in
          if quiet_elapsed (snd (fst st)) (snd st) now_ts
               (plain_quiet_period command)
          then ret (fst (fst st), QuietPeriod)
          else if (now_ts - start_time >? plain_hard_timeout command)%Z
          then ret (fst (fst st), HardTimeout)
          else plain_collect fuel' ser command start_time
                 (fst (fst st)) (snd (fst st)) (snd st)
      end
  end.

(** The standard wake-then-send sequence of [send_command]. *)
Definition wake_then_send (ser : serial_ref) (command : string) : M unit :=
  _wake_serial ser WAKE_DELAY >>
  ser_reset_input_buffer ser >>
  ser_write ser (command_line command) >>
  ser_flush ser.

(** The plain exchange: wake, clear, write, then collect with the profile
    of the command. *)
Definition plain_exchange (fuel : nat) (ser : serial_ref) (command : string)
  : M (string * end_reason) :=
  wake_then_send ser command >>
  let* start_time := time_time in
  plain_collect fuel ser command start_time EmptyString false None.

(** Truthiness of what [_wake_and_send_command] returned. *)
Definition response_truthy (r : option string) : bool :=
  match r with
  | Some s => PyStr.truthy s
  | None => false
  end.

(** The body of the [try] of [send_command]. *)
Definition send_command_body (fuel : nat) (ser : serial_ref)
    (command : string) : M string :=
  if is_fast command then
    let* response := _wake_and_send_command fuel ser command WAKE_DELAY 3 in
    if response_truthy response
    then ret (default EmptyString response)
    else
      let* cr := plain_exchange fuel ser command in
      ret (PyStr.strip (fst cr))
  else
    let* cr := plain_exchange fuel ser command in
    ret (PyStr.strip (fst cr)).

(** [send_command(ser, command)] *)
Definition send_command (fuel : nat) (ser : serial_ref) (command : string)
  : M string :=
  try_except (send_command_body fuel ser command) (fun _ => ret EmptyString).

(** *** Configuration variables *)

(** The session is marked disconnected after a message to the user. *)
Definition report_lost (msg : string) : M unit :=
  st_error msg >>
  session_put (fun ss =>
    put_serial_connection PyNone (put_connected_port None (put_connected false ss))).

(** The [while time.time() - start_time < 4] loop of
    [get_variable_with_markers]. *)
Fixpoint get_loop (fuel : nat) (ser : serial_ref) (smark emark : string)
    (start_time : Z) (found : bool) (lines_between : list string)
  : M loop_exit :=
  match fuel with
  | O => diverge
  | S fuel' =>
      let* t := time_time in
      if negb (t - start_time <? GET_TIMEOUT)%Z then ret (LoopDone lines_between)
      else
        let* valid := is_serial_valid ser in
        if negb valid then
          report_lost "Serial connection lost during operation. Please reconnect." >>
          ret ReturnedNone
        else
          let* step :=
            try_except_serial
              (let* waiting := ser_in_waiting ser in
               if waiting : bool then
                 let* raw := ser_readline ser in
                 let line := PyStr.strip (decode_ignore raw) in
                 ret (inr (marker_step smark emark found lines_between line))
               else ret (inr (Some (found, lines_between))))
              (fun _ =>
                 report_lost "Serial read error. Please reconnect." >>
                 ret (inl tt)) in
          match step with
          | inl _ => ret ReturnedNone
          | inr None => ret (LoopDone lines_between)
          | inr (Some st) =>
              get_loop fuel' ser smark emark start_time (fst st) (snd st)
          end
  end.

(** [get_variable_with_markers(ser, var)]; the result is [None] or the
    value. *)
Definition get_variable_with_markers (fuel : nat) (ser : serial_ref)
    (var : string) : M (option string) :=
  let* valid := is_serial_valid ser in
  if negb valid then
    report_lost "Serial connection lost. Please reconnect to the device." >>
    ret None
  else
    let* woke :=
      try_except_serial
        (_wake_serial ser WAKE_DELAY >>
         ser_reset_input_buffer ser >>
         ret true)
        (fun _ =>
           report_lost "Serial communication error. Please reconnect to the device." >>
           ret false) in
    if negb woke then ret None
    else
      try_except_serial
        (ser_write ser (command_line ("get " +:+ var)) >>
         ser_flush ser >>
         time_sleep 50 >>
         let* start_time := time_time in
         let* ex := get_loop fuel ser (start_marker var) (end_marker var)
                      start_time false [] in
         match ex with
         | ReturnedNone => ret None
         | LoopDone lines_between =>
             ret (first_value (start_marker var) (end_marker var) lines_between)
         end)
        (fun _ =>
           report_lost "Serial communication error. Please reconnect to the device." >>
           ret None).

(** *** Quick connection test *)

Definition QUICK_TIMEOUT : Z := 1000.

Definition is_status_reply (response : string) : bool :=
  PyStr.truthy response &&
  (PyStr.contains "CMD_RECEIVED" response
   || PyStr.contains "Dashboard Mode" response
   || PyStr.contains "ACTIVE" response
   || PyStr.contains "INACTIVE" response).

(** The [while time.time() - start_time < 1.0] loop of
    [test_connection_quick]. *)
Fixpoint quick_loop (fuel : nat) (ser : serial_ref) (start_time : Z) : M bool :=
  match fuel with
  | O => diverge
  | S fuel' =>
      let* t := time_time in
      if negb (t - start_time <? QUICK_TIMEOUT)%Z then ret false
      else
        let* waiting := ser_in_waiting ser in
        if waiting : bool then
          let* raw := ser_readline ser in
          let response := PyStr.strip (decode_ignore raw) in
          if is_status_reply response then ret true
          else quick_loop fuel' ser start_time
        else quick_loop fuel' ser start_time
  end.

(** [test_connection_quick(ser)] *)
Definition test_connection_quick (fuel : nat) (ser : serial_ref) : M bool :=
  let* valid := is_serial_valid ser in
  if negb valid then ret false
  else
    try_except
      (ser_reset_input_buffer ser >>
       ser_write ser (command_line "status") >>
       ser_flush ser >>
       time_sleep 100 >>
       let* start_time := time_time in
       quick_loop fuel ser start_time)
      (fun _ => ret false).

(** *** Connection test *)

Definition TEST_TIMEOUT : Z := 2000.

(** [response and "RTC not available" not in response] *)
Definition is_live_reply (response : string) : bool :=
  PyStr.truthy response && negb (PyStr.contains "RTC not available" response).

(** The [while time.time() - start_time < 2] loop of [test_connection]. *)
Fixpoint test_loop (fuel : nat) (ser : serial_ref) (start_time : Z) : M bool :=
  match fuel with
  | O => diverge
  | S fuel' =>
      let* t := time_time in
      if negb (t - start_time <? TEST_TIMEOUT)%Z then ret false
      else
        let* waiting := ser_in_waiting ser in
        if waiting : bool then
          let* raw := ser_readline ser in
          let response := PyStr.strip (decode_ignore raw) in
          if is_live_reply response then ret true
          else test_loop fuel' ser start_time
        else test_loop fuel' ser start_time
  end.

(** [test_connection(ser)] *)
Definition test_connection (fuel : nat) (ser : serial_ref) : M bool :=
  try_except
    (S3Live._wake_serial ser WAKE_DELAY >>
     ser_write ser (command_line "time") >>
     ser_flush ser >>
     let* start_time := time_time in
     test_loop fuel ser start_time)
    (fun _ => ret false).

(** *** The dashboard page

    One run of the script through the dashboard tab, for a run in which
    the user clicks neither the sidebar buttons nor the command buttons:
    the start-up validation, the connection test of the live view, the
    window of the live view, the auto-refresh gate, the retrieval, the
    live-view checkbox and the closing auto-rerun.  Rendering is left
    out.  [pytz] and [pandas] are outside the repository and are taken as
    parameters. *)

Section Page.

(** [int(local_tz.localize(dt).astimezone(pytz.UTC).timestamp())] for the
    timezone name and the naive datetime. *)
Variable to_epoch : string -> Z -> Z.

(** The body of the [try] of [convert_timestamp_to_timezone], for the
    timestamp and the name of the target timezone: [strptime], the
    conversion by [pytz] and [strftime]; [None] when it raises. *)
Variable utc_to_local : string -> string -> option string.

(** The table that [pandas] builds from the readings once their
    timestamps are converted: the split of each timestamp by [strptime]
    and the sort; [None] when building it raises (a timestamp that
    [strptime] rejects). *)
Variable to_dataframe : list Reading -> option DataFrame.

(** [f"range {start} {end}"] *)
Definition range_command (start_epoch end_epoch : Z) : string :=
  "range " +:+ PyStr.str_of_int start_epoch +:+ " " +:+ PyStr.str_of_int end_epoch.

(** Mark the session disconnected and close the port, as the three
    connection-lost paths do. *)
Definition drop_connection : M unit :=
  session_put (fun ss => put_connected_port None (put_connected false ss)) >>
  let* ser := session_get serial_connection in
  try_except
    (match ser with
     | ThePort => ser_close ThePort
     | PyNone => ret tt
     end)
    (fun _ => ret tt) >>
  session_put (fun ss => put_connection_error_count 0 (put_serial_connection PyNone ss)).

Definition MAX_ERRORS : Z := 3.

(** Count one failure; at the threshold tell the user, drop the
    connection and rerun. *)
Definition count_failure (msg : string) : M unit :=
  session_put (fun ss =>
    put_connection_error_count (connection_error_count ss + 1) ss) >>
  let* n := session_get connection_error_count in
  if (n >=? MAX_ERRORS)%Z then
    st_error msg >>
    drop_connection >>
    st_rerun
  else ret tt.

(** Start-up validation of a stale connection. *)
Definition startup_validation : M unit :=
  let* ss := session_get (fun ss => ss) in
  if connected ss then
    match serial_connection ss with
    | PyNone =>
        session_put (fun ss =>
          put_connection_error_count 0
            (put_connected_port None (put_connected false ss)))
    | ThePort =>
        let* valid := is_serial_valid ThePort in
        if negb valid then
          try_except (ser_close ThePort) (fun _ => ret tt) >>
          session_put (fun ss =>
            put_connection_error_count 0
              (put_serial_connection PyNone
                 (put_connected_port None (put_connected false ss))))
        else ret tt
    end
  else ret tt.

Definition CONNECTION_TEST_PERIOD : Z := 30000.

(** The connection test of the live view, every 30 seconds. *)
Definition connection_watchdog (fuel : nat) : M unit :=
  let* ss := session_get (fun ss => ss) in
  if live_view_enabled ss then
    let* current_time := time_time in
    if (current_time - last_connection_test ss >? CONNECTION_TEST_PERIOD)%Z then
      session_put (put_last_connection_test current_time) >>
      let* connection_valid := test_connection_quick fuel (serial_connection ss) in
      if negb connection_valid then
        count_failure "Connection Lost: ESP32 is not responding. Please reconnect."
      else session_put (put_connection_error_count 0)
    else ret tt
  else ret tt.

(** Live view is on for this run: the checkbox is checked and no stop is
    requested. *)
Definition live_view_on (ss : Session) : bool :=
  live_view_checkbox ss && negb (live_view_stop_requested ss).

(** [start_epoch_live]: the start of the live window, [None] when live
    view is off. *)
Definition live_range_start (tz : string) : M (option Z) :=
  let* ss := session_get (fun ss => ss) in
  if live_view_on ss then
    let* start_dt_live :=
      match live_view_start_timestamp ss with
      | Some t => ret t
      | None =>
          let* t := time_time in
          session_put (put_live_view_start_timestamp (Some t)) >>
          ret t
      end in
    ret (Some (to_epoch tz start_dt_live))
  else ret None.

Definition REFRESH_PERIOD : Z := 5000.

(** The auto-refresh gate: [should_auto_refresh]. *)
Definition auto_refresh_gate (start_epoch_live : option Z) : M bool :=
  let* ss := session_get (fun ss => ss) in
  if live_view_on ss && connected ss && bool_decide (is_Some start_epoch_live) then
    let* valid := is_serial_valid (serial_connection ss) in
    if negb valid then
      st_error "Connection Lost: Serial port is no longer valid. Please reconnect." >>
      session_put (fun ss =>
        put_serial_connection PyNone
          (put_connected_port None (put_connected false ss))) >>
      st_rerun
    else
      let* current_time := time_time in
      let last_update := last_live_update ss in
      if (current_time - last_update >=? REFRESH_PERIOD)%Z || (last_update =? 0)%Z then
        if live_view_checkbox ss then
          session_put (fun ss =>
            put_last_live_update current_time (put_is_auto_refresh true ss)) >>
          ret true
        else
          session_put (fun ss =>
            put_last_live_update 0
              (put_live_view_enabled false (put_is_auto_refresh false ss))) >>
          ret false
      else ret false
  else ret false.

(** [convert_timestamp_to_timezone(timestamp_str, target_timezone)]: a
    timestamp that cannot be converted is reported on the page and
    returned as it is. *)
Definition convert_timestamp_to_timezone (timestamp_str target_timezone : string)
  : M string :=
  match utc_to_local timestamp_str target_timezone with
  | Some local => ret local
  | None => st_error "Error converting timestamp" >> ret timestamp_str
  end.

(** [df['Timestamp'].apply(lambda x: convert_timestamp_to_timezone(x, tz))],
    row by row. *)
Fixpoint convert_timestamps (tz : string) (readings : list Reading)
  : M (list Reading) :=
  match readings with
  | [] => ret []
  | r :: rest =>
      let* local := convert_timestamp_to_timezone (Timestamp r) tz in
      let* rest' := convert_timestamps tz rest in
      ret (mkReading local (Value1 r) (Tag r) (Temperature_C r) :: rest')
  end.

(** Store the table built from the readings. *)
Definition store_readings (tz : string) (readings : list Reading) : M unit :=
  let* converted := convert_timestamps tz readings in
  match to_dataframe converted with
  | None => raise OtherException
  | Some df =>
      let* t := time_time in
      session_put (fun ss =>
        put_last_successful_update (Some t) (put_last_df (Some df) ss))
  end.

(** What the auto-refresh does with the response of its range query. *)
Definition handle_poll_response (tz response : string) : M unit :=
  session_put (put_last_raw_response (Some response)) >>
  if negb (PyStr.truthy response) || String.eqb (PyStr.strip response) EmptyString
  then
    count_failure "Connection Error: ESP32 is not responding. Please check connection."
  else
    session_put (put_connection_error_count 0) >>
    match parse_readings response with
    | [] => ret tt
    | readings => store_readings tz readings
    end.

(** The silent fetch of the live view: the end of the window is
    recomputed, the range query is sent and its response handled. *)
Definition auto_refresh_poll (fuel : nat) (tz : string) (start_epoch_live : Z)
  : M unit :=
  let* end_dt_live_now := time_time in
  let end_epoch_live_now := to_epoch tz end_dt_live_now in
  let command := range_command start_epoch_live end_epoch_live_now in
  try_except
    (let* ser := session_get serial_connection in
     let* response := send_command fuel ser command in
     handle_poll_response tz response)
    (fun _ => count_failure "Connection Error. Please reconnect.") >>
  session_put (put_is_auto_refresh false).

(** What the page receives from the user for one run. *)
Record RunInput : Type := mkRunInput {
  in_checkbox : bool;
  in_timezone : string;
  in_retrieve_clicked : bool;
  in_start_epoch : Z;
  in_end_epoch : Z
}.

(** The manual retrieval over the range of the date pickers. *)
Definition manual_retrieve (fuel : nat) (inp : RunInput) : M unit :=
  let command := range_command (in_start_epoch inp) (in_end_epoch inp) in
  let* ser := session_get serial_connection in
  let* response := send_command fuel ser command in
  session_put (put_last_raw_response (Some response)) >>
  (if PyStr.truthy response then
     match parse_readings response with
     | [] =>
         if String.eqb (PyStr.strip response) EmptyString
         then st_warning "No Data: ESP32 returned empty response. Check device connection."
         else st_info "No Readings Found: No data in the selected time range."
     | readings => store_readings (in_timezone inp) readings
     end
   else
     st_error "Connection Error: ESP32 did not respond. Please check connection and try again.") >>
  session_put (put_new_query false).

(** Retrieve data, manually or by auto-refresh. *)
Definition fetch (fuel : nat) (inp : RunInput) (live_on : bool)
    (start_epoch_live : option Z) (should_auto_refresh : bool) : M unit :=
  if (in_retrieve_clicked inp && negb live_on) || should_auto_refresh then
    (if should_auto_refresh then ret tt
     else session_put (put_new_query true)) >>
    let* ss := session_get (fun ss => ss) in
    let* valid := is_serial_valid (serial_connection ss) in
    if connected ss && valid then
      if negb should_auto_refresh then manual_retrieve fuel inp
      else
        match live_on, start_epoch_live with
        | true, Some s => auto_refresh_poll fuel (in_timezone inp) s
        | _, _ =>
            session_put (put_is_auto_refresh false) >>
            let* t := time_time in
            session_put (put_last_live_update (t - 4000))
        end
    else
      if should_auto_refresh then
        session_put (put_is_auto_refresh false) >>
        let* t := time_time in
        session_put (put_last_live_update (t - 5000)) >>
        (* [live_view_enabled] is not bound yet at this point of the
           script: NameError *)
        raise OtherException
      else ret tt
  else ret tt.

(** The live-view checkbox: the stop flag, the enabled state, and the
    capture or the clearing of the start timestamp. *)
Definition live_view_section : M unit :=
  let* ss := session_get (fun ss => ss) in
  let previous_live_view_state := live_view_enabled ss in
  let live_view_checkbox_value := live_view_checkbox ss in
  let stop_requested_check := live_view_stop_requested ss in
  let checkbox_was_checked := live_view_checkbox_previous ss in
  let checkbox_changed := negb (eqb live_view_checkbox_value checkbox_was_checked) in
  session_put (put_live_view_checkbox_previous live_view_checkbox_value) >>
  let* enabled :=
    (if stop_requested_check then
       if live_view_checkbox_value && checkbox_changed && negb checkbox_was_checked
       then
         session_put (fun ss =>
           put_live_view_enabled true (put_live_view_stop_requested false ss)) >>
         ret true
       else session_put (put_live_view_enabled false) >> ret false
     else if live_view_checkbox_value then
       session_put (put_live_view_enabled true) >> ret true
     else
       session_put (fun ss =>
         put_live_view_enabled false (put_live_view_stop_requested true ss)) >>
       ret false) in
  if (enabled : bool) && negb previous_live_view_state then
    let* current_timestamp := time_time in
    session_put (fun ss =>
      put_is_auto_refresh false
        (put_last_successful_update None
           (put_last_raw_response None
              (put_last_df None
                 (put_last_live_update 0
                    (put_live_view_start_timestamp (Some current_timestamp) ss)))))) >>
    st_rerun
  else if negb enabled && previous_live_view_state then
    session_put (fun ss =>
      put_is_auto_refresh false
        (put_last_live_update 0
           (put_live_view_start_timestamp None
              (put_live_view_stop_requested true ss))))
  else ret tt.

(** The watch is running: the condition under which the page keeps
    rerunning itself. *)
Definition watch_active (ss : Session) : bool :=
  live_view_enabled ss && negb (live_view_stop_requested ss) && connected ss.

(** The closing auto-rerun of the tab. *)
Definition page_tail : M unit :=
  let* ss := session_get (fun ss => ss) in
  if watch_active ss then
    try_except (time_sleep 100 >> st_rerun) (fun _ => ret tt)
  else
    (if live_view_enabled ss && negb (live_view_stop_requested ss)
     then session_put (put_live_view_stop_requested true)
     else ret tt) >>
    session_put (fun ss => put_last_live_update 0 (put_is_auto_refresh false ss)).

(** One run of the dashboard tab. *)
Definition dashboard_tab (fuel : nat) (inp : RunInput) : M unit :=
  session_put (put_live_view_checkbox (in_checkbox inp)) >>
  startup_validation >>
  let* is_connected := session_get connected in
  (if is_connected : bool then
     connection_watchdog fuel >>
     session_put (put_selected_timezone (in_timezone inp)) >>
     let* live_on := session_get live_view_on in
     let* start_epoch_live := live_range_start (in_timezone inp) in
     let* should_auto_refresh := auto_refresh_gate start_epoch_live in
     fetch fuel inp live_on start_epoch_live should_auto_refresh >>
     live_view_section
   else st_info "Please connect to your RFID reader using the sidebar.") >>
  page_tail.

End Page.

End S3Live.

(** ** The parser of the older multi-button dashboard *)

Module MultiButton.

(** [([\d.]+)°C] : the unit is outside the group. *)
Definition re_temp : list Re.regex :=
  [ Re.Grp (Re.Plus digit_or_dot); Re.Lit PyStr.degC ].

Definition re_debug : Re.regex :=
  Re.seq_of (re_index ++ re_debug_prefix ++ re_fields ++ re_temp).

Definition re_normal : Re.regex :=
  Re.seq_of (re_index ++ re_fields ++ re_temp).

Definition line_reading : string -> option Reading :=
  parse_line re_debug re_normal (fun temp => temp).

Definition parse_readings (response : string) : list Reading :=
  parse_lines line_reading false (PyStr.split_nl response).

(** *** Configuration variables *)

(** [_wake_serial(ser, wake_delay)] of the older dashboard: every
    exception is swallowed. *)
Definition _wake_serial (ser : serial_ref) (wake_delay : Z) : M unit :=
  try_except
    (match ser with
     | PyNone => ret tt
     | ThePort =>
         ser_write ser nl >>
         ser_flush ser >>
         time_sleep wake_delay
     end)
    (fun _ => ret tt).

(** The reading loop of [get_variable_with_markers]; nothing is caught. *)
Fixpoint get_loop (fuel : nat) (ser : serial_ref) (smark emark : string)
    (start_time : Z) (found : bool) (lines_between : list string)
  : M (list string) :=
  match fuel with
  | O => diverge
  | S fuel' =>
      let* t := time_time in
      if negb (t - start_time <? GET_TIMEOUT)%Z then ret lines_between
      else
        let* waiting := ser_in_waiting ser in
        if waiting : bool then
          let* raw := ser_readline ser in
          let line := PyStr.strip (decode_ignore raw) in
          match marker_step smark emark found lines_between line with
          | None => ret lines_between
          | Some st =>
              get_loop fuel' ser smark emark start_time (fst st) (snd st)
          end
        else get_loop fuel' ser smark emark start_time found lines_between
  end.

(** [get_variable_with_markers(ser, var)] *)
Definition get_variable_with_markers (fuel : nat) (ser : serial_ref)
    (var : string) : M (option string) :=
  _wake_serial ser WAKE_DELAY >>
  ser_reset_input_buffer ser >>
  ser_write ser (command_line ("get " +:+ var)) >>
  ser_flush ser >>
  time_sleep 50 >>
  let* start_time := time_time in
  let* lines_between := get_loop fuel ser (start_marker var) (end_marker var)
                          start_time false [] in
  ret (first_value (start_marker var) (end_marker var) lines_between).

End MultiButton.

(** ** The bounded debug logs *)

Definition LOG_LIMIT : nat := 100.

(** The body that [log_debug], [log_set_debug] and [log_general_debug]
    share, on the list held under their key: the message is appended and,
    when the list has grown beyond 100 entries, its last 100 are kept
    ([log[-100:]]). *)
Definition log_append (log : list string) (msg : string) : list string :=
  let log' := log ++ [msg] in
  if (LOG_LIMIT <? length log')%nat
  then skipn (length log' - LOG_LIMIT) log'
  else log'.

(** The three log keys of [st.session_state]. *)
Record Logs : Type := mkLogs {
  debug_log : list string;
  set_debug_log : list string;
  general_debug_log : list string
}.

(** The logs at session start. *)
Definition no_logs : Logs := mkLogs [] [] [].

Definition log_debug (msg : string) (l : Logs) : Logs :=
  mkLogs (log_append (debug_log l) msg) (set_debug_log l) (general_debug_log l).
Definition log_set_debug (msg : string) (l : Logs) : Logs :=
  mkLogs (debug_log l) (log_append (set_debug_log l) msg) (general_debug_log l).
Definition log_general_debug (msg : string) (l : Logs) : Logs :=
  mkLogs (debug_log l) (set_debug_log l) (log_append (general_debug_log l) msg).

(** * Vocabulary of the properties

    Predicates on worlds and runs, the texts and the link scenarios that
    the properties below are stated with. *)

Open Scope Z_scope.

(** ** Link computations *)

(** What a link computation may do to the world: the clock moves
    forward, the session and the user interface are left alone, the port
    stays open or closed, an empty fault script stays empty, and what is
    written to the port satisfies [P]. *)
Definition link_step (P : string -> Prop) (w w' : World) : Prop :=
  tick w' = tick w
  /\ ((0 <= tick w)%Z -> (now w <= now w')%Z)
  /\ session w' = session w
  /\ ui w' = ui w
  /\ is_open (port w') = is_open (port w)
  /\ (faults (port w) = [] -> faults (port w') = [])
  /\ exists l, tx (port w') = tx (port w) ++ l /\ Forall P l.

(** A link computation: every run is a [link_step] and never asks for a
    rerun of the page. *)
Definition link_comp {A : Type} (P : string -> Prop) (m : M A) : Prop :=
  forall w, link_step P w (snd (m w)) /\ fst (m w) <> Raise RerunException.

(** What an exchange for [command] writes: wake-up bytes and the command
    line. *)
Definition wire (command : string) (x : string) : Prop :=
  x = nl \/ x = command_line command.

(** The port is open and no fault is scripted. *)
Definition clean (w : World) : Prop :=
  faults (port w) = [] /\ is_open (port w) = true.

(** Time passes at every poll, and the fuel covers the longest hard
    timeout (30 s). *)
Definition enough_fuel (fuel : nat) (w : World) : Prop :=
  0 < tick w /\ 30000 < Z.of_nat fuel * tick w.

(** The outcome of a run is a value or, on a faulty link, an exception. *)
Definition settles {A : Type} (w : World) (r : outcome A) : Prop :=
  r <> Diverge /\ (clean w -> forall e, r <> Raise e).

(** A computation behaves when, with enough fuel, it settles from every
    world. *)
Definition behaves {A : Type} (fuel : nat) (m : M A) : Prop :=
  forall w, enough_fuel fuel w -> settles w (fst (m w)).

(** No constraint on what is written. *)
Definition anything (x : string) : Prop := True.

(** A connected session, everything else as at start-up. *)
Definition witness_session : Session :=
  mkSession true (Some "/dev/ttyACM0") ThePort None None "UTC" false false
    None 0 false None 0 0 false false false.

(** A link that raises on the third operation of the exchange. *)
Definition broken_link_world : World :=
  mkWorld 0 100
    (mkSerial true [(700, "OK" +:+ nl)] [] [NoFault; NoFault; FaultSerial])
    witness_session [].

(** A device that answers [OK] 50 ms after the command and then stays
    silent, polled every 100 ms. *)
Definition one_line_world : World :=
  mkWorld 0 100 (mkSerial true [(50, "OK" +:+ nl)] [] []) witness_session [].

(** The captured text of an exchange, stripped. *)
Definition captured (m : M (string * end_reason)) : M string :=
  let* cr := m in ret (PyStr.strip (fst cr)).

(** The policy in the words of the specification: up to three attempts,
    0.5 s apart, the first non-empty text wins, and one fall-back when all
    three are empty. *)
Definition retry_policy (attempt fallback : M string) : M string :=
  let* t1 := attempt in
  if PyStr.truthy t1 then ret t1 else
  time_sleep 500 >>
  let* t2 := attempt in
  if PyStr.truthy t2 then ret t2 else
  time_sleep 500 >>
  let* t3 := attempt in
  if PyStr.truthy t3 then ret t3 else fallback.

(** A device that stays silent during two attempts and answers [OK]
    during the third. *)
Definition third_time_world : World :=
  mkWorld 0 100 (mkSerial true [(22500, "OK" +:+ nl)] [] []) witness_session [].

(** ** Texts of records *)

(** Every character of [s] satisfies [p]. *)
Fixpoint all_chars (p : ascii -> bool) (s : string) : bool :=
  match s with
  | EmptyString => true
  | String c s' => p c && all_chars p s'
  end.

(** [s] does not start with a character satisfying [p]. *)
Definition stops (p : ascii -> bool) (s : string) : bool :=
  match s with
  | EmptyString => true
  | String c _ => negb (p c)
  end.

(** [x] is another character than [c]. *)
Definition differs (c : ascii) (x : ascii) : bool := negb (Ascii.eqb x c).

(** A non-empty run of characters of the class [p]. *)
Definition run (p : ascii -> bool) (s : string) : Prop :=
  s <> EmptyString /\ all_chars p s = true.

(** [date time, value, tag, ] followed by [rest]. *)
Definition fields_then (date time value tag rest : string) : string :=
  date +:+ " " +:+ time +:+ ", " +:+ value +:+ ", " +:+ tag +:+ ", " +:+ rest.

(** [#idx: ] followed by [rest]. *)
Definition index_then (idx rest : string) : string :=
  "#" +:+ idx +:+ ": " +:+ rest.

(** [[DEBUG] raw_timestamp=raw, converted=] followed by [rest]. *)
Definition debug_then (raw rest : string) : string :=
  "[DEBUG] raw_timestamp=" +:+ raw +:+ ", converted=" +:+ rest.

(** The line of a record in the normal format. *)
Definition normal_line (idx date time value tag temp : string) : string :=
  index_then idx (fields_then date time value tag temp).

(** The line of a record in the debug format. *)
Definition debug_line (idx raw date time value tag temp : string) : string :=
  index_then idx (debug_then raw (fields_then date time value tag temp)).

(** The five texts of a record are runs of the classes of the grammar. *)
Definition well_formed (idx date time value tag : string) : Prop :=
  run PyStr.isdigit idx /\ run digit_or_dash date /\ run digit_or_colon time
  /\ run PyStr.isdigit value /\ run PyStr.isdigit tag.

(** [needs c r]: every match of [r] reads the character [c]. *)
Fixpoint needs (c : ascii) (r : Re.regex) : bool :=
  match r with
  | Re.Chr x => Ascii.eqb x c
  | Re.Lit l => negb (all_chars (differs c) l)
  | Re.Seq a b => needs c a || needs c b
  | Re.Alt a b => needs c a && needs c b
  | Re.Grp a => needs c a
  | _ => false
  end.

(** The state of [in_block] after the loop of [parse_readings] has seen
    [lines]. *)
Fixpoint block_state (in_block : bool) (lines : list string) : bool :=
  match lines with
  | [] => in_block
  | line :: rest =>
      if PyStr.contains BEGIN_READINGS line then block_state true rest
      else if PyStr.contains END_READINGS line then block_state false rest
      else block_state in_block rest
  end.

(** The lines inside the blocks, in the words of the specification: what
    lies between a begin line and the next end line, the delimiter lines
    themselves left out. *)
Fixpoint block_lines (in_block : bool) (lines : list string) : list string :=
  match lines with
  | [] => []
  | line :: rest =>
      if PyStr.contains BEGIN_READINGS line then block_lines true rest
      else if PyStr.contains END_READINGS line then block_lines false rest
      else if in_block then line :: block_lines in_block rest
      else block_lines in_block rest
  end.

(** The temperature text of a line: the literal [N/A], or a number with
    its unit. *)
Inductive temperature : Type :=
| NotAvailable
| Degrees (num : string).

(** As it stands on the line. *)
Definition temp_text (t : temperature) : string :=
  match t with
  | NotAvailable => "N/A"
  | Degrees num => num +:+ PyStr.degC
  end.

(** As it stands in the reading. *)
Definition temp_field (t : temperature) : string :=
  match t with
  | NotAvailable => "N/A"
  | Degrees num => num
  end.

(** The number is a run of digits and dots. *)
Definition temp_ok (t : temperature) : Prop :=
  match t with
  | NotAvailable => True
  | Degrees num => run digit_or_dot num
  end.

(** The example of the specification, inside a block. *)
Definition na_response : string :=
  "---BEGIN_READINGS---" +:+ nl
  +:+ "#4: 2025-07-23 05:14:05, 999, 141004265912, N/A" +:+ nl
  +:+ "---END_READINGS---".

(** ** Wrappers and blocks *)

(** A text without the character [<]: it holds no tag of a wrapper. *)
Definition tag_free (s : string) : Prop := all_chars (differs "<") s = true.

(** Wrappers one after the other: each with the text before it and its
    contents, and [tail] after the last. *)
Fixpoint wrapped (ws : list (string * string)) (tail : string) : string :=
  match ws with
  | [] => tail
  | (junk, body) :: ws' =>
      junk +:+ DASHBOARD_OPEN +:+ body +:+ DASHBOARD_CLOSE +:+ wrapped ws' tail
  end.

(** No text of the wrappers holds a tag. *)
Definition wrappers_free (ws : list (string * string)) : Prop :=
  Forall (fun w => tag_free (fst w) /\ tag_free (snd w)) ws.

(** [extract_latest_readings_block] on a text without wrapper: the last
    block that an end line has closed. *)
Definition latest_block (text : string) : string :=
  match last (collect_blocks false [] [] (PyStr.split_nl text)) with
  | Some b => b
  | None => EmptyString
  end.

(** The three kinds of lines of the block scanner. *)
Definition is_begin (line : string) : bool := PyStr.contains BEGIN_READINGS line.
Definition is_end (line : string) : bool :=
  negb (PyStr.contains BEGIN_READINGS line) && PyStr.contains END_READINGS line.
Definition is_plain (line : string) : bool :=
  negb (PyStr.contains BEGIN_READINGS line)
  && negb (PyStr.contains END_READINGS line).

(** Two record lines. *)
Definition first_record : string :=
  "#1: 2025-07-23 05:13:05, 999, 141004265912, 24.86" +:+ PyStr.degC.
Definition second_record : string :=
  "#2: 2025-07-23 05:14:05, 999, 141004265912, 25.10" +:+ PyStr.degC.

(** The contents of a wrapper around one block with one record. *)
Definition block_of (record : string) : string :=
  nl +:+ "---BEGIN_READINGS---" +:+ nl +:+ record +:+ nl
  +:+ "---END_READINGS---" +:+ nl.

(** A response with two wrappers, a block in each. *)
Definition two_wrappers_text : string :=
  wrapped [(EmptyString, block_of first_record); (nl, block_of second_record)]
    EmptyString.

(** ** Marker-delimited values *)

(** The lines before the first line equal to [emark]. *)
Fixpoint body_until (emark : string) (lines : list string) : list string :=
  match lines with
  | [] => []
  | l :: rest => if String.eqb l emark then [] else l :: body_until emark rest
  end.

(** The body of the value: the lines after the first begin marker, up to
    the end marker; [None] when no begin marker is seen. *)
Fixpoint marker_body (smark emark : string) (lines : list string)
  : option (list string) :=
  match lines with
  | [] => None
  | l :: rest =>
      if String.eqb l smark then Some (body_until emark rest)
      else marker_body smark emark rest
  end.

(** The value in the words of the specification: the first non-empty,
    non-marker line of the body. *)
Definition marker_value (var : string) (lines : list string) : option string :=
  match marker_body (start_marker var) (end_marker var) lines with
  | None => None
  | Some body => first_value (start_marker var) (end_marker var) body
  end.

(** The loop of [get_variable_with_markers] over the lines it receives. *)
Fixpoint scan_lines (smark emark : string) (found : bool)
    (lines_between : list string) (lines : list string) : list string :=
  match lines with
  | [] => lines_between
  | l :: rest =>
      match marker_step smark emark found lines_between l with
      | None => lines_between
      | Some st => scan_lines smark emark (fst st) (snd st) rest
      end
  end.

(** The text of a received line, as the loops see it. *)
Definition received (e : Z * string) : string :=
  PyStr.strip (decode_ignore (snd e)).

(** Fuel for the four seconds of the reading loop. *)
Definition get_fuel (fuel : nat) (w : World) : Prop :=
  0 < tick w /\ GET_TIMEOUT + tick w <= Z.of_nat fuel * tick w.

(** A device that answers [get ssid] with some chatter, the value between
    its markers and a trailing line. *)
Definition ssid_world : World :=
  mkWorld 0 100
    (mkSerial true
       [ (100, "stale line" +:+ nl);
         (400, "[SERIAL] CMD_RECEIVED" +:+ nl);
         (410, "<GET_SSID_BEGIN>" +:+ nl);
         (420, nl);
         (430, "LabNetwork" +:+ nl);
         (440, "<GET_SSID_END>" +:+ nl);
         (450, "OK" +:+ nl) ]
       [] [])
    witness_session [].

(** ** Live view *)

(** The test of the auto-refresh on its response:
    [not response or response.strip() == ""]. *)
Definition blank (response : string) : bool :=
  negb (PyStr.truthy response) || String.eqb (PyStr.strip response) EmptyString.

(** One failure counted on top of the world [w], with result [r]: the
    table on display is kept; below the threshold the counter goes up by
    one and the run goes on; at the threshold the user is told, the
    session is disconnected, the counter starts again and the page is
    rerun with the watch no longer active. *)
Definition failure_counted (msg : string) (w : World)
    (r : outcome unit * World) : Prop :=
  last_df (session (snd r)) = last_df (session w)
  /\ if connection_error_count (session w) + 1 >=? S3Live.MAX_ERRORS
     then fst r = Raise RerunException
          /\ ui (snd r) = ui w ++ [StError msg]
          /\ connection_error_count (session (snd r)) = 0
          /\ connected (session (snd r)) = false
          /\ S3Live.watch_active (session (snd r)) = false
     else fst r = Ok tt
          /\ ui (snd r) = ui w
          /\ connection_error_count (session (snd r))
             = connection_error_count (session w) + 1
          /\ connected (session (snd r)) = connected (session w).

(** What [convert_timestamp_to_timezone] returns for a timestamp. *)
Definition local_timestamp (utc_to_local : string -> string -> option string)
    (tz timestamp_str : string) : string :=
  match utc_to_local timestamp_str tz with
  | Some local => local
  | None => timestamp_str
  end.

(** The readings with their timestamps converted for the display. *)
Definition converted (utc_to_local : string -> string -> option string)
    (tz : string) (readings : list Reading) : list Reading :=
  map (fun r => mkReading (local_timestamp utc_to_local tz (Timestamp r))
                  (Value1 r) (Tag r) (Temperature_C r))
      readings.

(** The errors shown for the timestamps that cannot be converted, one for
    each, in the order of the readings. *)
Definition conversion_errors (utc_to_local : string -> string -> option string)
    (tz : string) (readings : list Reading) : list ui_event :=
  flat_map (fun r => match utc_to_local (Timestamp r) tz with
                     | Some _ => []
                     | None => [StError "Error converting timestamp"]
                     end)
           readings.

(** The world with further messages on the page. *)
Definition shown (es : list ui_event) (w : World) : World :=
  mkWorld (now w) (tick w) (port w) (session w) (ui w ++ es).

(** What one poll does with the response of its range query.  A blank
    response is a failure.  Any other response resets the counter; when
    it holds readings, the errors of their conversion are shown and the
    table built from them is stored; when the table cannot be built, the
    table on display is kept and the handler of the poll counts one
    failure on the counter just reset, which so ends at 1 whatever it
    was. *)
Definition poll_accounted
    (utc_to_local : string -> string -> option string)
    (to_dataframe : list Reading -> option DataFrame)
    (tz response : string) (w : World)
    (r : outcome unit * World) : Prop :=
  if blank response then
    failure_counted
      "Connection Error: ESP32 is not responding. Please check connection." w r
  else
    fst r = Ok tt
    /\ connected (session (snd r)) = connected (session w)
    /\ match S3Live.parse_readings response with
       | [] =>
           ui (snd r) = ui w
           /\ connection_error_count (session (snd r)) = 0
           /\ last_df (session (snd r)) = last_df (session w)
       | readings =>
           ui (snd r) = ui w ++ conversion_errors utc_to_local tz readings
           /\ match to_dataframe (converted utc_to_local tz readings) with
              | Some df =>
                  connection_error_count (session (snd r)) = 0
                  /\ last_df (session (snd r)) = Some df
              | None =>
                  connection_error_count (session (snd r)) = 1
                  /\ last_df (session (snd r)) = last_df (session w)
              end
       end.

(** Fuel for one run of the page: one poll more than the longest hard
    timeout takes. *)
Definition page_fuel (fuel : nat) (w : World) : Prop :=
  0 < tick w /\ 30000 + tick w <= Z.of_nat fuel * tick w.

(** What the connection test of the live view does with the verdict of
    the quick test. *)
Definition watchdog_accounted (v : bool) (w : World)
    (r : outcome unit * World) : Prop :=
  if v then
    fst r = Ok tt
    /\ ui (snd r) = ui w
    /\ connection_error_count (session (snd r)) = 0
    /\ last_df (session (snd r)) = last_df (session w)
  else
    failure_counted
      "Connection Lost: ESP32 is not responding. Please reconnect." w r.

Section Window.

Variable to_epoch : string -> Z -> Z.
Variable inp : S3Live.RunInput.

(** The live view is on for the run, and its start timestamp when the run
    begins. *)
Variable live : bool.
Variable start : option Z.

(** A poll of the window from [a] to [b], times of the clock of the page
    with [a] not after [b], issued between [lo] and [hi]: the range query
    for the epochs that the page converts them to. *)
Definition poll_line (lo hi : Z) (x : string) : Prop :=
  exists a b,
    (forall t0, start = Some t0 -> a = t0)
    /\ a <= b /\ lo <= b <= hi
    /\ x = command_line
             (S3Live.range_command (to_epoch (S3Live.in_timezone inp) a)
                                   (to_epoch (S3Live.in_timezone inp) b)).

(** A range query whose start is not after its end. *)
Definition ordered_poll (x : string) : Prop :=
  exists start_epoch end_epoch,
    start_epoch <= end_epoch
    /\ x = command_line (S3Live.range_command start_epoch end_epoch).

(** What one run of the tab may write to the port between [lo] and [hi]:
    wake-up bytes, the status query of the connection test, the manual
    retrieval when the live view is off, and polls when it is on. *)
Definition run_line (lo hi : Z) (x : string) : Prop :=
  x = nl
  \/ x = command_line "status"
  \/ (live = false /\ S3Live.in_retrieve_clicked inp = true
      /\ x = command_line
               (S3Live.range_command (S3Live.in_start_epoch inp)
                                     (S3Live.in_end_epoch inp)))
  \/ (live = true /\ poll_line lo hi x).

(** The start timestamp is kept; one that is not set may be set to a time
    between [lo] and [hi]. *)
Definition ts_kept (lo hi : Z) (ts ts' : option Z) : Prop :=
  ts' = ts \/ (ts = None /\ exists t, lo <= t <= hi /\ ts' = Some t).

(** What the page does outside its live-view section: time passes, the
    live-view flags are left alone, the start timestamp is kept and what
    is written to the port is a [run_line]. *)
Definition page_step (w w' : World) : Prop :=
  0 <= tick w ->
  tick w' = tick w
  /\ now w <= now w'
  /\ live_view_enabled (session w') = live_view_enabled (session w)
  /\ live_view_stop_requested (session w') = live_view_stop_requested (session w)
  /\ live_view_checkbox (session w') = live_view_checkbox (session w)
  /\ ts_kept (now w) (now w')
       (live_view_start_timestamp (session w))
       (live_view_start_timestamp (session w'))
  /\ exists l, tx (port w') = tx (port w) ++ l
               /\ Forall (run_line (now w) (now w')) l.

(** A piece of the page that is a [page_step] from every world. *)
Definition page_comp {A : Type} (m : M A) : Prop :=
  forall w, page_step w (snd (m w)).

(** Session updates that leave the live-view fields alone. *)
Definition keeps_live (f : Session -> Session) : Prop :=
  forall ss,
    live_view_enabled (f ss) = live_view_enabled ss
    /\ live_view_stop_requested (f ss) = live_view_stop_requested ss
    /\ live_view_checkbox (f ss) = live_view_checkbox ss
    /\ live_view_start_timestamp (f ss) = live_view_start_timestamp ss.

(** How the live view turns during a piece of the run: it stays as it is
    and the start timestamp is kept; or it is switched off and the
    timestamp is cleared; or it is switched on, the timestamp is the clock
    and a rerun is requested. *)
Definition live_turn {A : Type} (w : World) (r : outcome A * World) : Prop :=
  let ss := session w in
  let ss' := session (snd r) in
  (live_view_enabled ss' = live_view_enabled ss
   /\ ts_kept (now w) (now (snd r))
        (live_view_start_timestamp ss) (live_view_start_timestamp ss'))
  \/ (live_view_enabled ss = true /\ live_view_enabled ss' = false
      /\ live_view_start_timestamp ss' = None)
  \/ (live_view_enabled ss = false /\ live_view_enabled ss' = true
      /\ live_view_start_timestamp ss' = Some (now (snd r))
      /\ fst r = Raise RerunException).

(** What a run of the tab does to the live view and to the port. *)
Definition run_post {A : Type} (w : World) (r : outcome A * World) : Prop :=
  tick (snd r) = tick w
  /\ now w <= now (snd r)
  /\ live_turn w r
  /\ exists l, tx (port (snd r)) = tx (port w) ++ l
               /\ Forall (run_line (now w) (now (snd r))) l.

End Window.

(** Between runs the start timestamp is not in the future, and the live
    view is off when none is stored. *)
Definition live_inv (w : World) : Prop :=
  match live_view_start_timestamp (session w) with
  | Some t => t <= now w
  | None => live_view_enabled (session w) = false
  end.

(** The clock in seconds, for a timezone without offset. *)
Definition epoch_seconds (tz : string) (t : Z) : Z := t / 1000.

(** A display in UTC: every timestamp is converted to itself. *)
Definition same_time (timestamp_str target_timezone : string) : option string :=
  Some timestamp_str.

(** A table with the readings as they are. *)
Definition plain_table (readings : list Reading) : option DataFrame :=
  Some (map (fun r => mkRow r 0 0 0 0 0) readings).

(** A session with the live view on since [t = 1 s] and [errors] failures
    counted. *)
Definition live_session (errors : Z) : Session :=
  mkSession true (Some "/dev/ttyACM0") ThePort (Some []) None "UTC" false
    true (Some 1000) 0 false None errors 0 true false true.

(** A device that has stopped answering, two failures counted. *)
Definition silent_world : World :=
  mkWorld 7000 100 (mkSerial true [] [] []) (live_session 2) [].

(** A device that answers, the live view on and no failure counted. *)
Definition live_world : World :=
  mkWorld 7000 100 (mkSerial true [(7500, "OK" +:+ nl)] [] [])
    (live_session 0) [].

(** The month of a timestamp is [00], as a clock that was never set
    gives; [strptime] rejects it. *)
Definition month_zero (timestamp_str : string) : bool :=
  String.eqb (String.substring 5 2 timestamp_str) "00".

(** A display in UTC: the conversion raises on a month [00] and returns
    every other timestamp as it is. *)
Definition dated_local (timestamp_str target_timezone : string) : option string :=
  if month_zero timestamp_str then None else Some timestamp_str.

(** The table of the readings; a month [00] makes [strptime] raise. *)
Definition dated_table (readings : list Reading) : option DataFrame :=
  if existsb (fun r => month_zero (Timestamp r)) readings
  then None else plain_table readings.

(** A record stamped by a clock that was never set. *)
Definition unset_record : string :=
  "#1: 2000-00-00 00:00:00, 999, 141004265912, 24.86" +:+ PyStr.degC.

(** A device that answers the poll with that record in a block; the live
    view is on and two failures are counted. *)
Definition unset_clock_world : World :=
  mkWorld 7000 100
    (mkSerial true
       [ (7300, "---BEGIN_READINGS---" +:+ nl);
         (7310, unset_record +:+ nl);
         (7320, "---END_READINGS---" +:+ nl) ]
       [] [])
    (live_session 2) [].

(** 2025-03-09 02:00:00 on the clock of the page, in milliseconds: the
    start of the hour that daylight saving time skips in New York. *)
Definition GAP_START : Z := 1741485600000.

(** The conversion of the page for [America/New_York] around that night.
    Before 02:00 the offset is five hours (EST).  The times from 02:00
    to 03:00 do not exist: [localize(dt, is_dst=None)] raises
    [NonExistentTimeError] and the page localizes them with
    [is_dst=True], four hours (EDT), as [localize] does the times after
    them. *)
Definition spring_forward_epoch (tz : string) (t : Z) : Z :=
  if t <? GAP_START then (t + 18000000) / 1000 else (t + 14400000) / 1000.

(** A session in New York with the live view on since 01:59 of that
    night. *)
Definition gap_session : Session :=
  mkSession true (Some "/dev/ttyACM0") ThePort (Some []) None
    "America/New_York" false true (Some 1741485540000) 0 false None 0
    1741487400000 true false true.

(** The page at 02:30 on its clock, a device that stays silent. *)
Definition gap_world : World :=
  mkWorld 1741487400000 100 (mkSerial true [] [] []) gap_session [].

(** ** Durations *)

(** A computation takes at most [d] milliseconds, [d] given for the poll
    period, and leaves the poll period alone. *)
Definition lasts {A : Type} (d : Z -> Z) (m : M A) : Prop :=
  forall w, 0 <= tick w ->
    tick (snd (m w)) = tick w
    /\ now w <= now (snd (m w)) <= now w + d (tick w).

(** The longest a collection takes from its start: the hard timeout, one
    more poll and one read that times out. *)
Definition collect_limit (hard_timeout tick : Z) : Z :=
  hard_timeout + tick + READ_TIMEOUT.

(** The longest [send_command] takes: three attempts with two pauses and
    the plain exchange for a fast-turnaround command, the plain exchange
    for any other. *)
Definition send_command_limit (command : string) (tick : Z) : Z :=
  if S3Live.is_fast command
  then 3 * (WAKE_DELAY + 100 + collect_limit S3Live.fast_hard_timeout tick)
       + 2 * S3Live.RETRY_BACKOFF
       + (WAKE_DELAY + collect_limit (S3Live.plain_hard_timeout command) tick)
  else WAKE_DELAY + collect_limit (S3Live.plain_hard_timeout command) tick.

(** From [w], the run has ended in [w'] no later than [limit] after
    [start]. *)
Definition within (w : World) (start limit : Z) (w' : World) : Prop :=
  tick w' = tick w /\ now w <= now w' /\ now w' - start <= limit.

(** The pause after an attempt that is not the last. *)
Definition backoff_after (attempt max_retries : Z) : Z :=
  if attempt <? max_retries - 1 then S3Live.RETRY_BACKOFF else 0.

(** ** Connection tests *)

(** A computation that leaves the lines on their way to the port alone. *)
Definition keeps_rx {A : Type} (m : M A) : Prop :=
  forall w, rx (port (snd (m w))) = rx (port w).

(** A line [ACTIVE] that reached the port before the test is taken for
    the answer. *)
Definition stale_world : World :=
  mkWorld 1000 100 (mkSerial true [ (400, "ACTIVE" +:+ nl) ] [] [])
    witness_session [].

(** ** Lost connections *)

(** The session after the connection was given up. *)
Definition mark_lost (ss : Session) : Session :=
  put_serial_connection PyNone (put_connected_port None (put_connected false ss)).

(** Nothing was shown and the session is as it was. *)
Definition untouched (w w' : World) : Prop :=
  session w' = session w /\ ui w' = ui w.

(** One error was shown and the session was marked disconnected. *)
Definition lost (w w' : World) : Prop :=
  session w' = mark_lost (session w) /\ exists msg, ui w' = ui w ++ [StError msg].

(** A run that keeps the session, or gives the connection up and returns
    [none]; it does not ask for a rerun. *)
Definition gives_up {A : Type} (none : A) (m : M A) : Prop :=
  forall w,
    fst (m w) <> Raise RerunException
    /\ (untouched w (snd (m w)) \/ (lost w (snd (m w)) /\ fst (m w) = Ok none)).

(** The same, and no serial exception leaves the run. *)
Definition reports {A : Type} (none : A) (m : M A) : Prop :=
  forall w,
    (forall e, fst (m w) = Raise e -> e = OtherException)
    /\ (untouched w (snd (m w)) \/ (lost w (snd (m w)) /\ fst (m w) = Ok none)).

(** ** The end of a run *)

Section Ending.

Variable to_dataframe : list Reading -> option DataFrame.
Variable inp : S3Live.RunInput.

(** How a piece of the page may end: with a value, with the request for
    a rerun, or with the exception of a table that could not be built in
    a manual retrieval.  The poll period is left as it is. *)
Definition ends {A : Type} (w : World) (r : outcome A * World) : Prop :=
  tick (snd r) = tick w
  /\ match fst r with
     | Ok _ | Raise RerunException => True
     | Raise OtherException =>
         S3Live.in_retrieve_clicked inp = true
         /\ exists readings,
              to_dataframe readings = None
     | _ => False
     end.

(** A piece of the page that comes to an end, whatever the end. *)
Definition halts {A : Type} (w : World) (r : outcome A * World) : Prop :=
  tick (snd r) = tick w /\ fst r <> Diverge.

End Ending.

(** ** The table of the readings *)

Section Table.

Variable utc_to_local : string -> string -> option string.
Variable to_dataframe : list Reading -> option DataFrame.
Variable inp : S3Live.RunInput.

(** The stored table is kept, or it is replaced by the table of readings
    that were parsed from a response. *)
Definition table_step (w w' : World) : Prop :=
  last_df (session w') = last_df (session w)
  \/ exists response df,
       S3Live.parse_readings response <> []
       /\ to_dataframe
            (converted utc_to_local (S3Live.in_timezone inp)
               (S3Live.parse_readings response))
          = Some df
       /\ last_df (session w') = Some df.

Definition table_comp {A : Type} (m : M A) : Prop :=
  forall w, table_step w (snd (m w)).

End Table.

(** Session updates that leave the table alone. *)
Definition keeps_table (f : Session -> Session) : Prop :=
  forall ss, last_df (f ss) = last_df ss.

Close Scope Z_scope.

(** ** Debug logs *)

(** A call of one of the three loggers. *)
Inductive log_call : Type :=
| LogDebug (msg : string)
| LogSet (msg : string)
| LogGeneral (msg : string).

Definition run_log_call (l : Logs) (c : log_call) : Logs :=
  match c with
  | LogDebug msg => log_debug msg l
  | LogSet msg => log_set_debug msg l
  | LogGeneral msg => log_general_debug msg l
  end.

(** The messages that a sequence of calls sends to each log. *)
Definition debug_msgs (cs : list log_call) : list string :=
  omap (fun c => match c with LogDebug m => Some m | _ => None end) cs.
Definition set_msgs (cs : list log_call) : list string :=
  omap (fun c => match c with LogSet m => Some m | _ => None end) cs.
Definition general_msgs (cs : list log_call) : list string :=
  omap (fun c => match c with LogGeneral m => Some m | _ => None end) cs.

(** The last [n] elements of a list. *)
Definition last_n {A : Type} (n : nat) (l : list A) : list A :=
  skipn (length l - n) l.

(** ** Lines of a block *)

(** A text without a newline. *)
Definition one_line (s : string) : Prop :=
  all_chars (differs PyStr.newline) s = true.

(** What [collect_blocks] keeps: joined lines of the input that open no
    block. *)
Definition kept_line (l : string) : Prop :=
  one_line l /\ PyStr.contains BEGIN_READINGS l = false.

(** * Properties *)

(** ** Strings *)

#[local] Arguments String.append !s1 s2 : simpl nomatch.

Lemma string_app_nil_r (s : string) : s +:+ EmptyString = s.
Proof. induction s as [|c s IH]; simpl; [reflexivity | now rewrite IH]. Qed.

Lemma string_app_assoc (a b c : string) : (a +:+ b) +:+ c = a +:+ (b +:+ c).
Proof. induction a as [|x a IH]; simpl; [reflexivity | now rewrite IH]. Qed.

Lemma string_length_app (a b : string) :
  String.length (a +:+ b) = (String.length a + String.length b)%nat.
Proof. induction a as [|x a IH]; simpl; [reflexivity | now rewrite IH]. Qed.

Lemma string_app_eq_nil (a b : string) :
  a +:+ b = EmptyString -> a = EmptyString /\ b = EmptyString.
Proof. destruct a; simpl; [auto | discriminate]. Qed.

(** A string of blanks only strips to nothing from either side. *)
Lemma rstrip_nil_lstrip (s : string) :
  PyStr.rstrip s = EmptyString -> PyStr.lstrip s = EmptyString.
Proof.
  induction s as [|c s IH]; simpl; [reflexivity |].
  destruct (PyStr.rstrip s) eqn:Hr; [| discriminate].
  destruct (PyStr.isspace c); [intros _; now apply IH | discriminate].
Qed.

Lemma strip_nonblank_rstrip (s : string) :
  PyStr.strip s <> EmptyString -> PyStr.rstrip s <> EmptyString.
Proof.
  intros Hs Hr. apply Hs. unfold PyStr.strip.
  now rewrite (rstrip_nil_lstrip s Hr).
Qed.

(** Stripping on the right leaves a prefix alone when something is left
    after it. *)
Lemma rstrip_app (a b : string) :
  PyStr.rstrip b <> EmptyString ->
  PyStr.rstrip (a +:+ b) = a +:+ PyStr.rstrip b.
Proof.
  intros Hb. induction a as [|c a IH]; simpl; [reflexivity |].
  rewrite IH. destruct (a +:+ PyStr.rstrip b) eqn:E; [| reflexivity].
  apply string_app_eq_nil in E. tauto.
Qed.

(** ** Timing profiles *)

Lemma expect_range_prefix (rest : string) :
  PyStr.strip rest <> EmptyString ->
  S3Live.expect_range ("range " +:+ rest) = true.
Proof.
  intros Hrest. unfold S3Live.expect_range, PyStr.strip.
  change (PyStr.lstrip ("range " +:+ rest)) with ("range " +:+ rest).
  rewrite rstrip_app by now apply strip_nonblank_rstrip.
  unfold PyStr.startswith. simpl. now destruct (PyStr.rstrip rest).
Qed.

(** C7: the timing profiles of the collectors.  A range query is a
    command made of the prefix [range ] and a non-blank rest. *)
Theorem timing_profiles :
  (forall rest : string,
      PyStr.strip rest <> EmptyString ->
      S3Live.plain_quiet_period ("range " +:+ rest) = 1500%Z
      /\ S3Live.plain_hard_timeout ("range " +:+ rest) = 30000%Z)
  /\ (forall command : string,
         PyStr.startswith (PyStr.strip command) "range " = false ->
         S3Live.plain_quiet_period command = 600%Z
         /\ S3Live.plain_hard_timeout command = 20000%Z)
  /\ (forall command : string,
         In command S3Live.fast_commands ->
         S3Live.is_fast command = true
         /\ S3Live.fast_quiet_period = 600%Z
         /\ S3Live.fast_hard_timeout = 10000%Z).
Proof.
  split; [| split].
  - intros rest Hrest.
    unfold S3Live.plain_quiet_period, S3Live.plain_hard_timeout.
    now rewrite (expect_range_prefix rest Hrest).
  - intros command Hcmd.
    unfold S3Live.plain_quiet_period, S3Live.plain_hard_timeout,
      S3Live.expect_range.
    now rewrite Hcmd.
  - intros command Hin. split; [| split; reflexivity].
    unfold S3Live.is_fast. apply existsb_exists. exists command.
    split; [exact Hin | apply String.eqb_refl].
Qed.

Lemma timing_profiles_witness :
  (S3Live.plain_quiet_period "range 1753228800 1753315200" = 1500%Z
   /\ S3Live.plain_hard_timeout "range 1753228800 1753315200" = 30000%Z)
  /\ (S3Live.plain_quiet_period "get ssid" = 600%Z
      /\ S3Live.plain_hard_timeout "get ssid" = 20000%Z)
  /\ (S3Live.is_fast "status" = true
      /\ S3Live.fast_quiet_period = 600%Z
      /\ S3Live.fast_hard_timeout = 10000%Z).
Proof.
  destruct timing_profiles as (Hrange & Hplain & Hfast).
  split; [| split].
  - apply (Hrange "1753228800 1753315200"). vm_compute. discriminate.
  - apply (Hplain "get ssid"). vm_compute. reflexivity.
  - apply (Hfast "status"). vm_compute. tauto.
Defined.

(** ** Reasoning about link computations *)

Lemma bind_run {A B : Type} (m : M A) (k : A -> M B) (w : World) :
  bind m k w =
  match m w with
  | (Ok a, w1) => k a w1
  | (Raise e, w1) => (Raise e, w1)
  | (Diverge, w1) => (Diverge, w1)
  end.
Proof. reflexivity. Qed.

Lemma link_step_refl (P : string -> Prop) (w : World) : link_step P w w.
Proof.
  unfold link_step. repeat split; try reflexivity; try lia; auto.
  exists []. split; [now rewrite app_nil_r | constructor].
Qed.

Lemma link_step_trans (P : string -> Prop) (w1 w2 w3 : World) :
  link_step P w1 w2 -> link_step P w2 w3 -> link_step P w1 w3.
Proof.
  intros (Ht & Hn & Hs & Hu & Ho & Hf & l & Hl & HP)
         (Ht' & Hn' & Hs' & Hu' & Ho' & Hf' & l' & Hl' & HP').
  unfold link_step. repeat split; try congruence.
  - intros Hpos. rewrite Ht in Hn'. specialize (Hn Hpos). specialize (Hn' Hpos). lia.
  - auto.
  - exists (l ++ l'). split; [rewrite Hl', Hl; now rewrite app_assoc |].
    apply Forall_app; auto.
Qed.

Lemma link_step_weaken (P Q : string -> Prop) (w w' : World) :
  (forall x, P x -> Q x) -> link_step P w w' -> link_step Q w w'.
Proof.
  intros HPQ (Ht & Hn & Hs & Hu & Ho & Hf & l & Hl & HP).
  unfold link_step. repeat split; auto.
  exists l. split; [exact Hl |]. eapply Forall_impl; eauto.
Qed.

Lemma link_ret {A : Type} (P : string -> Prop) (a : A) : link_comp P (ret a).
Proof. intros w. split; [apply link_step_refl | discriminate]. Qed.

Lemma link_raise {A : Type} (P : string -> Prop) (e : exn) :
  e <> RerunException -> link_comp P (@raise A e).
Proof. intros He w. split; [apply link_step_refl | simpl; congruence]. Qed.

Lemma link_diverge {A : Type} (P : string -> Prop) : link_comp P (@diverge A).
Proof. intros w. split; [apply link_step_refl | discriminate]. Qed.

Lemma link_bind {A B : Type} (P : string -> Prop) (m : M A) (k : A -> M B) :
  link_comp P m -> (forall a, link_comp P (k a)) -> link_comp P (bind m k).
Proof.
  intros Hm Hk w. rewrite bind_run.
  destruct (Hm w) as [Hs Hr]. destruct (m w) as [[a|e|] w1]; simpl in *.
  - destruct (Hk a w1) as [Hs' Hr']. split; [| exact Hr'].
    eapply link_step_trans; eauto.
  - split; [assumption |]. intros Heq. apply Hr. congruence.
  - split; [assumption | discriminate].
Qed.

Lemma link_try_except {A : Type} (P : string -> Prop) (m : M A) (h : exn -> M A) :
  link_comp P m -> (forall e, link_comp P (h e)) -> link_comp P (try_except m h).
Proof.
  intros Hm Hh w. unfold try_except.
  destruct (Hm w) as [Hs Hr]. destruct (m w) as [[a|e|] w1]; simpl in *.
  - split; [assumption | discriminate].
  - destruct (is_Exception e) eqn:He.
    + destruct (Hh e w1) as [Hs' Hr']. split; [| exact Hr'].
      eapply link_step_trans; eauto.
    + split; assumption.
  - split; [assumption | discriminate].
Qed.

Lemma link_weaken {A : Type} (P Q : string -> Prop) (m : M A) :
  (forall x, P x -> Q x) -> link_comp P m -> link_comp Q m.
Proof.
  intros HPQ Hm w. destruct (Hm w) as [Hs Hr]. split; [| exact Hr].
  eapply link_step_weaken; eauto.
Qed.

Lemma link_gets {A : Type} (P : string -> Prop) (f : World -> A) :
  link_comp P (gets f).
Proof. intros w. split; [apply link_step_refl | discriminate]. Qed.

Lemma link_time_time (P : string -> Prop) : link_comp P time_time.
Proof. apply link_gets. Qed.

Lemma link_step_frame (P : string -> Prop) (w w' : World) :
  tick w' = tick w -> ((0 <= tick w)%Z -> (now w <= now w')%Z) ->
  session w' = session w -> ui w' = ui w ->
  is_open (port w') = is_open (port w) ->
  faults (port w') = faults (port w) -> tx (port w') = tx (port w) ->
  link_step P w w'.
Proof.
  intros Ht Hn Hs Hu Ho Hf Hx. unfold link_step. repeat split; auto.
  - congruence.
  - exists []. split; [now rewrite app_nil_r | constructor].
Qed.

Lemma link_time_sleep (P : string -> Prop) (d : Z) :
  (0 <= d)%Z -> link_comp P (time_sleep d).
Proof.
  intros Hd w. split; [| discriminate].
  apply link_step_frame; simpl; auto; lia.
Qed.

Lemma link_io_guard (P : string -> Prop) (ser : serial_ref) :
  link_comp P (io_guard ser).
Proof.
  intros w. unfold io_guard. destruct ser.
  - split; [apply link_step_refl | discriminate].
  - assert (Hstep : link_step P w
              (set_port (set_faults (tl (faults (port w))) (port w)) w)).
    { unfold link_step; simpl. repeat split; auto; try lia.
      - intros ->. reflexivity.
      - exists []. split; [now rewrite app_nil_r | constructor]. }
    destruct (hd NoFault (faults (port w))); simpl;
      [destruct (is_open (port w)) |..]; (split; [exact Hstep | discriminate]).
Qed.

Lemma link_ser_write (P : string -> Prop) (ser : serial_ref) (data : string) :
  P data -> link_comp P (ser_write ser data).
Proof.
  intros Hd. unfold ser_write. apply link_bind; [apply link_io_guard |].
  intros _ w. split; [| discriminate].
  unfold link_step; simpl. repeat split; auto; try lia.
  exists [data]. split; [reflexivity | now constructor].
Qed.

Lemma link_ser_flush (P : string -> Prop) (ser : serial_ref) :
  link_comp P (ser_flush ser).
Proof. apply link_io_guard. Qed.

Lemma link_ser_reset (P : string -> Prop) (ser : serial_ref) :
  link_comp P (ser_reset_input_buffer ser).
Proof.
  unfold ser_reset_input_buffer. apply link_bind; [apply link_io_guard |].
  intros _ w. split; [| discriminate].
  apply link_step_frame; simpl; auto; lia.
Qed.

Lemma link_ser_in_waiting (P : string -> Prop) (ser : serial_ref) :
  link_comp P (ser_in_waiting ser).
Proof.
  unfold ser_in_waiting. apply link_bind; [apply link_io_guard |].
  intros _. apply link_bind; [| intros _; apply link_gets].
  intros w. split; [| discriminate].
  apply link_step_frame; simpl; auto; lia.
Qed.

Lemma link_ser_readline (P : string -> Prop) (ser : serial_ref) :
  link_comp P (ser_readline ser).
Proof.
  unfold ser_readline. apply link_bind; [apply link_io_guard |].
  intros _ w.
  assert (Hlate : link_step P w (set_now (now w + READ_TIMEOUT) w)).
  { apply link_step_frame; simpl; auto. unfold READ_TIMEOUT. lia. }
  destruct (rx (port w)) as [|e rest]; simpl; [split; [exact Hlate | discriminate] |].
  destruct (arrived (now w) e); simpl; (split; [| discriminate]); [| exact Hlate].
  apply link_step_frame; simpl; auto; lia.
Qed.

Lemma link_is_serial_valid (P : string -> Prop) (ser : serial_ref) :
  link_comp P (S3Live.is_serial_valid ser).
Proof. destruct ser; [apply link_ret | apply link_gets]. Qed.

Ltac link_rule :=
  lazymatch goal with
  | |- link_comp _ (bind _ _) => apply link_bind; [| intros ?]
  | |- link_comp _ (ret _) => apply link_ret
  | |- link_comp _ diverge => apply link_diverge
  | |- link_comp _ (gets _) => apply link_gets
  | |- link_comp _ (try_except _ _) => apply link_try_except; [| intros ?]
  | |- link_comp _ time_time => apply link_time_time
  | |- link_comp _ (time_sleep _) => apply link_time_sleep; [vm_compute; discriminate]
  | |- link_comp _ (ser_write _ _) => apply link_ser_write
  | |- link_comp _ (ser_flush _) => apply link_ser_flush
  | |- link_comp _ (ser_reset_input_buffer _) => apply link_ser_reset
  | |- link_comp _ (ser_in_waiting _) => apply link_ser_in_waiting
  | |- link_comp _ (ser_readline _) => apply link_ser_readline
  | |- link_comp _ (S3Live.is_serial_valid _) => apply link_is_serial_valid
  | |- link_comp _ (raise ?e) => apply link_raise; discriminate
  | |- link_comp _ (if ?b then _ else _) => destruct b
  | |- link_comp _ (match ?x with _ => _ end) => destruct x
  end.

Ltac link_auto := repeat link_rule.

Lemma link_wake_serial (P : string -> Prop) (ser : serial_ref) (d : Z) :
  P nl -> (0 <= d)%Z -> link_comp P (S3Live._wake_serial ser d).
Proof.
  intros Hnl Hd. unfold S3Live._wake_serial.
  apply link_try_except.
  - link_auto; auto. now apply link_time_sleep.
  - intros e. destruct e; simpl; link_auto.
Qed.

Lemma link_fast_collect (P : string -> Prop) (fuel : nat) (ser : serial_ref)
    (start : Z) (response : string) (any : bool) (last : option Z) :
  link_comp P (S3Live.fast_collect fuel ser start response any last).
Proof.
  revert response any last.
  induction fuel as [|fuel IH]; intros response any last; simpl.
  - apply link_diverge.
  - link_auto; apply IH.
Qed.

Lemma link_plain_collect (P : string -> Prop) (fuel : nat) (ser : serial_ref)
    (command : string) (start : Z) (response : string) (any : bool)
    (last : option Z) :
  link_comp P (S3Live.plain_collect fuel ser command start response any last).
Proof.
  revert response any last.
  induction fuel as [|fuel IH]; intros response any last; simpl.
  - apply link_diverge.
  - link_auto; apply IH.
Qed.

Lemma link_wake_and_send_attempt (fuel : nat) (ser : serial_ref)
    (command : string) (d : Z) :
  (0 <= d)%Z ->
  link_comp (wire command) (S3Live.wake_and_send_attempt fuel ser command d).
Proof.
  intros Hd. unfold S3Live.wake_and_send_attempt.
  link_auto; try (now left); try (now right).
  - now apply link_time_sleep.
  - apply link_fast_collect.
Qed.

Lemma link_wake_and_send_iteration (fuel : nat) (ser : serial_ref)
    (command : string) (d max_retries attempt : Z) :
  (0 <= d)%Z ->
  link_comp (wire command)
    (S3Live.wake_and_send_iteration fuel ser command d max_retries attempt).
Proof.
  intros Hd. unfold S3Live.wake_and_send_iteration.
  apply link_try_except.
  - destruct ser; [apply link_ret |].
    apply link_bind; [now apply link_wake_and_send_attempt |].
    intros cr. link_auto.
  - intros e. link_auto.
Qed.

Lemma link_wake_and_send_from (n fuel : nat) (ser : serial_ref)
    (command : string) (d max_retries attempt : Z) :
  (0 <= d)%Z ->
  link_comp (wire command)
    (S3Live.wake_and_send_from n fuel ser command d max_retries attempt).
Proof.
  intros Hd. revert attempt. induction n as [|n IH]; intros attempt; simpl.
  - apply link_ret.
  - apply link_bind; [now apply link_wake_and_send_iteration |].
    intros [s|]; [apply link_ret | apply IH].
Qed.

Lemma link_plain_exchange (fuel : nat) (ser : serial_ref) (command : string) :
  link_comp (wire command) (S3Live.plain_exchange fuel ser command).
Proof.
  unfold S3Live.plain_exchange, S3Live.wake_then_send.
  link_auto; try (now right).
  - apply link_wake_serial; [now left | vm_compute; discriminate].
  - apply link_plain_collect.
Qed.

Lemma link_send_command (fuel : nat) (ser : serial_ref) (command : string) :
  link_comp (wire command) (S3Live.send_command fuel ser command).
Proof.
  unfold S3Live.send_command, S3Live.send_command_body.
  apply link_try_except; [| intros e; apply link_ret].
  destruct (S3Live.is_fast command).
  - apply link_bind.
    + apply link_wake_and_send_from. vm_compute; discriminate.
    + intros r. destruct (S3Live.response_truthy r); [apply link_ret |].
      apply link_bind; [apply link_plain_exchange | intros cr; apply link_ret].
  - apply link_bind; [apply link_plain_exchange | intros cr; apply link_ret].
Qed.

(** ** Termination and fault-free runs *)

Open Scope Z_scope.

Lemma link_step_clean (P : string -> Prop) (w w' : World) :
  link_step P w w' -> clean w -> clean w'.
Proof.
  intros (_ & _ & _ & _ & Ho & Hf & _) [Hc1 Hc2]. split; [auto | congruence].
Qed.

Lemma link_step_fuel (P : string -> Prop) (fuel : nat) (w w' : World) :
  link_step P w w' -> enough_fuel fuel w -> enough_fuel fuel w'.
Proof. intros (Ht & _) [H1 H2]. unfold enough_fuel. rewrite Ht. auto. Qed.

Lemma io_guard_inv (w : World) :
  match io_guard ThePort w with
  | (Ok _, w') =>
      now w' = now w /\ tick w' = tick w /\ rx (port w') = rx (port w)
      /\ (clean w -> clean w')
  | (Raise e, _) => ~ clean w
  | (Diverge, _) => False
  end.
Proof.
  unfold io_guard, clean.
  destruct (faults (port w)) as [|f fs] eqn:Hf; simpl.
  - destruct (is_open (port w)) eqn:Ho; simpl; [auto | intros [_ ?]; discriminate].
  - destruct f; simpl; try (intros [? _]; discriminate).
    destruct (is_open (port w)) eqn:Ho; simpl.
    + split; [reflexivity | split; [reflexivity | split; [reflexivity |]]].
      intros [? _]; discriminate.
    + intros [? _]; discriminate.
Qed.

Lemma ser_in_waiting_inv (w : World) :
  match ser_in_waiting ThePort w with
  | (Ok b, w') =>
      now w' = now w + tick w /\ tick w' = tick w
      /\ rx (port w') = rx (port w)
      /\ b = match rx (port w) with
             | e :: _ => arrived (now w + tick w) e
             | [] => false
             end
      /\ (clean w -> clean w')
  | (Raise e, _) => ~ clean w
  | (Diverge, _) => False
  end.
Proof.
  unfold ser_in_waiting. rewrite bind_run.
  pose proof (io_guard_inv w) as H.
  destruct (io_guard ThePort w) as [[u|e|] w1]; try assumption.
  destruct H as (Hn & Ht & Hr & Hc). cbn.
  rewrite Hn, Ht, Hr.
  split; [reflexivity | split; [reflexivity | split; [reflexivity |]]].
  split; [reflexivity |]. intros Hcl. exact (Hc Hcl).
Qed.

Lemma ser_readline_inv (w : World) :
  match ser_readline ThePort w with
  | (Ok raw, w') =>
      now w <= now w' /\ tick w' = tick w /\ (clean w -> clean w')
      /\ (forall e rest, rx (port w) = e :: rest -> arrived (now w) e = true ->
          raw = snd e /\ rx (port w') = rest /\ now w' = now w)
  | (Raise e, _) => ~ clean w
  | (Diverge, _) => False
  end.
Proof.
  unfold ser_readline. rewrite bind_run.
  pose proof (io_guard_inv w) as H.
  destruct (io_guard ThePort w) as [[u|e|] w1]; try assumption.
  destruct H as (Hn & Ht & Hr & Hc). rewrite Hr, Hn.
  assert (Hc' : forall t, clean w -> clean (set_now t w1)) by (intros t Hcl; exact (Hc Hcl)).
  destruct (rx (port w)) as [|e rest]; cbn.
  - unfold READ_TIMEOUT. split; [lia |]. split; [exact Ht |].
    split; [apply Hc' |]. discriminate.
  - destruct (arrived (now w) e) eqn:Ha; cbn.
    + split; [lia |]. split; [exact Ht |]. split; [intros Hcl; exact (Hc Hcl) |].
      intros e' rest' Heq _. inversion Heq; subst. auto.
    + unfold READ_TIMEOUT. split; [lia |]. split; [exact Ht |].
      split; [apply Hc' |]. intros e' rest' Heq Ha'. congruence.
Qed.

Lemma settles_Ok {A : Type} (w : World) (a : A) : settles w (Ok a).
Proof. split; [discriminate | intros _ e; discriminate]. Qed.

Lemma settles_faulty {A : Type} (w : World) (e : exn) :
  ~ clean w -> settles w (@Raise A e).
Proof. intros Hc. split; [discriminate | intros H; contradiction]. Qed.

Lemma settles_later {A : Type} (w w' : World) (r : outcome A) :
  (clean w -> clean w') -> settles w' r -> settles w r.
Proof. intros Hc [H1 H2]. split; auto. Qed.

#[local] Hint Resolve settles_Ok settles_faulty : core.

(** The loop of [send_command] ends before its fuel: every iteration
    takes one tick, and the hard timeout stops it. *)
Lemma plain_collect_settles (ser : serial_ref) (command : string) (start : Z)
    (fuel : nat) :
  forall (response : string) (any : bool) (last : option Z) (w : World),
  ser = ThePort ->
  0 < tick w -> now w - start <= S3Live.plain_hard_timeout command ->
  start + S3Live.plain_hard_timeout command - now w < Z.of_nat fuel * tick w ->
  settles w (fst (S3Live.plain_collect fuel ser command start response any last w)).
Proof.
  induction fuel as [|fuel IH]; intros response any last w -> Htick Hin Hfuel.
  - simpl in Hfuel. lia.
  - cbn [S3Live.plain_collect]. rewrite bind_run.
    pose proof (ser_in_waiting_inv w) as Hw.
    destruct (ser_in_waiting ThePort w) as [[b|e|] w1]; [| simpl; auto | contradiction].
    destruct Hw as (Hn1 & Ht1 & _ & _ & Hc1). apply (settles_later w w1); [exact Hc1 |].
    destruct b.
    + rewrite !bind_run.
      pose proof (ser_readline_inv w1) as Hr.
      destruct (ser_readline ThePort w1) as [[raw|e|] w2]; [| simpl; auto | contradiction].
      destruct Hr as (Hn2 & Ht2 & Hc2 & _). apply (settles_later w1 w2); [exact Hc2 |].
      unfold time_time, gets, ret, bind at 1.
      destruct (PyStr.truthy (PyStr.strip (decode_ignore raw)));
        destruct (S3Live.has_end_marker command (PyStr.strip (decode_ignore raw)));
        cbn [fst snd]; try (simpl; now auto);
        unfold bind, time_time, gets, ret; cbn [fst snd];
        (destruct (S3Live.quiet_elapsed _ _ _ _); [simpl; now auto |]);
        (destruct (now w2 - start >? _) eqn:Hh; [simpl; now auto |]);
        apply IH; auto; lia.
    + unfold bind, time_time, gets, ret. cbn [fst snd].
      destruct (S3Live.quiet_elapsed _ _ _ _); [simpl; now auto |].
      destruct (now w1 - start >? _) eqn:Hh; [simpl; now auto |].
      apply IH; auto; lia.
Qed.

(** The same for the loop of [_wake_and_send_command]. *)
Lemma fast_collect_settles (ser : serial_ref) (start : Z) (fuel : nat) :
  forall (response : string) (any : bool) (last : option Z) (w : World),
  ser = ThePort ->
  0 < tick w -> now w - start <= S3Live.fast_hard_timeout ->
  start + S3Live.fast_hard_timeout - now w < Z.of_nat fuel * tick w ->
  settles w (fst (S3Live.fast_collect fuel ser start response any last w)).
Proof.
  induction fuel as [|fuel IH]; intros response any last w -> Htick Hin Hfuel.
  - simpl in Hfuel. lia.
  - cbn [S3Live.fast_collect]. rewrite bind_run.
    pose proof (ser_in_waiting_inv w) as Hw.
    destruct (ser_in_waiting ThePort w) as [[b|e|] w1]; [| simpl; auto | contradiction].
    destruct Hw as (Hn1 & Ht1 & _ & _ & Hc1). apply (settles_later w w1); [exact Hc1 |].
    destruct b.
    + rewrite !bind_run.
      pose proof (ser_readline_inv w1) as Hr.
      destruct (ser_readline ThePort w1) as [[raw|e|] w2]; [| simpl; auto | contradiction].
      destruct Hr as (Hn2 & Ht2 & Hc2 & _). apply (settles_later w1 w2); [exact Hc2 |].
      unfold time_time, gets, ret, bind at 1.
      destruct (PyStr.truthy (PyStr.strip (decode_ignore raw)));
        cbn [fst snd]; unfold bind, time_time, gets, ret; cbn [fst snd];
        (destruct (S3Live.quiet_elapsed _ _ _ _); [simpl; now auto |]);
        cbn [fst snd];
        (destruct (now w2 - start >? _) eqn:Hh; [simpl; now auto |]);
        apply IH; auto; lia.
    + unfold bind, time_time, gets, ret. cbn [fst snd].
      destruct (now w1 - start >? _) eqn:Hh; [simpl; now auto |].
      apply IH; auto; lia.
Qed.

Lemma link_any {A : Type} (P : string -> Prop) (m : M A) :
  link_comp P m -> link_comp anything m.
Proof. apply link_weaken. intros x _. exact I. Qed.

Lemma behaves_ret {A : Type} (fuel : nat) (a : A) : behaves fuel (ret a).
Proof. intros w _. apply settles_Ok. Qed.

Lemma behaves_gets {A : Type} (fuel : nat) (f : World -> A) : behaves fuel (gets f).
Proof. intros w _. apply settles_Ok. Qed.

Lemma behaves_time_sleep (fuel : nat) (d : Z) : behaves fuel (time_sleep d).
Proof. intros w _. apply settles_Ok. Qed.

Lemma behaves_bind {A B : Type} (fuel : nat) (m : M A) (k : A -> M B) :
  link_comp anything m -> behaves fuel m -> (forall a, behaves fuel (k a)) ->
  behaves fuel (bind m k).
Proof.
  intros Hl Hm Hk w Hf. rewrite bind_run.
  destruct (Hl w) as [Hs _]. specialize (Hm w Hf).
  destruct (m w) as [[a|e|] w1]; simpl in *.
  - apply (settles_later w w1); [now apply (link_step_clean anything) |].
    apply Hk. now apply (link_step_fuel anything fuel w).
  - destruct Hm as [_ Hm]. split; [discriminate |].
    intros Hc e' _. now apply (Hm Hc e).
  - destruct Hm as [Hm _]. now contradiction Hm.
Qed.

Lemma behaves_try_except {A : Type} (fuel : nat) (m : M A) (h : exn -> M A) :
  link_comp anything m -> behaves fuel m -> (forall e, behaves fuel (h e)) ->
  behaves fuel (try_except m h).
Proof.
  intros Hl Hm Hh w Hf. unfold try_except.
  destruct (Hl w) as [Hs _]. specialize (Hm w Hf).
  destruct (m w) as [[a|e|] w1]; simpl in *.
  - apply settles_Ok.
  - destruct (is_Exception e).
    + apply (settles_later w w1); [now apply (link_step_clean anything) |].
      apply Hh. now apply (link_step_fuel anything fuel w).
    + exact Hm.
  - exact Hm.
Qed.

Lemma behaves_io_guard (fuel : nat) : behaves fuel (io_guard ThePort).
Proof.
  intros w _. pose proof (io_guard_inv w) as H.
  destruct (io_guard ThePort w) as [[u|e|] w1]; simpl; auto. contradiction.
Qed.

Lemma behaves_ser_write (fuel : nat) (data : string) :
  behaves fuel (ser_write ThePort data).
Proof.
  unfold ser_write. apply behaves_bind.
  - apply link_io_guard.
  - apply behaves_io_guard.
  - intros _ w _. apply settles_Ok.
Qed.

Lemma behaves_ser_flush (fuel : nat) : behaves fuel (ser_flush ThePort).
Proof. apply behaves_io_guard. Qed.

Lemma behaves_ser_reset (fuel : nat) :
  behaves fuel (ser_reset_input_buffer ThePort).
Proof.
  unfold ser_reset_input_buffer. apply behaves_bind.
  - apply link_io_guard.
  - apply behaves_io_guard.
  - intros _ w _. apply settles_Ok.
Qed.

Lemma behaves_wake_serial (fuel : nat) (ser : serial_ref) (d : Z) :
  0 <= d -> behaves fuel (S3Live._wake_serial ser d).
Proof.
  intros Hd. unfold S3Live._wake_serial. destruct ser.
  - intros w _. apply settles_Ok.
  - intros w Hf. unfold try_except, S3Live.is_serial_valid.
    rewrite bind_run. cbn [gets].
    destruct (is_open (port w)) eqn:Ho; cbn [negb]; [| apply settles_Ok].
    assert (Hb : behaves fuel
                   (ser_write ThePort nl >> ser_flush ThePort >> time_sleep d)).
    { apply behaves_bind; [apply link_ser_write; exact I | apply behaves_ser_write |].
      intros _. apply behaves_bind;
        [apply link_ser_flush | apply behaves_ser_flush |].
      intros _. apply behaves_time_sleep. }
    specialize (Hb w Hf).
    destruct ((ser_write ThePort nl >> ser_flush ThePort >> time_sleep d) w)
      as [[u|e|] w1]; simpl in *; auto.
    destruct Hb as [_ Hb].
    assert (Hnc : ~ clean w) by (intros Hc; now apply (Hb Hc e)).
    destruct e; simpl; auto.
Qed.

Lemma behaves_timed_plain_collect (fuel : nat) (command : string) :
  behaves fuel
    (let* start_time := time_time in
     S3Live.plain_collect fuel ThePort command start_time EmptyString false None).
Proof.
  intros w [Htick Hfuel]. unfold bind, time_time, gets.
  apply plain_collect_settles; auto.
  - unfold S3Live.plain_hard_timeout. destruct (S3Live.expect_range command); lia.
  - unfold S3Live.plain_hard_timeout. destruct (S3Live.expect_range command); lia.
Qed.

Lemma behaves_timed_fast_collect (fuel : nat) :
  behaves fuel
    (let* start_time := time_time in
     S3Live.fast_collect fuel ThePort start_time EmptyString false None).
Proof.
  intros w [Htick Hfuel]. unfold bind, time_time, gets.
  apply fast_collect_settles; auto; unfold S3Live.fast_hard_timeout; lia.
Qed.

Lemma behaves_wake_and_send_attempt (fuel : nat) (command : string) (d : Z) :
  0 <= d -> behaves fuel (S3Live.wake_and_send_attempt fuel ThePort command d).
Proof.
  intros Hd. unfold S3Live.wake_and_send_attempt.
  apply behaves_bind; [apply link_ser_write; exact I | apply behaves_ser_write |].
  intros _. apply behaves_bind; [apply link_ser_flush | apply behaves_ser_flush |].
  intros _. apply behaves_bind;
    [now apply link_time_sleep | apply behaves_time_sleep |].
  intros _. apply behaves_bind; [apply link_ser_reset | apply behaves_ser_reset |].
  intros _. apply behaves_bind; [apply link_ser_write; exact I | apply behaves_ser_write |].
  intros _. apply behaves_bind; [apply link_ser_flush | apply behaves_ser_flush |].
  intros _. apply behaves_bind;
    [apply link_time_sleep; lia | apply behaves_time_sleep |].
  intros _. apply behaves_timed_fast_collect.
Qed.

Lemma behaves_plain_exchange (fuel : nat) (command : string) :
  behaves fuel (S3Live.plain_exchange fuel ThePort command).
Proof.
  unfold S3Live.plain_exchange, S3Live.wake_then_send.
  apply behaves_bind.
  - link_auto; try exact I.
    apply link_wake_serial; [exact I | vm_compute; discriminate].
  - apply behaves_bind;
      [apply link_wake_serial; [exact I | vm_compute; discriminate]
      | apply behaves_wake_serial; vm_compute; discriminate |].
    intros _. apply behaves_bind; [apply link_ser_reset | apply behaves_ser_reset |].
    intros _. apply behaves_bind;
      [apply link_ser_write; exact I | apply behaves_ser_write |].
    intros _. apply behaves_ser_flush.
  - intros _. apply behaves_timed_plain_collect.
Qed.

(** One iteration of the retry loop always comes back with a decision,
    and asks for another attempt only when one is left. *)
Lemma wake_and_send_iteration_decides (fuel : nat) (ser : serial_ref)
    (command : string) (d max_retries attempt : Z) (w : World) :
  0 <= d -> enough_fuel fuel w ->
  exists r w',
    S3Live.wake_and_send_iteration fuel ser command d max_retries attempt w
    = (Ok r, w')
    /\ enough_fuel fuel w'
    /\ (r = S3Live.NextAttempt -> attempt < max_retries - 1)
    /\ ((ser = PyNone
         \/ exists e, fst (S3Live.wake_and_send_attempt fuel ser command d w) = Raise e) ->
        r = S3Live.NextAttempt \/ r = S3Live.Return EmptyString).
Proof.
  intros Hd Hf. unfold S3Live.wake_and_send_iteration, try_except.
  destruct ser.
  - exists (S3Live.Return EmptyString), w. cbn.
    split; [reflexivity |]. split; [exact Hf |].
    split; [intros H; discriminate H | auto].
  - rewrite bind_run.
    destruct (link_wake_and_send_attempt fuel ThePort command d Hd w) as [Hs Hr].
    pose proof (behaves_wake_and_send_attempt fuel command d Hd w Hf) as [Hnd _].
    destruct (S3Live.wake_and_send_attempt fuel ThePort command d w)
      as [[cr|e|] w1]; simpl in *; [| | contradiction].
    + destruct (PyStr.truthy (PyStr.strip (fst cr))).
      * eexists _, w1. cbn. split; [reflexivity |].
        split; [eapply link_step_fuel; eauto |].
        split; [discriminate |].
        intros [Hx | [e He]]; [discriminate Hx | discriminate He].
      * destruct (attempt <? max_retries - 1) eqn:Hlt; cbn.
        -- eexists _, _. split; [reflexivity |].
           split; [| split; [intros _; lia | auto]].
           destruct Hf as [Hf1 Hf2]. destruct Hs as (Ht & _).
           unfold enough_fuel; cbn. rewrite Ht. auto.
        -- eexists _, w1. split; [reflexivity |].
           split; [eapply link_step_fuel; eauto |].
           split; [discriminate | auto].
    + assert (He : is_Exception e = true).
      { destruct e; try reflexivity. now contradiction Hr. }
      rewrite He.
      destruct (attempt <? max_retries - 1) eqn:Hlt; cbn.
      * eexists _, _. split; [reflexivity |].
        split; [| split; [intros _; lia | auto]].
        destruct Hf as [Hf1 Hf2]. destruct Hs as (Ht & _).
        unfold enough_fuel; cbn. rewrite Ht. auto.
      * eexists _, w1. split; [reflexivity |].
        split; [eapply link_step_fuel; eauto |].
        split; [discriminate | auto].
Qed.

(** The retry loop returns a string as soon as it has at least one
    iteration. *)
Lemma wake_and_send_from_returns (fuel : nat) (ser : serial_ref)
    (command : string) (d max_retries : Z) (n : nat) :
  forall (attempt : Z) (w : World),
  0 <= d -> enough_fuel fuel w -> (1 <= n)%nat ->
  attempt + Z.of_nat n = max_retries ->
  exists s w',
    S3Live.wake_and_send_from n fuel ser command d max_retries attempt w
    = (Ok (Some s), w').
Proof.
  induction n as [|n IH]; intros attempt w Hd Hf Hn Hsum; [lia |].
  cbn [S3Live.wake_and_send_from]. rewrite bind_run.
  destruct (wake_and_send_iteration_decides fuel ser command d max_retries
              attempt w Hd Hf) as (r & w1 & Hrun & Hf1 & Hnext & _).
  rewrite Hrun. destruct r as [s|].
  - exists s, w1. reflexivity.
  - specialize (Hnext eq_refl). apply IH; auto; lia.
Qed.

Lemma link_send_command_body (fuel : nat) (ser : serial_ref) (command : string) :
  link_comp (wire command) (S3Live.send_command_body fuel ser command).
Proof.
  unfold S3Live.send_command_body.
  destruct (S3Live.is_fast command).
  - apply link_bind.
    + apply link_wake_and_send_from. vm_compute; discriminate.
    + intros r. destruct (S3Live.response_truthy r); [apply link_ret |].
      apply link_bind; [apply link_plain_exchange | intros cr; apply link_ret].
  - apply link_bind; [apply link_plain_exchange | intros cr; apply link_ret].
Qed.

Lemma send_command_body_no_port (fuel : nat) (command : string) (w : World) :
  S3Live.send_command_body fuel PyNone command w = (Raise AttributeError, w).
Proof.
  unfold S3Live.send_command_body.
  destruct (S3Live.is_fast command); reflexivity.
Qed.

Lemma behaves_send_command_body (fuel : nat) (command : string) :
  behaves fuel (S3Live.send_command_body fuel ThePort command).
Proof.
  unfold S3Live.send_command_body.
  assert (Hplain : behaves fuel
            (let* cr := S3Live.plain_exchange fuel ThePort command in
             ret (PyStr.strip (fst cr)))).
  { apply behaves_bind;
      [eapply link_any; apply link_plain_exchange
      | apply behaves_plain_exchange | intros cr; apply behaves_ret]. }
  destruct (S3Live.is_fast command); [| exact Hplain].
  apply behaves_bind.
  - eapply link_any. apply link_wake_and_send_from. vm_compute; discriminate.
  - intros w Hf.
    destruct (wake_and_send_from_returns fuel ThePort command WAKE_DELAY 3
                (Z.to_nat 3) 0 w) as (s & w' & Hrun);
      [vm_compute; discriminate | exact Hf | vm_compute; lia | reflexivity |].
    unfold S3Live._wake_and_send_command. rewrite Hrun. apply settles_Ok.
  - intros r. destruct (S3Live.response_truthy r); [apply behaves_ret | exact Hplain].
Qed.

(** [send_command] always returns a string. *)
Lemma send_command_returns (fuel : nat) (ser : serial_ref) (command : string)
    (w : World) :
  enough_fuel fuel w ->
  exists s w', S3Live.send_command fuel ser command w = (Ok s, w').
Proof.
  intros Hf. unfold S3Live.send_command, try_except.
  destruct ser.
  - rewrite send_command_body_no_port. cbn. eauto.
  - destruct (link_send_command_body fuel ThePort command w) as [_ Hr].
    destruct (behaves_send_command_body fuel command w Hf) as [Hd _].
    destruct (S3Live.send_command_body fuel ThePort command w) as [[s|e|] w1];
      simpl in *; [eauto | | contradiction].
    destruct e; cbn; eauto. now contradiction Hr.
Qed.

(** C10: [send_command] and [_wake_and_send_command] are total.  For
    every command, every reference to the port (also [None]) and every
    state of the link (every fault script, the port open or not), with time
    passing at each poll, [send_command] returns a string, and the empty
    one whenever its body raised; [_wake_and_send_command] with at least
    one attempt allowed returns a string, and an attempt that raised is
    answered by a further attempt or by the empty string. *)
Theorem transport_total (fuel : nat) (ser : serial_ref) (command : string)
    (w : World) :
  enough_fuel fuel w ->
  (exists s w', S3Live.send_command fuel ser command w = (Ok s, w'))
  /\ (forall e,
         fst (S3Live.send_command_body fuel ser command w) = Raise e ->
         fst (S3Live.send_command fuel ser command w) = Ok EmptyString)
  /\ (forall wake_delay max_retries,
         0 <= wake_delay -> 1 <= max_retries ->
         exists s w',
           S3Live._wake_and_send_command fuel ser command wake_delay max_retries w
           = (Ok (Some s), w'))
  /\ (forall wake_delay max_retries attempt,
         0 <= wake_delay ->
         exists r w',
           S3Live.wake_and_send_iteration fuel ser command wake_delay
             max_retries attempt w = (Ok r, w')
           /\ (r = S3Live.NextAttempt -> attempt < max_retries - 1)
           /\ ((ser = PyNone
                \/ exists e,
                     fst (S3Live.wake_and_send_attempt fuel ser command wake_delay w)
                     = Raise e) ->
               r = S3Live.NextAttempt \/ r = S3Live.Return EmptyString)).
Proof.
  intros Hf. split; [now apply send_command_returns |].
  split; [| split].
  - intros e He. unfold S3Live.send_command, try_except.
    destruct (link_send_command_body fuel ser command w) as [_ Hr].
    destruct (S3Live.send_command_body fuel ser command w) as [[s|e'|] w1];
      simpl in *; try discriminate.
    destruct e'; cbn; try reflexivity. now contradiction Hr.
  - intros d mr Hd Hmr. unfold S3Live._wake_and_send_command.
    apply wake_and_send_from_returns; auto; lia.
  - intros d mr attempt Hd.
    destruct (wake_and_send_iteration_decides fuel ser command d mr attempt w Hd Hf)
      as (r & w' & Hrun & _ & Hnext & Hfail).
    exists r, w'. auto.
Qed.

Lemma transport_total_witness :
  enough_fuel 301 broken_link_world
  /\ fst (S3Live.send_command 301 ThePort "time" broken_link_world)
     = Ok EmptyString.
Proof.
  assert (Hf : enough_fuel 301 broken_link_world)
    by (unfold enough_fuel; simpl; lia).
  split; [exact Hf |].
  destruct (transport_total 301 ThePort "time" broken_link_world Hf)
    as (_ & Hfail & _).
  apply (Hfail SerialException). vm_compute. reflexivity.
Defined.

(** ** The completion reason of a collection *)

(** On a link that has gone silent, the loop of [send_command] ends with
    [quiet_period] once the gap since the last line exceeds the quiet
    period, provided the hard timeout does not come first. *)
Lemma plain_collect_silent (command : string) (start : Z) (fuel : nat) :
  forall (response : string) (l : Z) (w : World),
  clean w -> rx (port w) = [] -> 0 < tick w ->
  now w - l <= S3Live.plain_quiet_period command ->
  l + S3Live.plain_quiet_period command <= start + S3Live.plain_hard_timeout command ->
  l + S3Live.plain_quiet_period command - now w < Z.of_nat fuel * tick w ->
  fst (S3Live.plain_collect fuel ThePort command start response true (Some l) w)
  = Ok (response, QuietPeriod).
Proof.
  induction fuel as [|fuel IH]; intros response l w Hc Hrx Htick Hgap Hhard Hfuel.
  - simpl in Hfuel. lia.
  - cbn [S3Live.plain_collect]. rewrite bind_run.
    pose proof (ser_in_waiting_inv w) as Hw.
    destruct (ser_in_waiting ThePort w) as [[b|e|] w1];
      [| contradiction | contradiction].
    destruct Hw as (Hn1 & Ht1 & Hrx1 & Hb & Hc1). rewrite Hrx in Hb. subst b.
    unfold bind, time_time, gets, ret. cbn [fst snd].
    unfold S3Live.quiet_elapsed. cbn [andb].
    destruct (now w1 - l >? S3Live.plain_quiet_period command) eqn:Hq;
      [reflexivity |].
    destruct (now w1 - start >? S3Live.plain_hard_timeout command) eqn:Hh; [lia |].
    apply IH; auto; try lia. congruence.
Qed.

(** On a silent link the loop of [_wake_and_send_command] never notices
    the quiet period: it runs into the hard timeout, whatever it has
    received before. *)
Lemma fast_collect_silent (start : Z) (fuel : nat) :
  forall (response : string) (any : bool) (last : option Z) (w : World),
  clean w -> rx (port w) = [] -> 0 < tick w ->
  now w - start <= S3Live.fast_hard_timeout ->
  start + S3Live.fast_hard_timeout - now w < Z.of_nat fuel * tick w ->
  fst (S3Live.fast_collect fuel ThePort start response any last w)
  = Ok (response, HardTimeout).
Proof.
  induction fuel as [|fuel IH]; intros response any last w Hc Hrx Htick Hin Hfuel.
  - simpl in Hfuel. lia.
  - cbn [S3Live.fast_collect]. rewrite bind_run.
    pose proof (ser_in_waiting_inv w) as Hw.
    destruct (ser_in_waiting ThePort w) as [[b|e|] w1];
      [| contradiction | contradiction].
    destruct Hw as (Hn1 & Ht1 & Hrx1 & Hb & Hc1). rewrite Hrx in Hb. subst b.
    unfold bind, time_time, gets, ret. cbn [fst snd].
    destruct (now w1 - start >? S3Live.fast_hard_timeout) eqn:Hh; [reflexivity |].
    apply IH; auto; try lia. congruence.
Qed.

(** C1: on the link of [one_line_world] the loop of [send_command] ends
    with [quiet_period], 0.7 s after the line, but the loop of
    [_wake_and_send_command] ends with [hard_timeout] after the full 10 s:
    its quiet-period test is only reached while input is waiting. *)
Theorem fast_collector_runs_into_hard_timeout :
  S3Live.plain_collect 301 ThePort "time" 0 EmptyString false None one_line_world
  = (Ok ("OK" +:+ nl, QuietPeriod),
     mkWorld 800 100 (mkSerial true [] [] []) witness_session [])
  /\ S3Live.fast_collect 301 ThePort 0 EmptyString false None one_line_world
     = (Ok ("OK" +:+ nl, HardTimeout),
        mkWorld 10100 100 (mkSerial true [] [] []) witness_session []).
Proof. split; vm_compute; reflexivity. Qed.

(** ** The retry policy of the fast-turnaround commands *)

Lemma attempt_clean (fuel : nat) (command : string) (w : World) :
  clean w -> enough_fuel fuel w ->
  exists cr w1,
    S3Live.wake_and_send_attempt fuel ThePort command WAKE_DELAY w = (Ok cr, w1)
    /\ clean w1 /\ enough_fuel fuel w1.
Proof.
  intros Hc Hf.
  assert (Hd : 0 <= WAKE_DELAY) by (vm_compute; discriminate).
  destruct (link_wake_and_send_attempt fuel ThePort command WAKE_DELAY Hd w) as [Hs _].
  destruct (behaves_wake_and_send_attempt fuel command WAKE_DELAY Hd w Hf) as [Hnd Hnr].
  destruct (S3Live.wake_and_send_attempt fuel ThePort command WAKE_DELAY w)
    as [[cr|e|] w1]; simpl in *.
  - exists cr, w1. split; [reflexivity |].
    split; [eapply link_step_clean; eauto | eapply link_step_fuel; eauto].
  - exfalso. now apply (Hnr Hc e).
  - contradiction.
Qed.

Lemma plain_exchange_clean (fuel : nat) (command : string) (w : World) :
  clean w -> enough_fuel fuel w ->
  exists cr w1, S3Live.plain_exchange fuel ThePort command w = (Ok cr, w1).
Proof.
  intros Hc Hf.
  destruct (behaves_plain_exchange fuel command w Hf) as [Hnd Hnr].
  destruct (S3Live.plain_exchange fuel ThePort command w) as [[cr|e|] w1]; simpl in *.
  - eauto.
  - exfalso. now apply (Hnr Hc e).
  - contradiction.
Qed.

Lemma sleep_clean (fuel : nat) (d : Z) (w : World) :
  clean w -> enough_fuel fuel w ->
  clean (set_now (now w + d) w) /\ enough_fuel fuel (set_now (now w + d) w).
Proof. intros Hc Hf. split; assumption. Qed.

Lemma iteration_clean (fuel : nat) (command : string) (mr idx : Z)
    (w w1 : World) (cr : string * end_reason) :
  S3Live.wake_and_send_attempt fuel ThePort command WAKE_DELAY w = (Ok cr, w1) ->
  S3Live.wake_and_send_iteration fuel ThePort command WAKE_DELAY mr idx w
  = if PyStr.truthy (PyStr.strip (fst cr))
    then (Ok (S3Live.Return (PyStr.strip (fst cr))), w1)
    else if idx <? mr - 1
    then (Ok S3Live.NextAttempt, set_now (now w1 + S3Live.RETRY_BACKOFF) w1)
    else (Ok (S3Live.Return EmptyString), w1).
Proof.
  intros H. unfold S3Live.wake_and_send_iteration, try_except.
  rewrite bind_run, H.
  destruct (PyStr.truthy (PyStr.strip (fst cr))); [reflexivity |].
  destruct (idx <? mr - 1); reflexivity.
Qed.

Lemma sleep_run {A : Type} (d : Z) (k : unit -> M A) (w : World) :
  bind (time_sleep d) k w = k tt (set_now (now w + d) w).
Proof. reflexivity. Qed.

#[local] Opaque S3Live.wake_and_send_attempt S3Live.plain_exchange S3Live.wake_and_send_iteration.

(** C4: on a link without faults, [send_command] on a fast-turnaround
    command is the retry policy over the attempts of
    [_wake_and_send_command], with the plain exchange as the only
    fall-back. *)
Theorem fast_retry_policy (fuel : nat) (command : string) (w : World) :
  S3Live.is_fast command = true -> clean w -> enough_fuel fuel w ->
  S3Live.send_command fuel ThePort command w
  = retry_policy
      (captured (S3Live.wake_and_send_attempt fuel ThePort command WAKE_DELAY))
      (captured (S3Live.plain_exchange fuel ThePort command)) w.
Proof.
  intros Hfast Hc Hf.
  unfold S3Live.send_command, S3Live.send_command_body, retry_policy, captured.
  rewrite Hfast. unfold S3Live._wake_and_send_command.
  change (Z.to_nat 3) with 3%nat.
  cbn [S3Live.wake_and_send_from].
  unfold try_except.
  destruct (attempt_clean fuel command w Hc Hf) as (cr1 & w1 & H1 & Hc1 & Hf1).
  rewrite !bind_run. rewrite (iteration_clean _ _ _ _ _ _ _ H1), H1.
  destruct (PyStr.truthy (PyStr.strip (fst cr1))) eqn:T1.
  { cbn. rewrite T1. reflexivity. }
  change (0 <? 3 - 1) with true. cbn iota beta.
  destruct (sleep_clean fuel S3Live.RETRY_BACKOFF w1 Hc1 Hf1) as [Hc1' Hf1'].
  destruct (attempt_clean fuel command _ Hc1' Hf1') as (cr2 & w2 & H2 & Hc2 & Hf2).
  rewrite !bind_run. rewrite (iteration_clean _ _ _ _ _ _ _ H2).
  cbn [ret]. rewrite T1. unfold S3Live.RETRY_BACKOFF in *.
  rewrite sleep_run. rewrite !bind_run. rewrite H2.
  destruct (PyStr.truthy (PyStr.strip (fst cr2))) eqn:T2.
  { cbn. rewrite T2. reflexivity. }
  change (0 + 1 <? 3 - 1) with true. cbn iota beta.
  destruct (sleep_clean fuel 500 w2 Hc2 Hf2) as [Hc2' Hf2'].
  destruct (attempt_clean fuel command _ Hc2' Hf2') as (cr3 & w3 & H3 & Hc3 & Hf3).
  rewrite !bind_run. rewrite (iteration_clean _ _ _ _ _ _ _ H3).
  cbn [ret]. rewrite T2. rewrite sleep_run. rewrite !bind_run. rewrite H3.
  destruct (PyStr.truthy (PyStr.strip (fst cr3))) eqn:T3.
  { cbn. rewrite T3. reflexivity. }
  change (0 + 1 + 1 <? 3 - 1) with false. cbn iota beta.
  cbn [ret S3Live.response_truthy PyStr.truthy]. rewrite T3.
  destruct (plain_exchange_clean fuel command w3 Hc3 Hf3) as (cr & w4 & H4).
  rewrite !bind_run, H4. reflexivity.
Qed.

#[local] Transparent S3Live.wake_and_send_attempt S3Live.plain_exchange S3Live.wake_and_send_iteration.

Lemma fast_retry_policy_witness :
  (S3Live.is_fast "status" = true /\ clean third_time_world
   /\ enough_fuel 301 third_time_world)
  /\ fst (S3Live.send_command 301 ThePort "status" third_time_world) = Ok "OK"
  /\ tx (port (snd (S3Live.send_command 301 ThePort "status" third_time_world)))
     = [nl; command_line "status"; nl; command_line "status";
        nl; command_line "status"].
Proof.
  assert (H1 : S3Live.is_fast "status" = true) by reflexivity.
  assert (H2 : clean third_time_world) by (split; reflexivity).
  assert (H3 : enough_fuel 301 third_time_world)
    by (unfold enough_fuel; simpl; lia).
  split; [auto |].
  rewrite (fast_retry_policy 301 "status" third_time_world H1 H2 H3).
  split; vm_compute; reflexivity.
Defined.

(** ** Facts about the matcher *)

Lemma all_chars_app (p : ascii -> bool) (a b : string) :
  all_chars p (a +:+ b) = all_chars p a && all_chars p b.
Proof.
  induction a as [|c a IH]; simpl; [reflexivity |].
  now rewrite IH, andb_assoc.
Qed.

Lemma all_chars_impl (p q : ascii -> bool) (s : string) :
  (forall c, p c = true -> q c = true) ->
  all_chars p s = true -> all_chars q s = true.
Proof.
  intros Hpq. induction s as [|c s IH]; simpl; [reflexivity |].
  intros H. apply andb_true_iff in H as [H1 H2].
  apply andb_true_iff. auto.
Qed.

Lemma consumed_app (x s' : string) : Re.consumed (x +:+ s') s' = x.
Proof.
  unfold Re.consumed. rewrite string_length_app.
  replace (String.length x + String.length s' - String.length s')%nat
    with (String.length x) by lia.
  induction x as [|c x IH]; simpl.
  - now destruct s'.
  - now rewrite IH.
Qed.

Lemma run_stops (p q : ascii -> bool) (s rest : string) :
  run p s -> (forall c, p c = true -> q c = false) -> stops q (s +:+ rest) = true.
Proof.
  intros [Hne Hall] Hpq. destruct s as [|c s]; [contradiction |].
  simpl in *. apply andb_true_iff in Hall as [Hc _].
  now rewrite (Hpq c Hc).
Qed.

Lemma consumed_app3 (a b c s' : string) :
  Re.consumed (a +:+ b +:+ c +:+ s') s' = a +:+ b +:+ c.
Proof. rewrite <- (consumed_app (a +:+ b +:+ c) s'). now rewrite !string_app_assoc. Qed.

Lemma consumed_nil (s : string) : Re.consumed s EmptyString = s.
Proof.
  rewrite <- (string_app_nil_r s) at 1. apply consumed_app.
Qed.

Section MatcherFacts.
Context {R : Type}.

(** A greedy run over [cs] hands [rest] to what follows, when [rest]
    cannot extend the run and what follows succeeds there. *)
Lemma star_k_stops (p : ascii -> bool) (k : string -> option R) (cs rest : string)
    (r : R) :
  all_chars p cs = true -> stops p rest = true -> k rest = Some r ->
  Re.star_k p k (cs +:+ rest) = Some r.
Proof.
  intros Hcs Hrest Hk. induction cs as [|c cs IH]; simpl in *.
  - destruct rest as [|x rest]; simpl in *; [exact Hk |].
    apply negb_true_iff in Hrest. now rewrite Hrest.
  - apply andb_true_iff in Hcs as [Hc Hcs]. now rewrite Hc, (IH Hcs).
Qed.

Lemma rmatch_plus_stops (p : ascii -> bool) (cs rest : string) (g : list string)
    (k : string -> list string -> option R) (r : R) :
  run p cs -> stops p rest = true -> k rest g = Some r ->
  Re.rmatch (Re.Plus p) (cs +:+ rest) g k = Some r.
Proof.
  intros [Hne Hcs] Hrest Hk. destruct cs as [|c cs]; [contradiction |].
  simpl in *. apply andb_true_iff in Hcs as [Hc Hcs]. rewrite Hc.
  now apply (star_k_stops p (fun s'' => k s'' g)).
Qed.

Lemma rmatch_star_stops (p : ascii -> bool) (cs rest : string) (g : list string)
    (k : string -> list string -> option R) (r : R) :
  all_chars p cs = true -> stops p rest = true -> k rest g = Some r ->
  Re.rmatch (Re.Star p) (cs +:+ rest) g k = Some r.
Proof. intros. now apply (star_k_stops p (fun s'' => k s'' g)). Qed.

Lemma lit_rest_app (l rest : string) : Re.lit_rest l (l +:+ rest) = Some rest.
Proof.
  induction l as [|c l IH]; simpl; [reflexivity |].
  now rewrite Ascii.eqb_refl.
Qed.

Lemma rmatch_Seq (r1 r2 : Re.regex) (s : string) (g : list string)
    (k : string -> list string -> option R) :
  Re.rmatch (Re.Seq r1 r2) s g k
  = Re.rmatch r1 s g (fun s' g' => Re.rmatch r2 s' g' k).
Proof. reflexivity. Qed.

Lemma rmatch_Grp (r1 : Re.regex) (s : string) (g : list string)
    (k : string -> list string -> option R) :
  Re.rmatch (Re.Grp r1) s g k
  = Re.rmatch r1 s g (fun s' g' => k s' (g' ++ [Re.consumed s s'])).
Proof. reflexivity. Qed.

Lemma rmatch_Chr (c : ascii) (rest : string) (g : list string)
    (k : string -> list string -> option R) :
  Re.rmatch (Re.Chr c) (String c EmptyString +:+ rest) g k = k rest g.
Proof. simpl. now rewrite Ascii.eqb_refl. Qed.

Lemma rmatch_Cls (p : ascii -> bool) (c : ascii) (rest : string)
    (g : list string) (k : string -> list string -> option R) :
  p c = true ->
  Re.rmatch (Re.Cls p) (String c EmptyString +:+ rest) g k = k rest g.
Proof. intros Hc. simpl. now rewrite Hc. Qed.

Lemma rmatch_Alt_left (r1 r2 : Re.regex) (s : string) (g : list string)
    (k : string -> list string -> option R) (r : R) :
  Re.rmatch r1 s g k = Some r -> Re.rmatch (Re.Alt r1 r2) s g k = Some r.
Proof. intros H. simpl. now rewrite H. Qed.

Lemma rmatch_lit_end (l : string) (g : list string)
    (k : string -> list string -> option R) :
  Re.rmatch (Re.Lit l) l g k = k EmptyString g.
Proof.
  simpl. rewrite <- (string_app_nil_r l) at 2. now rewrite lit_rest_app.
Qed.

Lemma rmatch_lit (l rest : string) (g : list string)
    (k : string -> list string -> option R) :
  Re.rmatch (Re.Lit l) (l +:+ rest) g k = k rest g.
Proof. simpl. now rewrite lit_rest_app. Qed.

Lemma star_k_ext (p : ascii -> bool) (k1 k2 : string -> option R) (s : string) :
  (forall s', k1 s' = k2 s') -> Re.star_k p k1 s = Re.star_k p k2 s.
Proof.
  intros Hk. induction s as [|c s IH]; simpl; [apply Hk |].
  now rewrite IH, Hk.
Qed.

Lemma lazy_k_ext (p : ascii -> bool) (k1 k2 : string -> option R) (s : string) :
  (forall s', k1 s' = k2 s') -> Re.lazy_k p k1 s = Re.lazy_k p k2 s.
Proof.
  intros Hk. induction s as [|c s IH]; simpl; rewrite Hk; [reflexivity |].
  now rewrite IH.
Qed.

(** The matcher only looks at what its continuation returns. *)
Lemma rmatch_ext (r : Re.regex) :
  forall (s : string) (g : list string)
         (k1 k2 : string -> list string -> option R),
  (forall s' g', k1 s' g' = k2 s' g') ->
  Re.rmatch r s g k1 = Re.rmatch r s g k2.
Proof.
  induction r; intros s g k1 k2 Hk; simpl.
  - apply Hk.
  - destruct s as [|x s]; [reflexivity |]. now rewrite Hk.
  - destruct s as [|x s]; [reflexivity |]. now rewrite Hk.
  - destruct (Re.lit_rest l s); [apply Hk | reflexivity].
  - apply IHr1. intros s' g'. now apply IHr2.
  - now rewrite (IHr1 s g k1 k2 Hk), (IHr2 s g k1 k2 Hk).
  - apply star_k_ext. intros s'. apply Hk.
  - destruct s as [|x s]; [reflexivity |].
    destruct (p x); [| reflexivity]. apply star_k_ext. intros s'. apply Hk.
  - apply lazy_k_ext. intros s'. apply Hk.
  - apply IHr. intros s' g'. apply Hk.
Qed.

Lemma rmatch_seq_of_app (a b : list Re.regex) :
  forall (s : string) (g : list string) (k : string -> list string -> option R),
  Re.rmatch (Re.seq_of (a ++ b)) s g k
  = Re.rmatch (Re.seq_of a) s g (fun s' g' => Re.rmatch (Re.seq_of b) s' g' k).
Proof.
  induction a as [|r a IH]; intros s g k; [reflexivity |].
  destruct a as [|r' a].
  - destruct b as [|r' b]; reflexivity.
  - change (Re.seq_of ((r :: r' :: a) ++ b))
      with (Re.Seq r (Re.seq_of ((r' :: a) ++ b))).
    change (Re.seq_of (r :: r' :: a)) with (Re.Seq r (Re.seq_of (r' :: a))).
    cbn [Re.rmatch]. apply rmatch_ext. intros s' g'. apply IH.
Qed.

End MatcherFacts.

(** ** The wire format of a reading record *)

Ltac char_cases c := destruct c as [[] [] [] [] [] [] [] []]; vm_compute; congruence.

Lemma digit_not_space (c : ascii) : PyStr.isdigit c = true -> PyStr.isspace c = false.
Proof. char_cases c. Qed.

Section RecordFacts.
Context {R : Type}.

Lemma rmatch_index (idx rest : string) (g : list string)
    (k : string -> list string -> option R) (r : R) :
  run PyStr.isdigit idx -> stops PyStr.isspace rest = true ->
  k rest g = Some r ->
  Re.rmatch (Re.seq_of re_index) (index_then idx rest) g k = Some r.
Proof.
  intros Hidx Hrest Hk.
  change (index_then idx rest) with ("#" +:+ idx +:+ ":" +:+ " " +:+ rest).
  cbv [Re.seq_of re_index]. rewrite rmatch_Seq, rmatch_Chr; cbv beta; rewrite ?rmatch_Seq.
  apply rmatch_plus_stops; [exact Hidx | reflexivity |]; cbv beta; rewrite ?rmatch_Seq.
  rewrite rmatch_Chr; cbv beta; rewrite ?rmatch_Seq.
  apply rmatch_star_stops; [reflexivity | exact Hrest | exact Hk].
Qed.

Lemma rmatch_fields (date time value tag rest : string) (g : list string)
    (k : string -> list string -> option R) (r : R) :
  run digit_or_dash date -> run digit_or_colon time ->
  run PyStr.isdigit value -> run PyStr.isdigit tag ->
  stops PyStr.isspace rest = true ->
  k rest (g ++ [date +:+ " " +:+ time; value; tag]) = Some r ->
  Re.rmatch (Re.seq_of re_fields) (fields_then date time value tag rest) g k
  = Some r.
Proof.
  intros Hd Ht Hv Htag Hrest Hk.
  change (fields_then date time value tag rest)
    with (date +:+ " " +:+ time +:+ "," +:+ " " +:+ value +:+ "," +:+ " "
          +:+ tag +:+ "," +:+ " " +:+ rest).
  cbv [Re.seq_of re_fields]. rewrite rmatch_Seq, rmatch_Grp, rmatch_Seq.
  apply rmatch_plus_stops; [exact Hd | reflexivity |]; cbv beta; rewrite ?rmatch_Seq.
  rewrite rmatch_Cls by reflexivity. cbv beta.
  apply rmatch_plus_stops; [exact Ht | reflexivity |]; cbv beta; rewrite ?rmatch_Seq.
  rewrite rmatch_Chr; cbv beta; rewrite ?rmatch_Seq.
  apply rmatch_star_stops;
    [reflexivity | now apply (run_stops PyStr.isdigit), digit_not_space |]; cbv beta; rewrite ?rmatch_Seq.
  rewrite rmatch_Grp.
  apply rmatch_plus_stops; [exact Hv | reflexivity |]; cbv beta; rewrite ?rmatch_Seq.
  rewrite rmatch_Chr; cbv beta; rewrite ?rmatch_Seq.
  apply rmatch_star_stops;
    [reflexivity | now apply (run_stops PyStr.isdigit), digit_not_space |]; cbv beta; rewrite ?rmatch_Seq.
  rewrite rmatch_Grp.
  apply rmatch_plus_stops; [exact Htag | reflexivity |]; cbv beta; rewrite ?rmatch_Seq.
  rewrite rmatch_Chr; cbv beta; rewrite ?rmatch_Seq.
  apply rmatch_star_stops; [reflexivity | exact Hrest |]; cbv beta; rewrite ?rmatch_Seq.
  rewrite consumed_app3, !consumed_app, <- !app_assoc. exact Hk.
Qed.

End RecordFacts.

Lemma match_here_found (r : Re.regex) (s : string) (m : list string * string) :
  Re.match_here r s = Some m -> Re.search r s = Some (fst m).
Proof.
  intros H. unfold Re.search. destruct s; simpl; now rewrite H.
Qed.

Lemma rmatch_debug_prefix {R : Type} (raw rest : string) (g : list string)
    (k : string -> list string -> option R) (r : R) :
  run PyStr.isdigit raw -> k rest g = Some r ->
  Re.rmatch (Re.seq_of re_debug_prefix) (debug_then raw rest) g k = Some r.
Proof.
  intros Hraw Hk.
  change (debug_then raw rest)
    with ("[DEBUG]" +:+ " " +:+ "raw_timestamp=" +:+ raw +:+ "," +:+ " "
          +:+ "converted=" +:+ rest).
  cbv [Re.seq_of re_debug_prefix].
  rewrite rmatch_Seq, rmatch_lit; cbv beta; rewrite ?rmatch_Seq.
  apply rmatch_star_stops; [reflexivity | reflexivity |]; cbv beta; rewrite ?rmatch_Seq.
  rewrite rmatch_lit; cbv beta; rewrite ?rmatch_Seq.
  apply rmatch_plus_stops; [exact Hraw | reflexivity |]; cbv beta; rewrite ?rmatch_Seq.
  rewrite rmatch_Chr; cbv beta; rewrite ?rmatch_Seq.
  apply rmatch_star_stops; [reflexivity | reflexivity |]; cbv beta; rewrite ?rmatch_Seq.
  rewrite rmatch_lit. exact Hk.
Qed.

(** The temperature group of the S3 pattern on [N/A]. *)
Lemma rmatch_temp_na {R : Type} (g : list string)
    (k : string -> list string -> option R) :
  Re.rmatch S3Live.re_temp "N/A" g k = k EmptyString (g ++ ["N/A"]).
Proof. reflexivity. Qed.

Lemma dot_not_deg (c : ascii) :
  digit_or_dot c = true -> Ascii.eqb c (ascii_of_nat 194) = false.
Proof. char_cases c. Qed.

(** The temperature group of the S3 pattern on a number with its unit. *)
Lemma rmatch_temp_num {R : Type} (num : string) (g : list string)
    (k : string -> list string -> option R) (r : R) :
  run digit_or_dot num ->
  k EmptyString (g ++ [num +:+ PyStr.degC]) = Some r ->
  Re.rmatch S3Live.re_temp (num +:+ PyStr.degC) g k = Some r.
Proof.
  intros Hnum Hk. unfold S3Live.re_temp.
  rewrite rmatch_Grp. apply rmatch_Alt_left. rewrite rmatch_Seq.
  apply rmatch_plus_stops; [exact Hnum | reflexivity |]; cbv beta.
  rewrite rmatch_lit_end, consumed_nil. exact Hk.
Qed.

(** ** Characters a pattern cannot do without *)

Lemma all_chars_tail (p : ascii -> bool) (c : ascii) (s : string) :
  all_chars p (String c s) = true -> all_chars p s = true.
Proof. simpl. intros H. now apply andb_true_iff in H. Qed.

Section Failure.
Context {R : Type}.
Variable q : ascii -> bool.

Lemma star_k_cont_fails (p : ascii -> bool) (k : string -> option R) (s : string) :
  all_chars q s = true ->
  (forall s', all_chars q s' = true -> k s' = None) ->
  Re.star_k p k s = None.
Proof.
  intros Hs Hk. induction s as [|c s IH]; simpl; [now apply Hk |].
  rewrite (IH (all_chars_tail q c s Hs)), (Hk _ Hs). now destruct (p c).
Qed.

Lemma lazy_k_cont_fails (p : ascii -> bool) (k : string -> option R) (s : string) :
  all_chars q s = true ->
  (forall s', all_chars q s' = true -> k s' = None) ->
  Re.lazy_k p k s = None.
Proof.
  intros Hs Hk. induction s as [|c s IH]; simpl; rewrite (Hk _ Hs); [reflexivity |].
  rewrite (IH (all_chars_tail q c s Hs)). now destruct (p c).
Qed.

Lemma lit_rest_chars (l : string) :
  forall s s', all_chars q s = true -> Re.lit_rest l s = Some s' ->
  all_chars q l = true /\ all_chars q s' = true.
Proof.
  induction l as [|a l IH]; intros s s' Hs H; simpl in *.
  - inversion H; subst. auto.
  - destruct s as [|b s]; [discriminate |].
    destruct (Ascii.eqb_spec a b) as [->|]; [| discriminate].
    simpl in Hs. apply andb_true_iff in Hs as [Hb Hs].
    destruct (IH s s' Hs H) as [H1 H2]. rewrite Hb, H1. auto.
Qed.

(** A continuation that fails on every text over [q] makes the match
    fail on such a text: the matcher only hands over what is left of its
    input. *)
Lemma rmatch_cont_fails (r : Re.regex) :
  forall (s : string) (g : list string) (k : string -> list string -> option R),
  all_chars q s = true ->
  (forall s' g', all_chars q s' = true -> k s' g' = None) ->
  Re.rmatch r s g k = None.
Proof.
  induction r; intros s g k Hs Hk; simpl.
  - now apply Hk.
  - destruct s as [|x s]; [reflexivity |].
    rewrite (Hk s g (all_chars_tail q x s Hs)). now destruct (Ascii.eqb x c).
  - destruct s as [|x s]; [reflexivity |].
    rewrite (Hk s g (all_chars_tail q x s Hs)). now destruct (p x).
  - destruct (Re.lit_rest l s) as [s'|] eqn:E; [| reflexivity].
    apply Hk. now destruct (lit_rest_chars l s s' Hs E).
  - apply IHr1; [exact Hs |]. intros s' g' Hs'. now apply IHr2.
  - now rewrite IHr1, IHr2.
  - apply star_k_cont_fails; [exact Hs |]. intros s' Hs'. now apply Hk.
  - destruct s as [|x s]; [reflexivity |]. destruct (p x); [| reflexivity].
    apply star_k_cont_fails; [exact (all_chars_tail q x s Hs) |].
    intros s' Hs'. now apply Hk.
  - apply lazy_k_cont_fails; [exact Hs |]. intros s' Hs'. now apply Hk.
  - apply IHr; [exact Hs |]. intros s' g' Hs'. now apply Hk.
Qed.

End Failure.

(** A pattern that needs [c] matches nowhere in a text without [c]. *)
Lemma needs_fails {R : Type} (c : ascii) (r : Re.regex) :
  forall (s : string) (g : list string) (k : string -> list string -> option R),
  needs c r = true -> all_chars (differs c) s = true ->
  Re.rmatch r s g k = None.
Proof.
  induction r; intros s g k Hn Hs; simpl in Hn; try discriminate; simpl.
  - destruct s as [|x s]; [reflexivity |].
    simpl in Hs. apply andb_true_iff in Hs as [Hx _].
    unfold differs in Hx. apply negb_true_iff in Hx.
    apply Ascii.eqb_eq in Hn. subst. now rewrite Hx.
  - destruct (Re.lit_rest l s) as [s'|] eqn:E; [| reflexivity].
    destruct (lit_rest_chars (differs c) l s s' Hs E) as [Hl _].
    rewrite Hl in Hn. discriminate.
  - apply orb_true_iff in Hn as [Hn | Hn].
    + now apply IHr1.
    + apply (rmatch_cont_fails (differs c)); [exact Hs |].
      intros s' g' Hs'. now apply IHr2.
  - apply andb_true_iff in Hn as [Hn1 Hn2]. now rewrite IHr1, IHr2.
  - now apply IHr.
Qed.

Lemma search_needs_fails (c : ascii) (r : Re.regex) (s : string) :
  needs c r = true -> all_chars (differs c) s = true -> Re.search r s = None.
Proof.
  intros Hn Hs. unfold Re.search.
  assert (H : Re.search_rest r s = None); [| now rewrite H].
  induction s as [|x s IH]; simpl; unfold Re.match_here.
  - now rewrite (needs_fails c r).
  - rewrite (needs_fails c r) by assumption. apply IH.
    exact (all_chars_tail _ x s Hs).
Qed.

(** ** Reading lines *)

Lemma parse_lines_block_lines (f : string -> option Reading) (lines : list string) :
  forall in_block,
  parse_lines f in_block lines = omap f (block_lines in_block lines).
Proof.
  induction lines as [|line rest IH]; intros in_block; simpl; [reflexivity |].
  destruct (PyStr.contains BEGIN_READINGS line); [apply IH |].
  destruct (PyStr.contains END_READINGS line); [apply IH |].
  destruct in_block; [| apply IH].
  simpl. rewrite IH. now destruct (f line).
Qed.

Lemma parse_lines_app (f : string -> option Reading) (l1 l2 : list string) :
  forall in_block,
  parse_lines f in_block (l1 ++ l2)
  = parse_lines f in_block l1 ++ parse_lines f (block_state in_block l1) l2.
Proof.
  induction l1 as [|line rest IH]; intros in_block; simpl; [reflexivity |].
  destruct (PyStr.contains BEGIN_READINGS line); [apply IH |].
  destruct (PyStr.contains END_READINGS line); [apply IH |].
  destruct in_block; [| apply IH].
  destruct (f line); simpl; now rewrite IH.
Qed.

(** A text in which [c] does not occur contains no pattern in which [c]
    occurs. *)
Lemma prefix_chars (q : ascii -> bool) (pat : string) :
  forall s, all_chars q s = true -> String.prefix pat s = true ->
  all_chars q pat = true.
Proof.
  induction pat as [|a pat IH]; intros s Hs H; [reflexivity |].
  destruct s as [|b s]; simpl in H; [discriminate |].
  destruct (ascii_dec a b) as [->|]; [| discriminate].
  simpl in *. apply andb_true_iff in Hs as [Hb Hs].
  now rewrite Hb, (IH s Hs H).
Qed.

Lemma contains_chars (q : ascii -> bool) (pat s : string) :
  all_chars q s = true -> all_chars q pat = false ->
  PyStr.contains pat s = false.
Proof.
  intros Hs Hpat. induction s as [|c s IH]; cbn [PyStr.contains].
  - destruct (String.prefix pat EmptyString) eqn:E; [| reflexivity].
    now rewrite (prefix_chars q pat EmptyString Hs E) in Hpat.
  - destruct (String.prefix pat (String c s)) eqn:E.
    + now rewrite (prefix_chars q pat _ Hs E) in Hpat.
    + cbn [orb]. apply IH. exact (all_chars_tail q c s Hs).
Qed.

Lemma not_delimiter (line : string) :
  all_chars (differs "I") line = true ->
  PyStr.contains BEGIN_READINGS line = false
  /\ PyStr.contains END_READINGS line = false.
Proof.
  intros H. split; apply (contains_chars (differs "I")); auto.
Qed.

(** A line inside a block that is no delimiter gives its reading, and the
    lines around it theirs. *)
Lemma parse_lines_at (f : string -> option Reading) (before after : list string)
    (line : string) (r : Reading) :
  block_state false before = true ->
  all_chars (differs "I") line = true ->
  f line = Some r ->
  parse_lines f false (before ++ line :: after)
  = parse_lines f false before ++ r :: parse_lines f true after.
Proof.
  intros Hb Hline Hf. rewrite parse_lines_app, Hb. f_equal.
  destruct (not_delimiter line Hline) as [H1 H2].
  simpl. now rewrite H1, H2, Hf.
Qed.

Ltac class_chars :=
  eapply all_chars_impl; cycle 1;
  [eassumption | let c := fresh "c" in intros c; char_cases c].

Ltac line_chars :=
  repeat rewrite all_chars_app;
  repeat (apply andb_true_iff; split);
  first [reflexivity | class_chars].

Lemma normal_line_chars (q : ascii -> bool) (idx date time value tag temp : string) :
  all_chars q "#: ," = true ->
  all_chars q idx = true -> all_chars q date = true -> all_chars q time = true ->
  all_chars q value = true -> all_chars q tag = true -> all_chars q temp = true ->
  all_chars q (normal_line idx date time value tag temp) = true.
Proof.
  intros Hlit Hi Hd Ht Hv Hg Htemp.
  simpl in Hlit. repeat (apply andb_true_iff in Hlit as [? Hlit]).
  unfold normal_line, index_then, fields_then.
  repeat rewrite all_chars_app. simpl.
  repeat (apply andb_true_iff; split); auto.
Qed.

Lemma dash_not_space (c : ascii) : digit_or_dash c = true -> PyStr.isspace c = false.
Proof. char_cases c. Qed.

Lemma dot_not_space (c : ascii) : digit_or_dot c = true -> PyStr.isspace c = false.
Proof. char_cases c. Qed.

Lemma dot_not_N (c : ascii) : digit_or_dot c = true -> Ascii.eqb c "N" = false.
Proof. char_cases c. Qed.

Lemma dot_not_deg_byte (c : ascii) :
  digit_or_dot c = true -> c <> ascii_of_nat 194.
Proof. intros H ->. vm_compute in H. discriminate. Qed.

(** Removing the unit from a number followed by the unit leaves the
    number. *)
Lemma replace_unit (num : string) :
  all_chars digit_or_dot num = true ->
  PyStr.replace PyStr.degC EmptyString (num +:+ PyStr.degC) = num.
Proof.
  unfold PyStr.replace. induction num as [|c num IH]; intros H.
  - reflexivity.
  - simpl in H. apply andb_true_iff in H as [Hc H].
    cbn [String.append PyStr.replace_from].
    assert (Hp : String.prefix PyStr.degC (String c (num +:+ PyStr.degC)) = false).
    { unfold PyStr.degC. cbn [String.prefix].
      destruct (ascii_dec (ascii_of_nat 194) c) as [E|]; [| reflexivity].
      apply dot_not_deg_byte in Hc. congruence. }
    rewrite Hp. now rewrite IH.
Qed.

Lemma temp_value_number (num : string) :
  run digit_or_dot num -> S3Live.temp_value (num +:+ PyStr.degC) = num.
Proof.
  intros [Hne Hall]. unfold S3Live.temp_value.
  destruct num as [|c num]; [contradiction |].
  assert (Hc : digit_or_dot c = true) by (simpl in Hall; now apply andb_true_iff in Hall).
  cbn [String.append String.eqb]. rewrite (dot_not_N c Hc).
  now apply (replace_unit (String c num)).
Qed.

(** The record patterns on a record line: the index, the (optional) debug
    prefix and the three fields are matched and the fields captured, and
    the pattern of the temperature goes on from there. *)
Lemma rmatch_normal_record {R : Type} (temp_re : list Re.regex)
    (idx date time value tag temp : string)
    (k : string -> list string -> option R) (r : R) :
  run PyStr.isdigit idx -> run digit_or_dash date -> run digit_or_colon time ->
  run PyStr.isdigit value -> run PyStr.isdigit tag ->
  stops PyStr.isspace temp = true ->
  Re.rmatch (Re.seq_of temp_re) temp [date +:+ " " +:+ time; value; tag] k = Some r ->
  Re.rmatch (Re.seq_of (re_index ++ re_fields ++ temp_re))
    (normal_line idx date time value tag temp) [] k = Some r.
Proof.
  intros Hi Hd Ht Hv Hg Hst Hk. unfold normal_line.
  rewrite rmatch_seq_of_app.
  apply rmatch_index; [exact Hi | now apply (run_stops digit_or_dash), dash_not_space |].
  rewrite rmatch_seq_of_app.
  now apply rmatch_fields.
Qed.

Lemma rmatch_debug_record {R : Type} (temp_re : list Re.regex)
    (idx raw date time value tag temp : string)
    (k : string -> list string -> option R) (r : R) :
  run PyStr.isdigit idx -> run PyStr.isdigit raw ->
  run digit_or_dash date -> run digit_or_colon time ->
  run PyStr.isdigit value -> run PyStr.isdigit tag ->
  stops PyStr.isspace temp = true ->
  Re.rmatch (Re.seq_of temp_re) temp [date +:+ " " +:+ time; value; tag] k = Some r ->
  Re.rmatch (Re.seq_of (re_index ++ re_debug_prefix ++ re_fields ++ temp_re))
    (debug_line idx raw date time value tag temp) [] k = Some r.
Proof.
  intros Hi Hr Hd Ht Hv Hg Hst Hk. unfold debug_line.
  rewrite rmatch_seq_of_app.
  apply rmatch_index; [exact Hi | reflexivity |].
  rewrite rmatch_seq_of_app.
  apply rmatch_debug_prefix; [exact Hr |].
  rewrite rmatch_seq_of_app.
  now apply rmatch_fields.
Qed.

Lemma temp_text_stops (t : temperature) :
  temp_ok t -> stops PyStr.isspace (temp_text t) = true.
Proof.
  destruct t as [|num]; intros H; [reflexivity |].
  now apply (run_stops digit_or_dot), dot_not_space.
Qed.

Lemma temp_text_chars (q : ascii -> bool) (t : temperature) :
  temp_ok t -> all_chars q ("N/A" +:+ PyStr.degC) = true ->
  (forall c, digit_or_dot c = true -> q c = true) ->
  all_chars q (temp_text t) = true.
Proof.
  intros Hok Hlit Hq. destruct t as [|num]; simpl in *.
  - repeat (apply andb_true_iff in Hlit as [? Hlit]).
    repeat (apply andb_true_iff; split); auto.
  - destruct Hok as [_ Hall]. rewrite all_chars_app.
    apply andb_true_iff. split; [now apply (all_chars_impl digit_or_dot) |].
    repeat (apply andb_true_iff in Hlit as [? Hlit]).
    unfold PyStr.degC. simpl. repeat (apply andb_true_iff; split); auto.
Qed.

Lemma rmatch_temp {R : Type} (t : temperature) (g : list string)
    (k : string -> list string -> option R) (r : R) :
  temp_ok t -> k EmptyString (g ++ [temp_text t]) = Some r ->
  Re.rmatch (Re.seq_of [S3Live.re_temp]) (temp_text t) g k = Some r.
Proof.
  destruct t as [|num]; intros Hok Hk.
  - exact Hk.
  - now apply rmatch_temp_num.
Qed.

Lemma temp_value_text (t : temperature) :
  temp_ok t -> S3Live.temp_value (temp_text t) = temp_field t.
Proof. destruct t; intros H; [reflexivity | now apply temp_value_number]. Qed.

(** A line in the normal format gives the reading of its four fields. *)
Lemma line_reading_normal (idx date time value tag : string) (t : temperature) :
  well_formed idx date time value tag -> temp_ok t ->
  S3Live.line_reading (normal_line idx date time value tag (temp_text t))
  = Some (mkReading (date +:+ " " +:+ time) value tag (temp_field t)).
Proof.
  intros (Hi & Hd & Ht & Hv & Hg) Hok.
  unfold S3Live.line_reading, parse_line.
  rewrite (search_needs_fails "[" S3Live.re_debug); [| reflexivity |].
  - rewrite (match_here_found S3Live.re_normal _
               ([date +:+ " " +:+ time; value; tag; temp_text t], EmptyString)).
    + simpl. now rewrite temp_value_text.
    + unfold Re.match_here, S3Live.re_normal.
      apply rmatch_normal_record; auto using temp_text_stops.
      now apply rmatch_temp.
  - destruct Hi as [_ Hi], Hd as [_ Hd], Ht as [_ Ht], Hv as [_ Hv], Hg as [_ Hg].
    apply normal_line_chars; try reflexivity; try class_chars.
    apply temp_text_chars; [exact Hok | reflexivity |]. intros c; char_cases c.
Qed.

Lemma debug_line_chars (q : ascii -> bool)
    (idx raw date time value tag temp : string) :
  all_chars q "#: ,[DEBUG]raw_timestamp=converted" = true ->
  all_chars q idx = true -> all_chars q raw = true ->
  all_chars q date = true -> all_chars q time = true ->
  all_chars q value = true -> all_chars q tag = true -> all_chars q temp = true ->
  all_chars q (debug_line idx raw date time value tag temp) = true.
Proof.
  intros Hlit Hi Hr Hd Ht Hv Hg Htemp.
  simpl in Hlit. repeat (apply andb_true_iff in Hlit as [? Hlit]).
  unfold debug_line, index_then, debug_then, fields_then.
  repeat rewrite all_chars_app. simpl.
  repeat (apply andb_true_iff; split); auto.
Qed.

(** A line in the debug format gives the reading of its four fields. *)
Lemma line_reading_debug (idx raw date time value tag : string) (t : temperature) :
  well_formed idx date time value tag -> run PyStr.isdigit raw -> temp_ok t ->
  S3Live.line_reading (debug_line idx raw date time value tag (temp_text t))
  = Some (mkReading (date +:+ " " +:+ time) value tag (temp_field t)).
Proof.
  intros (Hi & Hd & Ht & Hv & Hg) Hr Hok.
  unfold S3Live.line_reading, parse_line.
  rewrite (match_here_found S3Live.re_debug _
             ([date +:+ " " +:+ time; value; tag; temp_text t], EmptyString)).
  - simpl. now rewrite temp_value_text.
  - unfold Re.match_here, S3Live.re_debug.
    apply rmatch_debug_record; auto using temp_text_stops.
    now apply rmatch_temp.
Qed.

(** Record lines are no delimiter lines. *)
Lemma normal_line_plain (idx date time value tag : string) (t : temperature) :
  well_formed idx date time value tag -> temp_ok t ->
  all_chars (differs "I") (normal_line idx date time value tag (temp_text t)) = true.
Proof.
  intros (Hi & Hd & Ht & Hv & Hg) Hok.
  destruct Hi as [_ Hi], Hd as [_ Hd], Ht as [_ Ht], Hv as [_ Hv], Hg as [_ Hg].
  apply normal_line_chars; try reflexivity; try class_chars.
  apply temp_text_chars; [exact Hok | reflexivity |]. intros c; char_cases c.
Qed.

Lemma debug_line_plain (idx raw date time value tag : string) (t : temperature) :
  well_formed idx date time value tag -> run PyStr.isdigit raw -> temp_ok t ->
  all_chars (differs "I") (debug_line idx raw date time value tag (temp_text t)) = true.
Proof.
  intros (Hi & Hd & Ht & Hv & Hg) Hr Hok.
  destruct Hi as [_ Hi], Hd as [_ Hd], Ht as [_ Ht], Hv as [_ Hv], Hg as [_ Hg],
    Hr as [_ Hr].
  apply debug_line_chars; try reflexivity; try class_chars.
  apply temp_text_chars; [exact Hok | reflexivity |]. intros c; char_cases c.
Qed.

(** ** The readings of a response *)

(** C5: [parse_readings] gives one reading for every line inside a block
    that matches the debug or the normal pattern, in order, and nothing
    for the other lines; a line in either format gives the timestamp, the
    value, the tag and the temperature text (unit removed, or [N/A]) as
    they stand on the line. *)
Theorem parse_readings_one_per_line :
  (forall response : string,
      S3Live.parse_readings response
      = omap S3Live.line_reading (block_lines false (PyStr.split_nl response)))
  /\ (forall (idx date time value tag : string) (t : temperature),
         well_formed idx date time value tag -> temp_ok t ->
         S3Live.line_reading (normal_line idx date time value tag (temp_text t))
         = Some (mkReading (date +:+ " " +:+ time) value tag (temp_field t)))
  /\ (forall (idx raw date time value tag : string) (t : temperature),
         well_formed idx date time value tag -> run PyStr.isdigit raw ->
         temp_ok t ->
         S3Live.line_reading (debug_line idx raw date time value tag (temp_text t))
         = Some (mkReading (date +:+ " " +:+ time) value tag (temp_field t)))
  /\ (forall line : string,
         Re.search S3Live.re_debug line = None ->
         Re.search S3Live.re_normal line = None ->
         S3Live.line_reading line = None).
Proof.
  split; [| split; [| split]].
  - intros response. apply parse_lines_block_lines.
  - apply line_reading_normal.
  - apply line_reading_debug.
  - intros line Hd Hn. unfold S3Live.line_reading, parse_line.
    now rewrite Hd, Hn.
Qed.

Lemma parse_readings_one_per_line_witness :
  S3Live.line_reading
    ("#3: 2025-07-23 05:13:05, 999, 141004265912, 24.86" +:+ PyStr.degC)
  = Some (mkReading "2025-07-23 05:13:05" "999" "141004265912" "24.86")
  /\ S3Live.line_reading
       ("#200: [DEBUG] raw_timestamp=1753247585, converted=2025-07-23 05:13:05, 999, 141004265912, 24.86"
        +:+ PyStr.degC)
     = Some (mkReading "2025-07-23 05:13:05" "999" "141004265912" "24.86")
  /\ S3Live.line_reading "[RFID] tag read, temperature pending" = None.
Proof.
  destruct parse_readings_one_per_line as (_ & Hnormal & Hdebug & Hskip).
  split; [| split].
  - apply (Hnormal "3" "2025-07-23" "05:13:05" "999" "141004265912" (Degrees "24.86")).
    + repeat split; try discriminate; reflexivity.
    + split; [discriminate | reflexivity].
  - apply (Hdebug "200" "1753247585" "2025-07-23" "05:13:05" "999" "141004265912"
             (Degrees "24.86")).
    + repeat split; try discriminate; reflexivity.
    + split; [discriminate | reflexivity].
    + split; [discriminate | reflexivity].
  - apply Hskip; vm_compute; reflexivity.
Defined.

(** C3 (S3 live dashboard): a record line with the temperature [N/A],
    in the normal or in the debug format, standing inside a readings block
    of the response gives a reading whose temperature is the string
    [N/A], at its place among the readings of the lines around it. *)
Theorem na_temperature_kept (response : string) (before after : list string)
    (line idx date time value tag : string) :
  well_formed idx date time value tag ->
  (line = normal_line idx date time value tag "N/A"
   \/ exists raw, run PyStr.isdigit raw
                  /\ line = debug_line idx raw date time value tag "N/A") ->
  PyStr.split_nl response = before ++ line :: after ->
  block_state false before = true ->
  S3Live.parse_readings response
  = parse_lines S3Live.line_reading false before
    ++ mkReading (date +:+ " " +:+ time) value tag "N/A"
    :: parse_lines S3Live.line_reading true after.
Proof.
  intros Hwf Hline Hsplit Hblock. unfold S3Live.parse_readings.
  rewrite Hsplit. apply parse_lines_at; [exact Hblock | |].
  - destruct Hline as [-> | (raw & Hraw & ->)].
    + now apply (normal_line_plain idx date time value tag NotAvailable).
    + now apply (debug_line_plain idx raw date time value tag NotAvailable).
  - destruct Hline as [-> | (raw & Hraw & ->)].
    + now apply (line_reading_normal idx date time value tag NotAvailable).
    + now apply (line_reading_debug idx raw date time value tag NotAvailable).
Qed.

Lemma na_temperature_kept_witness :
  S3Live.parse_readings na_response
  = [mkReading "2025-07-23 05:14:05" "999" "141004265912" "N/A"].
Proof.
  apply (na_temperature_kept na_response ["---BEGIN_READINGS---"]
           ["---END_READINGS---"]
           "#4: 2025-07-23 05:14:05, 999, 141004265912, N/A"
           "4" "2025-07-23" "05:14:05" "999" "141004265912").
  - repeat split; try discriminate; reflexivity.
  - left. reflexivity.
  - vm_compute. reflexivity.
  - vm_compute. reflexivity.
Defined.

(** C3 fails on the older dashboard: its patterns ask for a number and the
    unit, and the line of the specification's example is skipped. *)
Lemma na_line_dropped_by_older_dashboard :
  MultiButton.parse_readings na_response = []
  /\ S3Live.parse_readings na_response
     = [mkReading "2025-07-23 05:14:05" "999" "141004265912" "N/A"].
Proof. split; vm_compute; reflexivity. Qed.

(** ** The latest readings block *)

Lemma lazy_k_skips {R : Type} (p : ascii -> bool) (k : string -> option R)
    (body tail : string) (r : R) :
  all_chars p body = true ->
  (forall s, s <> EmptyString -> (exists c s', s = String c s' /\ Ascii.eqb c "<" = false) -> k s = None) ->
  all_chars (differs "<") body = true ->
  k tail = Some r ->
  Re.lazy_k p k (body +:+ tail) = Some r.
Proof.
  intros Hp Hk Hbody Htail. induction body as [|c body IH]; simpl in *.
  - destruct tail; simpl; now rewrite Htail.
  - apply andb_true_iff in Hp as [Hc Hp]. apply andb_true_iff in Hbody as [Hd Hbody].
    rewrite Hk; [| discriminate |].
    + rewrite Hc. now apply IH.
    + exists c, (body +:+ tail). split; [reflexivity |].
      unfold differs in Hd. now apply negb_true_iff in Hd.
Qed.

Lemma match_here_not_open (c : ascii) (s : string) :
  Ascii.eqb c "<" = false ->
  Re.match_here re_dashboard (String c s) = None.
Proof.
  intros Hc. unfold Re.match_here, re_dashboard. cbv [Re.seq_of].
  rewrite rmatch_Seq. unfold DASHBOARD_OPEN. cbn [Re.rmatch Re.lit_rest].
  rewrite Ascii.eqb_sym, Hc. reflexivity.
Qed.

Lemma search_rest_skips (junk s : string) :
  tag_free junk ->
  Re.search_rest re_dashboard (junk +:+ s) = Re.search_rest re_dashboard s.
Proof.
  unfold tag_free. induction junk as [|c junk IH]; intros H; [reflexivity |].
  simpl in H. apply andb_true_iff in H as [Hc H].
  unfold differs in Hc. apply negb_true_iff in Hc.
  cbn [String.append Re.search_rest]. rewrite (match_here_not_open c _ Hc).
  now apply IH.
Qed.

Lemma match_here_wrapper (body rest : string) :
  tag_free body ->
  Re.match_here re_dashboard
    (DASHBOARD_OPEN +:+ body +:+ DASHBOARD_CLOSE +:+ rest)
  = Some ([body], rest).
Proof.
  intros Hbody. unfold Re.match_here, re_dashboard. cbv [Re.seq_of].
  rewrite rmatch_Seq, rmatch_lit. cbv beta. rewrite rmatch_Seq, rmatch_Grp.
  cbn [Re.rmatch].
  apply lazy_k_skips; [| | exact Hbody |].
  - clear. induction body; simpl; auto.
  - intros s _ (c & s' & -> & Hc). unfold DASHBOARD_CLOSE.
    cbn [Re.lit_rest]. rewrite Ascii.eqb_sym, Hc. reflexivity.
  - rewrite lit_rest_app. cbv beta. now rewrite consumed_app.
Qed.

Lemma search_rest_wrapper (junk body rest : string) :
  tag_free junk -> tag_free body ->
  Re.search_rest re_dashboard
    (junk +:+ DASHBOARD_OPEN +:+ body +:+ DASHBOARD_CLOSE +:+ rest)
  = Some ([body], rest).
Proof.
  intros Hj Hb. rewrite search_rest_skips by exact Hj.
  pose proof (match_here_wrapper body rest Hb) as H.
  unfold DASHBOARD_OPEN in *. cbn [String.append] in *.
  cbn [Re.search_rest]. now rewrite H.
Qed.

Lemma search_rest_tag_free (s : string) :
  tag_free s -> Re.search_rest re_dashboard s = None.
Proof.
  intros H. pose proof (search_needs_fails "<" re_dashboard s eq_refl H) as Hs.
  unfold Re.search in Hs. now destruct (Re.search_rest re_dashboard s).
Qed.

Lemma findall_wrapped (ws : list (string * string)) (tail : string) :
  forall fuel, wrappers_free ws -> tag_free tail -> (length ws < fuel)%nat ->
  Re.findall_fuel fuel re_dashboard (wrapped ws tail) = map snd ws.
Proof.
  induction ws as [|[junk body] ws IH]; intros fuel Hws Htail Hfuel.
  - destruct fuel; [simpl in Hfuel; lia |]. simpl.
    now rewrite search_rest_tag_free.
  - destruct fuel; [simpl in Hfuel; lia |].
    inversion Hws as [|? ? [Hj Hb] Hws']; subst. simpl in Hj, Hb.
    cbn [wrapped Re.findall_fuel]. rewrite search_rest_wrapper by assumption.
    cbn [hd map snd]. f_equal. apply IH; auto. simpl in Hfuel. lia.
Qed.

Lemma wrapped_length (ws : list (string * string)) (tail : string) :
  (length ws <= String.length (wrapped ws tail))%nat.
Proof.
  induction ws as [|[junk body] ws IH]; cbn [wrapped length]; [lia |].
  rewrite !string_length_app.
  assert (H : String.length DASHBOARD_OPEN = 16%nat) by reflexivity.
  rewrite H. lia.
Qed.

Lemma extract_tag_free (text : string) :
  tag_free text -> extract_latest_readings_block text = latest_block text.
Proof.
  intros H. unfold extract_latest_readings_block, Re.findall.
  cbn [Re.findall_fuel]. now rewrite search_rest_tag_free.
Qed.

(** Only the contents of the last wrapper count. *)
Lemma extract_last_wrapper (ws : list (string * string)) (junk body tail : string) :
  wrappers_free ws -> tag_free junk -> tag_free body -> tag_free tail ->
  extract_latest_readings_block (wrapped (ws ++ [(junk, body)]) tail)
  = latest_block body.
Proof.
  intros Hws Hj Hb Ht. unfold extract_latest_readings_block, Re.findall.
  rewrite findall_wrapped.
  - rewrite map_app. cbn [map snd]. now rewrite last_snoc.
  - apply Forall_app. split; [exact Hws |]. constructor; [split; assumption | constructor].
  - exact Ht.
  - pose proof (wrapped_length (ws ++ [(junk, body)]) tail). lia.
Qed.

Lemma collect_blocks_plain (blk rest : list string) :
  forall cur blocks,
  forallb is_plain blk = true ->
  collect_blocks true cur blocks (blk ++ rest)
  = collect_blocks true (cur ++ blk) blocks rest.
Proof.
  induction blk as [|line blk IH]; intros cur blocks H; simpl.
  - now rewrite app_nil_r.
  - simpl in H. apply andb_true_iff in H as [Hl H].
    unfold is_plain in Hl. apply andb_true_iff in Hl as [H1 H2].
    apply negb_true_iff in H1, H2. rewrite H1, H2.
    rewrite IH by exact H. now rewrite <- app_assoc.
Qed.

Lemma collect_blocks_no_end (post : list string) :
  forall in_block cur blocks,
  forallb (fun l => negb (is_end l)) post = true ->
  collect_blocks in_block cur blocks post = blocks.
Proof.
  induction post as [|line post IH]; intros in_block cur blocks H; simpl;
    [reflexivity |].
  simpl in H. apply andb_true_iff in H as [Hl H].
  unfold is_end in Hl. destruct (PyStr.contains BEGIN_READINGS line); [now apply IH |].
  simpl in Hl. apply negb_true_iff in Hl. rewrite Hl.
  destruct in_block; now apply IH.
Qed.

Lemma collect_blocks_prefix (pre : list string) :
  forall in_block cur blocks,
  exists in_block' cur' blocks',
  forall rest,
    collect_blocks in_block cur blocks (pre ++ rest)
    = collect_blocks in_block' cur' blocks' rest.
Proof.
  induction pre as [|line pre IH]; intros in_block cur blocks.
  - exists in_block, cur, blocks. reflexivity.
  - simpl. destruct (PyStr.contains BEGIN_READINGS line); [apply IH |].
    destruct (PyStr.contains END_READINGS line); [apply IH |].
    destruct in_block; apply IH.
Qed.

(** Only the last closed block counts. *)
Lemma latest_block_last (text : string) (pre blk post : list string)
    (b e : string) :
  PyStr.split_nl text = pre ++ b :: blk ++ e :: post ->
  is_begin b = true -> forallb is_plain blk = true -> is_end e = true ->
  forallb (fun l => negb (is_end l)) post = true ->
  latest_block text = PyStr.join_nl blk.
Proof.
  intros Hsplit Hb Hblk He Hpost. unfold latest_block. rewrite Hsplit.
  destruct (collect_blocks_prefix pre false [] []) as (ib & cur & blocks & Hpre).
  rewrite Hpre. unfold is_begin in Hb. unfold is_end in He.
  apply andb_true_iff in He as [He1 He2]. apply negb_true_iff in He1.
  cbn [collect_blocks]. rewrite Hb.
  rewrite collect_blocks_plain by exact Hblk.
  cbn [collect_blocks]. rewrite He1, He2.
  rewrite collect_blocks_no_end by exact Hpost.
  now rewrite last_snoc.
Qed.

(** C2, as the code has it: [extract_latest_readings_block] looks only at
    the contents of the last wrapper and there only at the last block that
    an end line closes (wrappers and texts without [<] apart from the
    tags); [parse_readings] does no such selection and reads the lines of
    every block of the text it is given. *)
Theorem latest_block_of_last_wrapper :
  (forall (ws : list (string * string)) (junk body tail : string)
          (pre blk post : list string) (b e : string),
      wrappers_free ws -> tag_free junk -> tag_free body -> tag_free tail ->
      PyStr.split_nl body = pre ++ b :: blk ++ e :: post ->
      is_begin b = true -> forallb is_plain blk = true -> is_end e = true ->
      forallb (fun l => negb (is_end l)) post = true ->
      extract_latest_readings_block (wrapped (ws ++ [(junk, body)]) tail)
      = PyStr.join_nl blk)
  /\ (forall response : string,
         S3Live.parse_readings response
         = omap S3Live.line_reading (block_lines false (PyStr.split_nl response))).
Proof.
  split.
  - intros ws junk body tail pre blk post b e Hws Hj Hb Ht Hsplit Hbegin Hblk Hend Hpost.
    rewrite extract_last_wrapper by assumption.
    now apply (latest_block_last body pre blk post b e).
  - intros response. apply parse_lines_block_lines.
Qed.

Lemma latest_block_of_last_wrapper_witness :
  extract_latest_readings_block two_wrappers_text = second_record.
Proof.
  destruct latest_block_of_last_wrapper as [Hextract _].
  apply (Hextract [(EmptyString, block_of first_record)] nl
           (block_of second_record) EmptyString
           [EmptyString] [second_record] [EmptyString]
           "---BEGIN_READINGS---" "---END_READINGS---").
  - constructor; [split; reflexivity | constructor].
  - reflexivity.
  - reflexivity.
  - reflexivity.
  - vm_compute. reflexivity.
  - reflexivity.
  - reflexivity.
  - reflexivity.
  - reflexivity.
Defined.

(** C2 fails for the readings that are returned: [parse_readings] returns
    the reading of the first wrapper's block as well, and what
    [extract_latest_readings_block] gives is a block without its
    delimiters, from which [parse_readings] reads nothing. *)
Lemma earlier_block_is_returned :
  S3Live.parse_readings two_wrappers_text
  = [ mkReading "2025-07-23 05:13:05" "999" "141004265912" "24.86";
      mkReading "2025-07-23 05:14:05" "999" "141004265912" "25.10" ]
  /\ extract_latest_readings_block two_wrappers_text = second_record
  /\ S3Live.parse_readings (extract_latest_readings_block two_wrappers_text) = [].
Proof. repeat split; vm_compute; reflexivity. Qed.

(** ** Marker-delimited variables *)

Lemma first_value_app (smark emark : string) (a b : list string) :
  first_value smark emark (a ++ b)
  = match first_value smark emark a with
    | Some x => Some x
    | None => first_value smark emark b
    end.
Proof.
  unfold first_value. induction a as [|x a IH]; simpl; [reflexivity |].
  now destruct (PyStr.truthy x && negb (String.eqb x smark) && negb (String.eqb x emark)).
Qed.

Lemma scan_lines_found (smark emark : string) (lines : list string) :
  smark <> emark ->
  forall lines_between,
  first_value smark emark (scan_lines smark emark true lines_between lines)
  = match first_value smark emark lines_between with
    | Some x => Some x
    | None => first_value smark emark (body_until emark lines)
    end.
Proof.
  intros Hne. induction lines as [|l rest IH]; intros lb; simpl.
  - now destruct (first_value smark emark lb).
  - unfold marker_step. destruct (String.eqb_spec l smark) as [->|Hs].
    + destruct (String.eqb_spec smark emark) as [|_]; [contradiction |].
      cbn [fst snd]. rewrite IH. unfold first_value at 3. simpl.
      rewrite String.eqb_refl. rewrite andb_false_r. reflexivity.
    + cbn [andb]. destruct (String.eqb_spec l emark) as [->|He].
      * now destruct (first_value smark emark lb).
      * cbn [fst snd]. rewrite IH, first_value_app.
        destruct (first_value smark emark lb); [reflexivity |].
        unfold first_value. simpl.
        now destruct (PyStr.truthy l && negb (String.eqb l smark) && negb (String.eqb l emark)).
Qed.

(** The loop computes the value of the specification. *)
Lemma scan_lines_value (var : string) (lines : list string) :
  start_marker var <> end_marker var ->
  first_value (start_marker var) (end_marker var)
    (scan_lines (start_marker var) (end_marker var) false [] lines)
  = marker_value var lines.
Proof.
  intros Hne. unfold marker_value.
  induction lines as [|l rest IH]; simpl; [reflexivity |].
  unfold marker_step. destruct (String.eqb_spec l (start_marker var)) as [->|Hs].
  - cbn [fst snd]. now rewrite scan_lines_found.
  - cbn [andb fst snd]. exact IH.
Qed.

Lemma app_inv_prefix (a b c : string) : a +:+ b = a +:+ c -> b = c.
Proof. induction a as [|x a IH]; simpl; [auto |]. intros H. inversion H. auto. Qed.

Lemma markers_differ (var : string) : start_marker var <> end_marker var.
Proof.
  unfold start_marker, end_marker. intros H.
  apply app_inv_prefix in H. apply app_inv_prefix in H. discriminate.
Qed.

Lemma marker_value_absent (var : string) (lines : list string) :
  ~ In (start_marker var) lines -> marker_value var lines = None.
Proof.
  intros Hnot. unfold marker_value.
  assert (H : marker_body (start_marker var) (end_marker var) lines = None);
    [| now rewrite H].
  induction lines as [|l rest IH]; simpl; [reflexivity |].
  destruct (String.eqb_spec l (start_marker var)) as [->|Hs].
  - exfalso. apply Hnot. now left.
  - apply IH. intros Hin. apply Hnot. now right.
Qed.

(** The table of the marker names. *)
Lemma marker_base_table :
  marker_base "rfidOnTimeMs" = "RFIDONTIME"
  /\ marker_base "periodicIntervalMs" = "PERIODICINTERVAL"
  /\ marker_base "ssid" = "SSID"
  /\ marker_base "password" = "PASSWORD"
  /\ marker_base "longPressMs" = "LONGPRESSMS".
Proof. repeat split; vm_compute; reflexivity. Qed.

Lemma marker_base_unmapped (var : string) :
  ~ In var ["rfidOnTimeMs"; "periodicIntervalMs"; "ssid"; "password"; "longPressMs"] ->
  marker_base var = PyStr.upper var.
Proof.
  intros Hnot. unfold marker_base, marker_map.
  rewrite !lookup_insert_ne, lookup_empty; [reflexivity |..];
    intros <-; apply Hnot; simpl; tauto.
Qed.

Lemma is_serial_valid_clean (w : World) :
  clean w -> S3Live.is_serial_valid ThePort w = (Ok true, w).
Proof. intros [_ Ho]. unfold S3Live.is_serial_valid, gets. now rewrite Ho. Qed.

(** On a link without faults the reading loop of the S3 dashboard runs
    the scan over the lines it takes from the port. *)
Lemma s3_get_loop_scans (smark emark : string) (start : Z) (fuel : nat) :
  forall (found : bool) (lb : list string) (w : World),
  clean w -> 0 < tick w -> (1 <= fuel)%nat ->
  start + GET_TIMEOUT - now w <= (Z.of_nat fuel - 1) * tick w ->
  exists seen w',
    S3Live.get_loop fuel ThePort smark emark start found lb w
    = (Ok (LoopDone (scan_lines smark emark found lb (map received seen))), w')
    /\ rx (port w) = seen ++ rx (port w')
    /\ clean w'.
Proof.
  induction fuel as [|fuel IH]; intros found lb w Hc Htick Hpos Hfuel; [lia |].
  cbn [S3Live.get_loop]. unfold bind at 1, time_time, gets.
  destruct (now w - start <? GET_TIMEOUT) eqn:Hlt; cbn [negb].
  2:{ exists [], w. cbn. auto. }
  rewrite bind_run, (is_serial_valid_clean w Hc). cbn [negb].
  rewrite bind_run. unfold try_except_serial. rewrite bind_run.
  pose proof (ser_in_waiting_inv w) as Hw.
  destruct (ser_in_waiting ThePort w) as [[b|e|] w1];
    [| contradiction | contradiction].
  destruct Hw as (Hn1 & Ht1 & Hrx1 & Hb & Hc1). specialize (Hc1 Hc).
  assert (Hfuel1 : (1 <= fuel)%nat) by nia.
  destruct b.
  - rewrite bind_run.
    pose proof (ser_readline_inv w1) as Hr.
    destruct (ser_readline ThePort w1) as [[raw|e|] w2];
      [| contradiction | contradiction].
    destruct Hr as (Hn2 & Ht2 & Hc2 & Hhead). specialize (Hc2 Hc1).
    destruct (rx (port w)) as [|e rest] eqn:Hrx; [discriminate |].
    destruct (Hhead e rest) as (Hraw & Hrest & Hnow);
      [congruence | rewrite Hn1; now symmetry |].
    cbn [ret]. subst raw.
    change (PyStr.strip (decode_ignore (snd e))) with (received e).
    destruct (marker_step smark emark found lb (received e)) as [st|] eqn:Hstep.
    + destruct (IH (fst st) (snd st) w2) as (seen & w' & Hrun & Hseen & Hc');
        [exact Hc2 | lia | exact Hfuel1 | rewrite Ht2, Ht1; nia |].
      exists (e :: seen), w'. rewrite Hrun. cbn [map scan_lines].
      rewrite Hstep. split; [reflexivity |]. split; [| exact Hc'].
      simpl. congruence.
    + exists [e], w2. cbn [map scan_lines]. rewrite Hstep.
      split; [reflexivity |]. split; [| exact Hc2]. simpl. congruence.
  - cbn [ret fst snd]. destruct (IH found lb w1) as (seen & w' & Hrun & Hseen & Hc');
      [exact Hc1 | lia | exact Hfuel1 | rewrite Ht1; nia |].
    exists seen, w'. rewrite Hrun. split; [reflexivity |].
    split; [congruence | exact Hc'].
Qed.

(** The same for the reading loop of the older dashboard. *)
Lemma old_get_loop_scans (smark emark : string) (start : Z) (fuel : nat) :
  forall (found : bool) (lb : list string) (w : World),
  clean w -> 0 < tick w -> (1 <= fuel)%nat ->
  start + GET_TIMEOUT - now w <= (Z.of_nat fuel - 1) * tick w ->
  exists seen w',
    MultiButton.get_loop fuel ThePort smark emark start found lb w
    = (Ok (scan_lines smark emark found lb (map received seen)), w')
    /\ rx (port w) = seen ++ rx (port w')
    /\ clean w'.
Proof.
  induction fuel as [|fuel IH]; intros found lb w Hc Htick Hpos Hfuel; [lia |].
  cbn [MultiButton.get_loop]. unfold bind at 1, time_time, gets.
  destruct (now w - start <? GET_TIMEOUT) eqn:Hlt; cbn [negb].
  2:{ exists [], w. cbn. auto. }
  rewrite bind_run.
  pose proof (ser_in_waiting_inv w) as Hw.
  destruct (ser_in_waiting ThePort w) as [[b|e|] w1];
    [| contradiction | contradiction].
  destruct Hw as (Hn1 & Ht1 & Hrx1 & Hb & Hc1). specialize (Hc1 Hc).
  assert (Hfuel1 : (1 <= fuel)%nat) by nia.
  destruct b.
  - rewrite bind_run.
    pose proof (ser_readline_inv w1) as Hr.
    destruct (ser_readline ThePort w1) as [[raw|e|] w2];
      [| contradiction | contradiction].
    destruct Hr as (Hn2 & Ht2 & Hc2 & Hhead). specialize (Hc2 Hc1).
    destruct (rx (port w)) as [|e rest] eqn:Hrx; [discriminate |].
    destruct (Hhead e rest) as (Hraw & Hrest & Hnow);
      [congruence | rewrite Hn1; now symmetry |].
    subst raw.
    change (PyStr.strip (decode_ignore (snd e))) with (received e).
    destruct (marker_step smark emark found lb (received e)) as [st|] eqn:Hstep.
    + destruct (IH (fst st) (snd st) w2) as (seen & w' & Hrun & Hseen & Hc');
        [exact Hc2 | lia | exact Hfuel1 | rewrite Ht2, Ht1; nia |].
      exists (e :: seen), w'. rewrite Hrun. cbn [map scan_lines].
      rewrite Hstep. split; [reflexivity |]. split; [| exact Hc'].
      simpl. congruence.
    + exists [e], w2. cbn [map scan_lines]. rewrite Hstep.
      split; [reflexivity |]. split; [| exact Hc2]. simpl. congruence.
  - destruct (IH found lb w1) as (seen & w' & Hrun & Hseen & Hc');
      [exact Hc1 | lia | exact Hfuel1 | rewrite Ht1; nia |].
    exists seen, w'. rewrite Hrun. split; [reflexivity |].
    split; [congruence | exact Hc'].
Qed.

(** On a link without faults the operations on the port succeed. *)
Lemma io_guard_clean (w : World) :
  clean w ->
  exists w', io_guard ThePort w = (Ok tt, w')
             /\ clean w' /\ now w' = now w /\ tick w' = tick w
             /\ rx (port w') = rx (port w).
Proof.
  intros Hc. pose proof (io_guard_inv w) as H.
  destruct (io_guard ThePort w) as [[[]|e|] w1]; [| contradiction | contradiction].
  destruct H as (Hn & Ht & Hr & Hc'). exists w1. auto.
Qed.

Lemma ser_write_clean (data : string) (w : World) :
  clean w ->
  exists w', ser_write ThePort data w = (Ok tt, w')
             /\ clean w' /\ now w' = now w /\ tick w' = tick w
             /\ rx (port w') = rx (port w).
Proof.
  intros Hc. unfold ser_write. rewrite bind_run.
  destruct (io_guard_clean w Hc) as (w1 & -> & Hc1 & Hn & Ht & Hr).
  eexists. split; [reflexivity |]. cbn. auto.
Qed.

Lemma ser_flush_clean (w : World) :
  clean w ->
  exists w', ser_flush ThePort w = (Ok tt, w')
             /\ clean w' /\ now w' = now w /\ tick w' = tick w
             /\ rx (port w') = rx (port w).
Proof. apply io_guard_clean. Qed.

Lemma ser_reset_clean (w : World) :
  clean w ->
  exists w', ser_reset_input_buffer ThePort w = (Ok tt, w')
             /\ clean w' /\ now w' = now w /\ tick w' = tick w
             /\ rx (port w') = drop_arrived (now w) (rx (port w)).
Proof.
  intros Hc. unfold ser_reset_input_buffer. rewrite bind_run.
  destruct (io_guard_clean w Hc) as (w1 & -> & Hc1 & Hn & Ht & Hr).
  eexists. split; [reflexivity |]. cbn. rewrite Hn, Hr. auto.
Qed.

(** C6 on the link: on a port without faults both dashboards return the
    value that the specification's extraction gives on the lines taken
    from the port after the input buffer was cleared. *)
Lemma s3_get_variable_value (fuel : nat) (var : string) (w : World) :
  clean w -> get_fuel fuel w ->
  exists seen w',
    S3Live.get_variable_with_markers fuel ThePort var w
    = (Ok (marker_value var (map received seen)), w')
    /\ drop_arrived (now w + WAKE_DELAY) (rx (port w)) = seen ++ rx (port w').
Proof.
  intros Hc [Htick Hfuel]. unfold S3Live.get_variable_with_markers.
  rewrite bind_run, (is_serial_valid_clean w Hc). cbn [negb].
  rewrite bind_run. unfold try_except_serial at 1.
  unfold S3Live._wake_serial, try_except.
  rewrite !bind_run, (is_serial_valid_clean w Hc). cbn [negb].
  rewrite !bind_run.
  destruct (ser_write_clean nl w Hc) as (w1 & -> & Hc1 & Hn1 & Ht1 & Hr1).
  rewrite !bind_run.
  destruct (ser_flush_clean w1 Hc1) as (w2 & -> & Hc2 & Hn2 & Ht2 & Hr2).
  cbn [time_sleep modify]. rewrite ?bind_run.
  destruct (ser_reset_clean (set_now (now w2 + WAKE_DELAY) w2) Hc2)
    as (w3 & -> & Hc3 & Hn3 & Ht3 & Hr3).
  cbn [ret negb]. unfold try_except_serial. rewrite ?bind_run.
  destruct (ser_write_clean (command_line ("get " +:+ var)) w3 Hc3)
    as (w4 & -> & Hc4 & Hn4 & Ht4 & Hr4).
  rewrite ?bind_run.
  destruct (ser_flush_clean w4 Hc4) as (w5 & -> & Hc5 & Hn5 & Ht5 & Hr5).
  rewrite ?bind_run. cbn [time_sleep modify]. rewrite ?bind_run.
  unfold time_time, gets. cbn [now set_now tick] in *. rewrite ?bind_run.
  destruct (s3_get_loop_scans (start_marker var) (end_marker var)
              (now w5 + 50) fuel false [] (set_now (now w5 + 50) w5))
    as (seen & w' & Hrun & Hseen & Hc'); [exact Hc5 | cbn; lia | | |].
  - destruct fuel; [| lia]. cbn in *. unfold GET_TIMEOUT in *. nia.
  - cbn in *. unfold GET_TIMEOUT in *. nia.
  - rewrite Hrun. exists seen, w'. split.
    + cbn [ret]. now rewrite scan_lines_value by apply markers_differ.
    + cbn in Hseen, Hr3. rewrite <- Hseen, Hr5, Hr4, Hr3, Hr2, Hr1, Hn2, Hn1.
      reflexivity.
Qed.

Lemma old_get_variable_value (fuel : nat) (var : string) (w : World) :
  clean w -> get_fuel fuel w ->
  exists seen w',
    MultiButton.get_variable_with_markers fuel ThePort var w
    = (Ok (marker_value var (map received seen)), w')
    /\ drop_arrived (now w + WAKE_DELAY) (rx (port w)) = seen ++ rx (port w').
Proof.
  intros Hc [Htick Hfuel]. unfold MultiButton.get_variable_with_markers.
  rewrite bind_run. unfold MultiButton._wake_serial, try_except.
  rewrite ?bind_run.
  destruct (ser_write_clean nl w Hc) as (w1 & -> & Hc1 & Hn1 & Ht1 & Hr1).
  rewrite ?bind_run.
  destruct (ser_flush_clean w1 Hc1) as (w2 & -> & Hc2 & Hn2 & Ht2 & Hr2).
  cbn [time_sleep modify]. rewrite ?bind_run.
  destruct (ser_reset_clean (set_now (now w2 + WAKE_DELAY) w2) Hc2)
    as (w3 & -> & Hc3 & Hn3 & Ht3 & Hr3).
  rewrite ?bind_run.
  destruct (ser_write_clean (command_line ("get " +:+ var)) w3 Hc3)
    as (w4 & -> & Hc4 & Hn4 & Ht4 & Hr4).
  rewrite ?bind_run.
  destruct (ser_flush_clean w4 Hc4) as (w5 & -> & Hc5 & Hn5 & Ht5 & Hr5).
  rewrite ?bind_run. cbn [time_sleep modify]. rewrite ?bind_run.
  unfold time_time, gets. cbn [now set_now tick] in *. rewrite ?bind_run.
  destruct (old_get_loop_scans (start_marker var) (end_marker var)
              (now w5 + 50) fuel false [] (set_now (now w5 + 50) w5))
    as (seen & w' & Hrun & Hseen & Hc'); [exact Hc5 | cbn; lia | | |].
  - destruct fuel; [| lia]. cbn in *. unfold GET_TIMEOUT in *. nia.
  - cbn in *. unfold GET_TIMEOUT in *. nia.
  - rewrite Hrun. exists seen, w'. split.
    + cbn [ret]. now rewrite scan_lines_value by apply markers_differ.
    + cbn in Hseen, Hr3. rewrite <- Hseen, Hr5, Hr4, Hr3, Hr2, Hr1, Hn2, Hn1.
      reflexivity.
Qed.

(** C6: the marker of a variable comes from the table, or is the
    upper-cased name; on a port without faults both dashboards return the
    first non-empty, non-marker line between the begin and the end marker
    among the lines received after the command; and when no received line
    is the begin marker the value is [None]. *)
Theorem marker_extraction :
  (marker_base "rfidOnTimeMs" = "RFIDONTIME"
   /\ marker_base "periodicIntervalMs" = "PERIODICINTERVAL"
   /\ marker_base "ssid" = "SSID"
   /\ marker_base "password" = "PASSWORD"
   /\ marker_base "longPressMs" = "LONGPRESSMS")
  /\ (forall var : string,
         ~ In var ["rfidOnTimeMs"; "periodicIntervalMs"; "ssid"; "password";
                   "longPressMs"] ->
         marker_base var = PyStr.upper var)
  /\ (forall (fuel : nat) (var : string) (w : World),
         clean w -> get_fuel fuel w ->
         exists seen w',
           drop_arrived (now w + WAKE_DELAY) (rx (port w)) = seen ++ rx (port w')
           /\ S3Live.get_variable_with_markers fuel ThePort var w
              = (Ok (marker_value var (map received seen)), w')
           /\ (~ In (start_marker var) (map received seen) ->
               marker_value var (map received seen) = None))
  /\ (forall (fuel : nat) (var : string) (w : World),
         clean w -> get_fuel fuel w ->
         exists seen w',
           drop_arrived (now w + WAKE_DELAY) (rx (port w)) = seen ++ rx (port w')
           /\ MultiButton.get_variable_with_markers fuel ThePort var w
              = (Ok (marker_value var (map received seen)), w')
           /\ (~ In (start_marker var) (map received seen) ->
               marker_value var (map received seen) = None)).
Proof.
  split; [apply marker_base_table |].
  split; [apply marker_base_unmapped |].
  split.
  - intros fuel var w Hc Hf.
    destruct (s3_get_variable_value fuel var w Hc Hf) as (seen & w' & Hrun & Hseen).
    exists seen, w'. split; [exact Hseen |]. split; [exact Hrun |].
    apply marker_value_absent.
  - intros fuel var w Hc Hf.
    destruct (old_get_variable_value fuel var w Hc Hf) as (seen & w' & Hrun & Hseen).
    exists seen, w'. split; [exact Hseen |]. split; [exact Hrun |].
    apply marker_value_absent.
Qed.

Lemma marker_extraction_witness :
  (clean ssid_world /\ get_fuel 42%nat ssid_world)
  /\ (exists seen w',
         S3Live.get_variable_with_markers 42%nat ThePort "ssid" ssid_world
         = (Ok (marker_value "ssid" (map received seen)), w')
         /\ marker_value "ssid" (map received seen) = Some "LabNetwork")
  /\ (exists seen w',
         MultiButton.get_variable_with_markers 42%nat ThePort "ssid" ssid_world
         = (Ok (marker_value "ssid" (map received seen)), w')
         /\ marker_value "ssid" (map received seen) = Some "LabNetwork").
Proof.
  assert (Hc : clean ssid_world) by (split; reflexivity).
  assert (Hf : get_fuel 42%nat ssid_world)
    by (unfold get_fuel, GET_TIMEOUT; simpl; lia).
  split; [auto |].
  destruct marker_extraction as (_ & _ & Hs3 & Hold).
  destruct (Hs3 42%nat "ssid" ssid_world Hc Hf) as (seen & w' & _ & Hrun & _).
  destruct (Hold 42%nat "ssid" ssid_world Hc Hf) as (seen' & w'' & _ & Hrun' & _).
  split.
  - exists seen, w'. split; [exact Hrun |].
    assert (E : fst (S3Live.get_variable_with_markers 42%nat ThePort "ssid" ssid_world)
                = Ok (Some "LabNetwork")) by (vm_compute; reflexivity).
    rewrite Hrun in E. cbn [fst] in E. congruence.
  - exists seen', w''. split; [exact Hrun' |].
    assert (E : fst (MultiButton.get_variable_with_markers 42%nat ThePort "ssid" ssid_world)
                = Ok (Some "LabNetwork")) by (vm_compute; reflexivity).
    rewrite Hrun' in E. cbn [fst] in E. congruence.
Defined.

(** ** Failure accounting of the live view *)

Ltac run_session :=
  unfold S3Live.count_failure, S3Live.drop_connection, session_put,
    session_get, st_error, st_warning, st_info, st_rerun, try_except, bind,
    modify, gets, raise, ret, ser_close, time_time in *;
  cbn in *.

Lemma count_failure_counted (msg : string) (w : World) :
  failure_counted msg w (S3Live.count_failure msg w).
Proof.
  unfold failure_counted. run_session.
  destruct (connection_error_count (session w) + 1 >=? S3Live.MAX_ERRORS) eqn:E.
  - cbn. destruct (serial_connection (session w)); cbn;
      unfold S3Live.watch_active; cbn; rewrite ?andb_false_r; auto 10.
  - cbn. auto.
Qed.

Lemma shown_nil (w : World) : shown [] w = w.
Proof. destruct w. unfold shown. cbn. now rewrite app_nil_r. Qed.

Lemma shown_cons (e : ui_event) (es : list ui_event) (w : World) :
  shown es (show e w) = shown (e :: es) w.
Proof. unfold shown, show. cbn. now rewrite <- app_assoc. Qed.

(** The conversion of the timestamps shows its errors and changes
    nothing else. *)
Lemma convert_timestamps_run (utc_to_local : string -> string -> option string)
    (tz : string) (readings : list Reading) (w : World) :
  S3Live.convert_timestamps utc_to_local tz readings w
  = (Ok (converted utc_to_local tz readings),
     shown (conversion_errors utc_to_local tz readings) w).
Proof.
  revert w. induction readings as [|r rest IH]; intros w.
  - cbn. now rewrite shown_nil.
  - cbn [S3Live.convert_timestamps]. unfold converted, conversion_errors.
    cbn [map flat_map]. fold (converted utc_to_local tz rest).
    fold (conversion_errors utc_to_local tz rest).
    unfold S3Live.convert_timestamp_to_timezone, local_timestamp at 1.
    destruct (utc_to_local (Timestamp r) tz) as [local|]; cbn [app].
    + rewrite bind_run. cbn [ret]. rewrite bind_run, IH. reflexivity.
    + rewrite bind_run. unfold st_error, modify.
      rewrite bind_run. cbn [ret]. rewrite bind_run, IH, shown_cons.
      reflexivity.
Qed.

Section PollFacts.

Variable to_epoch : string -> Z -> Z.
Variable utc_to_local : string -> string -> option string.
Variable to_dataframe : list Reading -> option DataFrame.

Lemma poll_accounting (fuel : nat) (tz : string) (start_epoch_live : Z)
    (w : World) (response : string) (w1 : World) :
  S3Live.send_command fuel (serial_connection (session w))
    (S3Live.range_command start_epoch_live (to_epoch tz (now w))) w
  = (Ok response, w1) ->
  poll_accounted utc_to_local to_dataframe tz response w
    (S3Live.auto_refresh_poll to_epoch utc_to_local to_dataframe fuel tz start_epoch_live w).
Proof.
  intros Hsend.
  destruct (link_send_command fuel (serial_connection (session w))
              (S3Live.range_command start_epoch_live (to_epoch tz (now w))) w)
    as [(_ & _ & Hs & Hu & _) _].
  rewrite Hsend in Hs, Hu. cbn [snd] in Hs, Hu.
  remember (S3Live.auto_refresh_poll to_epoch utc_to_local to_dataframe fuel tz
              start_epoch_live w) as r eqn:Hr.
  unfold S3Live.auto_refresh_poll in Hr.
  unfold time_time, gets in Hr. rewrite bind_run in Hr. cbn iota beta in Hr.
  rewrite bind_run in Hr. unfold try_except at 1 in Hr.
  unfold session_get at 1, gets in Hr. rewrite bind_run in Hr.
  cbn iota beta in Hr. rewrite bind_run, Hsend in Hr. cbn iota beta in Hr.
  unfold S3Live.handle_poll_response in Hr. fold (blank response) in Hr.
  unfold session_put at 1, modify in Hr. rewrite bind_run in Hr.
  cbn iota beta in Hr.
  unfold poll_accounted. destruct (blank response).
  - pose proof (count_failure_counted
        "Connection Error: ESP32 is not responding. Please check connection."
        (set_session (put_last_raw_response (Some response) (session w1)) w1))
      as H.
    destruct (S3Live.count_failure _ _) as [o w2].
    unfold failure_counted in *. cbn in H. rewrite Hs, Hu in H.
    destruct H as [Hdf H].
    destruct (connection_error_count (session w) + 1 >=? S3Live.MAX_ERRORS).
    + destruct H as (-> & H2 & H3 & H4 & H5). cbn in Hr. subst r. cbn. auto 10.
    + destruct H as (-> & H2 & H3 & H4). cbn in Hr. subst r. cbn. auto 10.
  - unfold session_put at 1, modify in Hr. rewrite bind_run in Hr.
    cbn iota beta in Hr.
    destruct (S3Live.parse_readings response) as [|rd rest].
    + cbn in Hr. subst r. cbn. rewrite Hs, Hu. auto.
    + unfold S3Live.store_readings in Hr.
      rewrite bind_run, convert_timestamps_run in Hr. cbn iota beta in Hr.
      destruct (to_dataframe (converted utc_to_local tz (rd :: rest))) as [df|].
      * cbn in Hr. subst r. cbn. rewrite Hs, Hu. auto.
      * cbn in Hr. subst r. change (0 + 1 >=? S3Live.MAX_ERRORS) with false.
        cbn. rewrite Hs, Hu. auto.
Qed.

End PollFacts.

(** ** The quick connection test *)

Lemma link_quick_loop (P : string -> Prop) (fuel : nat) (ser : serial_ref)
    (start : Z) :
  link_comp P (S3Live.quick_loop fuel ser start).
Proof.
  induction fuel as [|fuel IH]; simpl.
  - apply link_diverge.
  - link_auto; apply IH.
Qed.

Lemma link_test_connection_quick (fuel : nat) (ser : serial_ref) :
  link_comp (wire "status") (S3Live.test_connection_quick fuel ser).
Proof.
  unfold S3Live.test_connection_quick.
  link_auto; try (now right). apply link_quick_loop.
Qed.

(** The loop of the quick test ends before its fuel. *)
Lemma quick_loop_settles (start : Z) (fuel : nat) :
  forall w : World,
  0 < tick w -> (1 <= fuel)%nat ->
  start + S3Live.QUICK_TIMEOUT - now w <= (Z.of_nat fuel - 1) * tick w ->
  settles w (fst (S3Live.quick_loop fuel ThePort start w)).
Proof.
  induction fuel as [|fuel IH]; intros w Htick Hpos Hfuel; [lia |].
  cbn [S3Live.quick_loop]. unfold bind at 1, time_time, gets.
  destruct (now w - start <? S3Live.QUICK_TIMEOUT) eqn:Hlt; cbn [negb].
  2:{ cbn. auto. }
  apply Z.ltb_lt in Hlt.
  rewrite bind_run.
  pose proof (ser_in_waiting_inv w) as Hw.
  destruct (ser_in_waiting ThePort w) as [[b|e|] w1]; [| simpl; auto | contradiction].
  destruct Hw as (Hn1 & Ht1 & _ & _ & Hc1). apply (settles_later w w1); [exact Hc1 |].
  assert (Hfuel1 : (1 <= fuel)%nat) by nia.
  destruct b.
  - rewrite bind_run.
    pose proof (ser_readline_inv w1) as Hr.
    destruct (ser_readline ThePort w1) as [[raw|e|] w2]; [| simpl; auto | contradiction].
    destruct Hr as (Hn2 & Ht2 & Hc2 & _). apply (settles_later w1 w2); [exact Hc2 |].
    destruct (S3Live.is_status_reply _); [cbn; auto |].
    apply IH; [lia | exact Hfuel1 | rewrite Ht2, Ht1; nia].
  - apply IH; [lia | exact Hfuel1 | rewrite Ht1; nia].
Qed.

Lemma page_fuel_enough (fuel : nat) (w : World) :
  page_fuel fuel w -> enough_fuel fuel w.
Proof. intros [H1 H2]. split; [exact H1 | lia]. Qed.

Lemma settles_bind {A B : Type} (P : string -> Prop) (m : M A)
    (k : A -> M B) (w : World) :
  link_comp P m -> settles w (fst (m w)) ->
  (forall a w1, link_step P w w1 -> settles w1 (fst (k a w1))) ->
  settles w (fst (bind m k w)).
Proof.
  intros Hl Hm Hk. rewrite bind_run.
  destruct (Hl w) as [Hs _].
  destruct (m w) as [[a|e|] w1]; simpl in *.
  - apply (settles_later w w1); [now apply (link_step_clean P) |].
    now apply Hk.
  - destruct Hm as [_ Hm]. split; [discriminate |].
    intros Hc e' _. now apply (Hm Hc e).
  - destruct Hm as [Hm _]. now contradiction Hm.
Qed.

Lemma test_connection_quick_returns (fuel : nat) (ser : serial_ref) (w : World) :
  page_fuel fuel w ->
  exists v w', S3Live.test_connection_quick fuel ser w = (Ok v, w').
Proof.
  intros Hpf. pose proof (page_fuel_enough fuel w Hpf) as Hf.
  destruct Hpf as [Htick Hpf].
  unfold S3Live.test_connection_quick.
  destruct ser; [cbn; eauto |].
  rewrite bind_run. cbn [S3Live.is_serial_valid gets].
  destruct (is_open (port w)); cbn [negb]; [| cbn; eauto].
  assert (Hb : settles w (fst ((ser_reset_input_buffer ThePort >>
             ser_write ThePort (command_line "status") >>
             ser_flush ThePort >>
             time_sleep 100 >>
             let* start_time := time_time in
             S3Live.quick_loop fuel ThePort start_time) w))).
  { apply (settles_bind anything);
      [apply link_ser_reset | now apply (behaves_ser_reset fuel) |].
    intros _ w1 L1. apply (settles_bind anything);
      [apply link_ser_write; exact I
      | apply (behaves_ser_write fuel); now apply (link_step_fuel anything _ w) |].
    intros _ w2 L2. pose proof (link_step_trans _ _ _ _ L1 L2) as L12.
    apply (settles_bind anything);
      [apply link_ser_flush
      | apply (behaves_ser_flush fuel); now apply (link_step_fuel anything _ w) |].
    intros _ w3 L3. pose proof (link_step_trans _ _ _ _ L12 L3) as L13.
    apply (settles_bind anything);
      [apply link_time_sleep; vm_compute; discriminate
      | apply (behaves_time_sleep fuel); now apply (link_step_fuel anything _ w) |].
    intros _ w4 L4. pose proof (link_step_trans _ _ _ _ L13 L4) as L14.
    destruct L14 as (Ht & _).
    unfold bind, time_time, gets.
    apply quick_loop_settles; [lia | nia |].
    unfold S3Live.QUICK_TIMEOUT. rewrite Ht. nia. }
  assert (Hl : link_comp anything
            (ser_reset_input_buffer ThePort >>
             ser_write ThePort (command_line "status") >>
             ser_flush ThePort >>
             time_sleep 100 >>
             let* start_time := time_time in
             S3Live.quick_loop fuel ThePort start_time)).
  { link_auto; try exact I. apply link_quick_loop. }
  unfold try_except.
  destruct (Hl w) as [_ Hr]. destruct Hb as [Hd _].
  destruct ((ser_reset_input_buffer ThePort >> _) w) as [[v|e|] w1];
    simpl in *; [eauto | | contradiction].
  destruct e; cbn; eauto. now contradiction Hr.
Qed.

Section WatchFacts.

Variable to_epoch : string -> Z -> Z.
Variable utc_to_local : string -> string -> option string.
Variable to_dataframe : list Reading -> option DataFrame.

Lemma watchdog_accounting (fuel : nat) (w : World) :
  page_fuel fuel w ->
  live_view_enabled (session w) = true ->
  now w - last_connection_test (session w) > S3Live.CONNECTION_TEST_PERIOD ->
  exists v w1,
    S3Live.test_connection_quick fuel (serial_connection (session w))
      (set_session (put_last_connection_test (now w) (session w)) w)
    = (Ok v, w1)
    /\ watchdog_accounted v w (S3Live.connection_watchdog fuel w).
Proof.
  intros Hf Hen Hdue.
  destruct (test_connection_quick_returns fuel (serial_connection (session w))
              (set_session (put_last_connection_test (now w) (session w)) w))
    as (v & w1 & Htest); [exact Hf |].
  exists v, w1. split; [exact Htest |].
  destruct (link_test_connection_quick fuel (serial_connection (session w))
              (set_session (put_last_connection_test (now w) (session w)) w))
    as [(_ & _ & Hs & Hu & _) _].
  rewrite Htest in Hs, Hu. cbn [snd] in Hs, Hu.
  remember (S3Live.connection_watchdog fuel w) as r eqn:Hr.
  unfold S3Live.connection_watchdog in Hr.
  unfold session_get at 1, gets in Hr. rewrite bind_run in Hr.
  cbn iota beta in Hr. rewrite Hen in Hr.
  unfold time_time, gets in Hr. rewrite bind_run in Hr. cbn iota beta in Hr.
  apply Z.gt_lt, Z.gtb_lt in Hdue. rewrite Hdue in Hr.
  unfold session_put at 1, modify in Hr. rewrite bind_run in Hr.
  cbn iota beta in Hr. rewrite bind_run, Htest in Hr. cbn iota beta in Hr.
  unfold watchdog_accounted. destruct v; cbn [negb] in Hr.
  - subst r. cbn. rewrite Hs, Hu. auto.
  - pose proof (count_failure_counted
        "Connection Lost: ESP32 is not responding. Please reconnect." w1) as H.
    rewrite <- Hr in H. unfold failure_counted in *.
    rewrite Hs, Hu in H. exact H.
Qed.

(** A run of the tab on a disconnected session: nothing is sent, the user
    is asked to connect, the live view is stopped and the page does not
    rerun itself. *)
Lemma disconnected_run (fuel : nat) (inp : S3Live.RunInput) (w : World) :
  connected (session w) = false ->
  let r := S3Live.dashboard_tab to_epoch utc_to_local to_dataframe fuel inp w in
  fst r = Ok tt
  /\ port (snd r) = port w
  /\ ui (snd r)
     = ui w ++ [StInfo "Please connect to your RFID reader using the sidebar."]
  /\ live_view_enabled (session (snd r))
     && negb (live_view_stop_requested (session (snd r))) = false
  /\ last_df (session (snd r)) = last_df (session w).
Proof.
  intros Hc r. subst r.
  unfold S3Live.dashboard_tab, S3Live.startup_validation, S3Live.page_tail,
    S3Live.watch_active.
  run_session. repeat (progress (cbn; rewrite ?Hc, ?andb_false_r)).
  destruct (live_view_enabled (session w)) eqn:He;
    destruct (live_view_stop_requested (session w)) eqn:Hst;
    repeat (progress (cbn; rewrite ?He, ?Hst)); auto 10.
Qed.

End WatchFacts.

(** ** The window of the live view *)

Section LiveWindow.

Variable to_epoch : string -> Z -> Z.
Variable utc_to_local : string -> string -> option string.
Variable to_dataframe : list Reading -> option DataFrame.
Variable fuel : nat.
Variable inp : S3Live.RunInput.

Variable live : bool.
Variable start : option Z.

Local Abbreviation poll_line := (poll_line to_epoch inp start).
Local Abbreviation run_line := (run_line to_epoch inp live start).
Local Abbreviation page_step := (page_step to_epoch inp live start).
Local Abbreviation page_comp := (page_comp to_epoch inp live start).
Local Abbreviation run_post := (run_post to_epoch inp live start).

Lemma run_line_widen (lo hi lo' hi' : Z) (x : string) :
  lo' <= lo -> hi <= hi' -> run_line lo hi x -> run_line lo' hi' x.
Proof.
  intros Hlo Hhi [H | [H | [H | [Hl (a & b & Ha & Hab & Hb & Hx)]]]];
    unfold run_line; auto.
  right; right; right. split; [exact Hl |].
  exists a, b. repeat split; auto; lia.
Qed.

Lemma page_step_refl (w : World) : page_step w w.
Proof.
  intros _. repeat split; try reflexivity; try lia.
  - now left.
  - exists []. split; [now rewrite app_nil_r | constructor].
Qed.

Lemma page_step_trans (w1 w2 w3 : World) :
  page_step w1 w2 -> page_step w2 w3 -> page_step w1 w3.
Proof.
  intros H12 H23 Hpos.
  destruct (H12 Hpos) as (Ht & Hn & He & Hs & Hc & Hts & l & Hl & HP).
  destruct H23 as (Ht' & Hn' & He' & Hs' & Hc' & Hts' & l' & Hl' & HP');
    [now rewrite Ht |].
  repeat split; try congruence; try lia.
  - destruct Hts as [Hts | (Hnone & t & Hb & Hts)];
      destruct Hts' as [Hts' | (Hnone' & t' & Hb' & Hts')].
    + left. congruence.
    + right. split; [congruence |]. exists t'. split; [lia | exact Hts'].
    + right. split; [exact Hnone |]. exists t. split; [lia | congruence].
    + congruence.
  - exists (l ++ l'). split; [rewrite Hl', Hl; now rewrite app_assoc |].
    apply Forall_app. split.
    + eapply Forall_impl; [exact HP |]. intros x. apply run_line_widen; lia.
    + eapply Forall_impl; [exact HP' |]. intros x. apply run_line_widen; lia.
Qed.

Lemma page_bind_at {A B : Type} (m : M A) (k : A -> M B) (w : World) :
  page_step w (snd (m w)) ->
  (forall a w1, m w = (Ok a, w1) ->
     tick w1 = tick w -> now w <= now w1 -> page_step w1 (snd (k a w1))) ->
  page_step w (snd (bind m k w)).
Proof.
  intros Hm Hk Hpos. rewrite bind_run. pose proof (Hm Hpos) as Hf.
  destruct (m w) as [[a|e|] w1]; simpl in *; auto.
  destruct Hf as (Ht & Hn & _).
  apply (page_step_trans w w1); auto.
Qed.

Lemma page_try_except_at {A : Type} (m : M A) (h : exn -> M A) (w : World) :
  page_step w (snd (m w)) ->
  (forall e w1, m w = (Raise e, w1) ->
     tick w1 = tick w -> now w <= now w1 -> page_step w1 (snd (h e w1))) ->
  page_step w (snd (try_except m h w)).
Proof.
  intros Hm Hh Hpos. unfold try_except. pose proof (Hm Hpos) as Hf.
  destruct (m w) as [[a|e|] w1]; simpl in *; auto.
  destruct (is_Exception e); [| auto].
  destruct Hf as (Ht & Hn & _).
  apply (page_step_trans w w1); auto.
Qed.

Lemma page_bind {A B : Type} (m : M A) (k : A -> M B) :
  page_comp m -> (forall a, page_comp (k a)) -> page_comp (bind m k).
Proof.
  intros Hm Hk w. apply page_bind_at; [apply Hm | intros a w1 _ _ _; apply Hk].
Qed.

Lemma page_try_except {A : Type} (m : M A) (h : exn -> M A) :
  page_comp m -> (forall e, page_comp (h e)) -> page_comp (try_except m h).
Proof.
  intros Hm Hh w. unfold try_except. specialize (Hm w).
  destruct (m w) as [[a|e|] w1]; simpl in *; auto.
  destruct (is_Exception e); [| exact Hm].
  apply (page_step_trans w w1); [exact Hm | apply Hh].
Qed.

Lemma page_ret {A : Type} (a : A) : page_comp (ret a).
Proof. intros w. apply page_step_refl. Qed.

Lemma page_raise {A : Type} (e : exn) : page_comp (@raise A e).
Proof. intros w. apply page_step_refl. Qed.

Lemma page_gets {A : Type} (f : World -> A) : page_comp (gets f).
Proof. intros w. apply page_step_refl. Qed.

Lemma page_step_frame (w w' : World) :
  tick w' = tick w -> now w' = now w ->
  live_view_enabled (session w') = live_view_enabled (session w) ->
  live_view_stop_requested (session w') = live_view_stop_requested (session w) ->
  live_view_checkbox (session w') = live_view_checkbox (session w) ->
  live_view_start_timestamp (session w') = live_view_start_timestamp (session w) ->
  tx (port w') = tx (port w) ->
  page_step w w'.
Proof.
  intros Ht Hn He Hs Hc Hts Hx _. repeat split; auto; try lia.
  - now left.
  - exists []. split; [now rewrite app_nil_r | constructor].
Qed.

Lemma page_session_put (f : Session -> Session) :
  keeps_live f -> page_comp (session_put f).
Proof.
  intros Hf w. destruct (Hf (session w)) as (He & Hs & Hc & Hts).
  apply page_step_frame; simpl; auto.
Qed.

Lemma page_show (e : ui_event) : page_comp (modify (show e)).
Proof. intros w. apply page_step_frame; reflexivity. Qed.

Lemma page_of_link {A : Type} (P : string -> Prop) (m : M A) (w : World) :
  (forall x, P x -> run_line (now w) (now w) x) ->
  link_step P w (snd (m w)) -> page_step w (snd (m w)).
Proof.
  intros HP (Ht & Hn & Hs & _ & _ & _ & l & Hl & Hall) Hpos.
  specialize (Hn Hpos). rewrite Hs.
  repeat split; auto.
  - now left.
  - exists l. split; [exact Hl |]. eapply Forall_impl; [exact Hall |].
    intros x Hx. apply (run_line_widen (now w) (now w)); [lia | lia | auto].
Qed.

Lemma page_link {A : Type} (P : string -> Prop) (m : M A) :
  (forall x, P x -> forall t, run_line t t x) ->
  link_comp P m -> page_comp m.
Proof.
  intros HP Hm w. apply (page_of_link P); [| apply Hm].
  intros x Hx. now apply HP.
Qed.

Lemma page_ser_close (ser : serial_ref) : page_comp (ser_close ser).
Proof.
  destruct ser; [apply page_raise |].
  intros w. apply page_step_frame; reflexivity.
Qed.

Lemma page_is_serial_valid (ser : serial_ref) :
  page_comp (S3Live.is_serial_valid ser).
Proof. destruct ser; [apply page_ret | apply page_gets]. Qed.

Ltac keeps := intros ?; repeat split; reflexivity.

Ltac page_rule :=
  lazymatch goal with
  | |- page_comp (bind _ _) => apply page_bind; [| intros ?]
  | |- page_comp (ret _) => apply page_ret
  | |- page_comp (gets _) => apply page_gets
  | |- page_comp (session_get _) => apply page_gets
  | |- page_comp time_time => apply page_gets
  | |- page_comp (session_put _) => apply page_session_put; keeps
  | |- page_comp (try_except _ _) => apply page_try_except; [| intros ?]
  | |- page_comp (st_error _) => apply page_show
  | |- page_comp (st_warning _) => apply page_show
  | |- page_comp (st_info _) => apply page_show
  | |- page_comp st_rerun => apply page_raise
  | |- page_comp (raise _) => apply page_raise
  | |- page_comp (ser_close _) => apply page_ser_close
  | |- page_comp (S3Live.is_serial_valid _) => apply page_is_serial_valid
  | |- page_comp (if ?b then _ else _) => destruct b eqn:?
  | |- page_comp (match ?x with _ => _ end) => destruct x eqn:?
  end.

Ltac page_auto := repeat page_rule.

Ltac everywhere :=
  lazymatch goal with
  | |- page_step ?w (snd (?m ?w)) =>
      let H := fresh in assert (H : page_comp m); [| exact (H w)]
  end.

Lemma page_drop_connection : page_comp S3Live.drop_connection.
Proof. unfold S3Live.drop_connection. page_auto. Qed.

Lemma page_count_failure (msg : string) : page_comp (S3Live.count_failure msg).
Proof.
  unfold S3Live.count_failure. page_auto. apply page_drop_connection.
Qed.

Lemma page_startup_validation : page_comp S3Live.startup_validation.
Proof. unfold S3Live.startup_validation. page_auto. Qed.

Lemma page_connection_watchdog : page_comp (S3Live.connection_watchdog fuel).
Proof.
  unfold S3Live.connection_watchdog. page_auto.
  - apply (page_link (wire "status")); [| apply link_test_connection_quick].
    intros x [-> | ->] t; unfold run_line; auto.
  - apply page_count_failure.
Qed.

Lemma page_auto_refresh_gate (sel : option Z) :
  page_comp (S3Live.auto_refresh_gate sel).
Proof.
  unfold S3Live.auto_refresh_gate. page_auto.
  (* the checkbox is part of the guard: its second test cannot fail *)
  exfalso. unfold S3Live.live_view_on in *.
  match goal with
  | H : live_view_checkbox ?s = false, G : _ && _ && _ = true |- _ =>
      rewrite H in G; discriminate G
  end.
Qed.

(** The start of the window: the stored timestamp, or the clock when none
    is stored. *)
Lemma live_range_start_run (tz : string) (w : World) :
  S3Live.live_range_start to_epoch tz w
  = if S3Live.live_view_on (session w) then
      match live_view_start_timestamp (session w) with
      | Some t => (Ok (Some (to_epoch tz t)), w)
      | None =>
          (Ok (Some (to_epoch tz (now w))),
           set_session
             (put_live_view_start_timestamp (Some (now w)) (session w)) w)
      end
    else (Ok None, w).
Proof.
  unfold S3Live.live_range_start. run_session.
  destruct (S3Live.live_view_on (session w)); [| reflexivity].
  destruct (live_view_start_timestamp (session w)); reflexivity.
Qed.

Lemma page_live_range_start (tz : string) :
  page_comp (S3Live.live_range_start to_epoch tz).
Proof.
  intros w. rewrite live_range_start_run.
  destruct (S3Live.live_view_on (session w)); [| apply page_step_refl].
  destruct (live_view_start_timestamp (session w)) eqn:Hts;
    [apply page_step_refl |].
  intros _. cbn. rewrite Hts. repeat split; try reflexivity; try lia.
  - right. split; [reflexivity |]. exists (now w). split; [lia | reflexivity].
  - exists []. split; [now rewrite app_nil_r | constructor].
Qed.

Lemma page_convert_timestamps (tz : string) (readings : list Reading) :
  page_comp (S3Live.convert_timestamps utc_to_local tz readings).
Proof.
  intros w. rewrite convert_timestamps_run. apply page_step_frame; reflexivity.
Qed.

Lemma page_store_readings (tz : string) (readings : list Reading) :
  page_comp (S3Live.store_readings utc_to_local to_dataframe tz readings).
Proof.
  unfold S3Live.store_readings.
  apply page_bind; [apply page_convert_timestamps |]. intros rs. page_auto.
Qed.

Lemma page_handle_poll_response (tz response : string) :
  page_comp (S3Live.handle_poll_response utc_to_local to_dataframe tz response).
Proof.
  unfold S3Live.handle_poll_response. page_auto;
    try apply page_count_failure; apply page_store_readings.
Qed.

(** A poll whose window starts at the stored timestamp writes a poll of
    the window that ends at the clock. *)
Lemma page_auto_refresh_poll (a : Z) (w : World) :
  live = true ->
  (forall t0, start = Some t0 -> a = t0) ->
  a <= now w ->
  page_step w
    (snd (S3Live.auto_refresh_poll to_epoch utc_to_local to_dataframe fuel
            (S3Live.in_timezone inp) (to_epoch (S3Live.in_timezone inp) a) w)).
Proof.
  intros Hlive Hstart Ha. unfold S3Live.auto_refresh_poll.
  apply page_bind_at; [apply page_gets |].
  intros t w0 Heq _ _. inversion Heq; subst t w0; clear Heq.
  apply page_bind_at; [| intros; apply page_session_put; keeps].
  apply page_try_except_at; [| intros; apply page_count_failure].
  apply page_bind_at; [apply page_gets |].
  intros ser w0 Heq _ _. inversion Heq; subst ser w0; clear Heq.
  apply page_bind_at; [| intros; apply page_handle_poll_response].
  eapply page_of_link; [| apply link_send_command].
  intros x [-> | ->]; unfold run_line; [now left |].
  right; right; right. split; [exact Hlive |].
  exists a, (now w). repeat split; auto; try lia.
Qed.

Lemma page_manual_retrieve :
  live = false -> S3Live.in_retrieve_clicked inp = true ->
  page_comp (S3Live.manual_retrieve utc_to_local to_dataframe fuel inp).
Proof.
  intros Hlive Hclick. unfold S3Live.manual_retrieve. page_auto.
  - apply (page_link (wire (S3Live.range_command (S3Live.in_start_epoch inp)
                                                  (S3Live.in_end_epoch inp))));
      [| apply link_send_command].
    intros x [-> | ->] t; unfold run_line; auto 10.
  - apply page_store_readings.
Qed.

Lemma page_fetch (live_on : bool) (sel : option Z) (should : bool) (w : World) :
  live_on = live ->
  (forall s, live_on = true -> sel = Some s ->
     exists a, s = to_epoch (S3Live.in_timezone inp) a /\ a <= now w
               /\ forall t0, start = Some t0 -> a = t0) ->
  page_step w
    (snd (S3Live.fetch to_epoch utc_to_local to_dataframe fuel inp live_on sel should w)).
Proof.
  intros Hlive Hsel. unfold S3Live.fetch.
  destruct (S3Live.in_retrieve_clicked inp && negb live_on || should) eqn:Hgo;
    [| apply page_step_refl].
  apply page_bind_at; [destruct should; [apply page_ret | apply page_session_put; keeps] |].
  intros _ w1 _ _ Hn1.
  apply page_bind_at; [apply page_gets |].
  intros ss w2 Heq _ _. inversion Heq; subst ss w2; clear Heq.
  apply page_bind_at; [apply page_is_serial_valid |].
  intros valid w2 _ _ Hn2.
  destruct (connected (session w1) && valid).
  - destruct should; cbn [negb].
    + destruct live_on; [| everywhere; page_auto].
      destruct sel as [s|]; [| everywhere; page_auto].
      destruct (Hsel s eq_refl eq_refl) as (a & -> & Ha & Hst).
      apply page_auto_refresh_poll; auto. lia.
    + rewrite orb_false_r in Hgo. apply andb_prop in Hgo as [Hclick Hoff].
      apply page_manual_retrieve; [| exact Hclick].
      rewrite <- Hlive. now destruct live_on.
  - destruct should; everywhere; page_auto.
Qed.

Lemma live_view_section_turn (w : World) :
  let r := S3Live.live_view_section w in
  tick (snd r) = tick w /\ now (snd r) = now w /\ port (snd r) = port w
  /\ live_turn w r.
Proof.
  unfold S3Live.live_view_section, live_turn, ts_kept. run_session.
  destruct (live_view_enabled (session w)) eqn:He;
    destruct (live_view_checkbox (session w)) eqn:Hc;
    destruct (live_view_stop_requested (session w)) eqn:Hs;
    destruct (live_view_checkbox_previous (session w)) eqn:Hp;
    repeat (progress (cbn; rewrite ?He, ?Hc, ?Hs, ?Hp));
    repeat split; auto 10.
Qed.

Lemma page_tail_keeps (w : World) :
  let r := S3Live.page_tail w in
  tick (snd r) = tick w /\ now w <= now (snd r) /\ port (snd r) = port w
  /\ live_view_enabled (session (snd r)) = live_view_enabled (session w)
  /\ live_view_start_timestamp (session (snd r))
     = live_view_start_timestamp (session w).
Proof.
  unfold S3Live.page_tail, S3Live.watch_active. run_session.
  destruct (live_view_enabled (session w)) eqn:He;
    destruct (live_view_stop_requested (session w)) eqn:Hs;
    destruct (connected (session w)) eqn:Hc;
    repeat (progress (cbn; rewrite ?He, ?Hc, ?Hs));
    repeat split; auto; lia.
Qed.

Lemma ts_kept_trans (t1 t2 t3 : Z) (a b c : option Z) :
  t1 <= t2 <= t3 -> ts_kept t1 t2 a b -> ts_kept t2 t3 b c -> ts_kept t1 t3 a c.
Proof.
  intros Ht [Hab | (Ha & t & Hb & Hab)] [Hbc | (Hb' & t' & Hc & Hbc)].
  - left. congruence.
  - right. split; [congruence |]. exists t'. split; [lia | exact Hbc].
  - right. split; [exact Ha |]. exists t. split; [lia | congruence].
  - congruence.
Qed.

Lemma run_post_of_page {A : Type} (w : World) (r : outcome A * World) :
  0 <= tick w -> page_step w (snd r) -> run_post w r.
Proof.
  intros Hpos Hstep.
  destruct (Hstep Hpos) as (Ht & Hn & He & _ & _ & Hts & Hl).
  repeat split; auto. left. auto.
Qed.

Lemma run_post_after_page {A : Type} (w w1 : World) (r : outcome A * World) :
  0 <= tick w -> page_step w w1 -> run_post w1 r -> run_post w r.
Proof.
  intros Hpos Hstep (Ht' & Hn' & Hturn & l' & Hl' & HP').
  destruct (Hstep Hpos) as (Ht & Hn & He & _ & _ & Hts & l & Hl & HP).
  repeat split; [congruence | lia | |].
  - unfold live_turn in *. cbn zeta in *. rewrite He in Hturn.
    destruct Hturn as [[He' Hts'] | [H | H]]; [left | right; left | right; right];
      auto.
    split; [exact He' |]. eapply ts_kept_trans; [| exact Hts | exact Hts']. lia.
  - exists (l ++ l'). split; [rewrite Hl', Hl; now rewrite app_assoc |].
    apply Forall_app. split.
    + eapply Forall_impl; [exact HP |]. intros x. apply run_line_widen; lia.
    + eapply Forall_impl; [exact HP' |]. intros x. apply run_line_widen; lia.
Qed.

Lemma run_post_bind {A B : Type} (m : M A) (k : A -> M B) (w : World) :
  0 <= tick w ->
  page_step w (snd (m w)) ->
  (forall a w1, m w = (Ok a, w1) -> page_step w w1 -> run_post w1 (k a w1)) ->
  run_post w (bind m k w).
Proof.
  intros Hpos Hm Hk. rewrite bind_run.
  destruct (m w) as [[a|e|] w1] eqn:Hrun; simpl in Hm.
  - apply (run_post_after_page w w1); auto.
  - now apply run_post_of_page.
  - now apply run_post_of_page.
Qed.

Lemma live_turn_raise {A B : Type} (w w1 : World) (e : exn) :
  @live_turn A w (Raise e, w1) -> @live_turn B w (Raise e, w1).
Proof.
  unfold live_turn. cbn. intros [H | [H | (H1 & H2 & H3 & H4)]]; auto.
  right; right. inversion H4. auto.
Qed.

Lemma live_turn_diverge {A B : Type} (w w1 : World) :
  @live_turn A w (Diverge, w1) -> @live_turn B w (Diverge, w1).
Proof.
  unfold live_turn. cbn. intros [H | [H | (H1 & H2 & H3 & H4)]]; auto.
  discriminate H4.
Qed.

Lemma run_post_tail {A : Type} (m : M A) (w : World) :
  run_post w (m w) -> run_post w (bind m (fun _ => S3Live.page_tail) w).
Proof.
  intros (Ht & Hn & Hturn & l & Hl & HP). rewrite bind_run.
  destruct (m w) as [[a|e|] w1]; cbn [fst snd] in *.
  2: { split; [exact Ht | split; [exact Hn | split]];
       [now apply (@live_turn_raise A) | exists l; auto]. }
  2: { split; [exact Ht | split; [exact Hn | split]];
       [now apply (@live_turn_diverge A) | exists l; auto]. }
  destruct (page_tail_keeps w1) as (Ht' & Hn' & Hp' & He' & Hts').
  repeat split; [congruence | lia | |].
  - unfold live_turn in *. cbn [fst snd] in *. cbn zeta in *.
    rewrite He', Hts'.
    destruct Hturn as [[He Hts] | [H | (_ & _ & _ & H)]];
      [left | right; left; exact H | discriminate H].
    split; [exact He |].
    eapply ts_kept_trans; [| exact Hts | left; reflexivity]. lia.
  - exists l. rewrite Hp'. split; [exact Hl |].
    eapply Forall_impl; [exact HP |]. intros x. apply run_line_widen; lia.
Qed.

Lemma dashboard_tab_post (w : World) :
  0 <= tick w -> live_inv w ->
  live = S3Live.in_checkbox inp && negb (live_view_stop_requested (session w)) ->
  start = live_view_start_timestamp (session w) ->
  run_post w (S3Live.dashboard_tab to_epoch utc_to_local to_dataframe fuel inp w).
Proof.
  intros Hpos Hinv Hlive Hstart.
  unfold S3Live.dashboard_tab. rewrite bind_run.
  unfold session_put at 1, modify. cbn iota beta.
  set (w0 := set_session
               (put_live_view_checkbox (S3Live.in_checkbox inp) (session w)) w).
  match goal with |- run_post w ?r => change (run_post w0 r) end.
  assert (Hpos0 : 0 <= tick w0) by exact Hpos.
  assert (Hnow0 : now w0 = now w) by reflexivity.
  assert (Hlive0 : S3Live.live_view_on (session w0) = live)
    by (rewrite Hlive; reflexivity).
  assert (Hstart0 : live_view_start_timestamp (session w0) = start)
    by (rewrite Hstart; reflexivity).
  clearbody w0.
  apply run_post_bind; [exact Hpos0 | apply page_startup_validation |].
  intros _ w1 _ Hs1.
  apply run_post_bind;
    [destruct (Hs1 Hpos0) as (-> & _); exact Hpos0 | apply page_gets |].
  intros c w1' Heq _. inversion Heq; subst c w1'; clear Heq.
  apply run_post_tail.
  assert (Hpos1 : 0 <= tick w1) by (destruct (Hs1 Hpos0) as (-> & _); exact Hpos0).
  destruct (connected (session w1)).
  2:{ apply run_post_of_page; [exact Hpos1 | apply page_show]. }
  apply run_post_bind; [exact Hpos1 | apply page_connection_watchdog |].
  intros _ w2 _ Hs2. pose proof (page_step_trans _ _ _ Hs1 Hs2) as Ha2.
  assert (Hpos2 : 0 <= tick w2) by (destruct (Ha2 Hpos0) as (-> & _); exact Hpos0).
  apply run_post_bind; [exact Hpos2 | apply page_session_put; keeps |].
  intros _ w3 _ Hs3. pose proof (page_step_trans _ _ _ Ha2 Hs3) as Ha3.
  assert (Hpos3 : 0 <= tick w3) by (destruct (Ha3 Hpos0) as (-> & _); exact Hpos0).
  apply run_post_bind; [exact Hpos3 | apply page_gets |].
  intros live_on w3' Heq _. inversion Heq; subst live_on w3'; clear Heq.
  apply run_post_bind; [exact Hpos3 | apply page_live_range_start |].
  intros sel w4 Hsel Hs4. pose proof (page_step_trans _ _ _ Ha3 Hs4) as Ha4.
  assert (Hpos4 : 0 <= tick w4) by (destruct (Ha4 Hpos0) as (-> & _); exact Hpos0).
  apply run_post_bind; [exact Hpos4 | apply page_auto_refresh_gate |].
  intros should w5 _ Hs5. pose proof (page_step_trans _ _ _ Ha4 Hs5) as Ha5.
  assert (Hpos5 : 0 <= tick w5) by (destruct (Ha5 Hpos0) as (-> & _); exact Hpos0).
  destruct (Ha3 Hpos0) as (_ & Hn3 & _ & Hst3 & Hcb3 & Hts3 & _).
  destruct (Hs4 Hpos3) as (_ & Hn4 & _).
  destruct (Hs5 Hpos4) as (_ & Hn5 & _).
  assert (Hon : S3Live.live_view_on (session w3) = live).
  { rewrite <- Hlive0. unfold S3Live.live_view_on. now rewrite Hst3, Hcb3. }
  apply run_post_bind; [exact Hpos5 | |].
  - apply page_fetch; [exact Hon |].
    intros s Hlv Hs. rewrite live_range_start_run, Hlv in Hsel.
    rewrite Hstart0 in Hts3. unfold live_inv in Hinv. rewrite <- Hstart in Hinv.
    rewrite Hs in Hsel. clear Hs.
    destruct (live_view_start_timestamp (session w3)) as [t|] eqn:Ht3;
      inversion Hsel; subst s w4; clear Hsel.
    + exists t. split; [reflexivity |].
      destruct Hts3 as [Hsame | (Hnone & t' & Hb & Hset)].
      * rewrite <- Hsame in Hinv. split; [lia |].
        intros t0 Ht0. congruence.
      * inversion Hset; subst t'. split; [lia |].
        intros t0 Ht0. congruence.
    + exists (now w3). split; [reflexivity |]. split; [lia |].
      intros t0 Ht0.
      destruct Hts3 as [Hsame | (Hnone & t' & Hb & Hset)]; congruence.
  - intros _ w6 _ Hs6.
    destruct (live_view_section_turn w6) as (Ht & Hn & Hp & Hturn).
    split; [exact Ht | split; [lia | split; [exact Hturn |]]].
    exists []. rewrite Hp, app_nil_r. split; [reflexivity | constructor].
Qed.

End LiveWindow.

(** C8, as it is stated, fails.  A poll whose response holds a reading
    that cannot be put in the table is handled as a failure, after the
    response has reset the counter: with two failures counted before, one
    is counted after, which is neither one more nor 0, and the session
    stays connected. *)
Lemma table_failure_counted_from_zero :
  let r := S3Live.auto_refresh_poll epoch_seconds dated_local dated_table 400
             "UTC" 1 unset_clock_world in
  connection_error_count (session unset_clock_world) = 2
  /\ fst r = Ok tt
  /\ ui (snd r) = [StError "Error converting timestamp"]
  /\ connection_error_count (session (snd r)) = 1
  /\ connection_error_count (session (snd r)) <> 2 + 1
  /\ connection_error_count (session (snd r)) <> 0
  /\ connected (session (snd r)) = true
  /\ last_df (session (snd r)) = last_df (session unset_clock_world).
Proof.
  cbv zeta.
  split; [vm_compute; reflexivity |].
  split; [vm_compute; reflexivity |].
  split; [vm_compute; reflexivity |].
  split; [vm_compute; reflexivity |].
  split; [vm_compute; discriminate |].
  split; [vm_compute; discriminate |].
  split; vm_compute; reflexivity.
Qed.

(** C8 (amended): a poll of the live view whose response is empty keeps
    the table on display and counts one failure; a poll with a response
    resets the counter to 0 and stores the table built from its readings,
    when there are any, after the errors of the conversion of their
    timestamps are shown; when the table cannot be built, the table on
    display is kept and that failure is counted on the counter just
    reset, which ends at 1; the connection test of the live view counts a
    failure like an empty response; the third failure in a row tells the
    user, disconnects the session and reruns the page, whose next run
    stops the live view and sends nothing. *)
Theorem poll_failure_accounting
    (to_epoch : string -> Z -> Z)
    (utc_to_local : string -> string -> option string)
    (to_dataframe : list Reading -> option DataFrame)
    (fuel : nat) (inp : S3Live.RunInput) (tz : string) (start_epoch_live : Z)
    (w : World) :
  page_fuel fuel w ->
  (exists response w1,
     S3Live.send_command fuel (serial_connection (session w))
       (S3Live.range_command start_epoch_live (to_epoch tz (now w))) w
     = (Ok response, w1)
     /\ poll_accounted utc_to_local to_dataframe tz response w
          (S3Live.auto_refresh_poll to_epoch utc_to_local to_dataframe fuel tz
             start_epoch_live w))
  /\ (live_view_enabled (session w) = true ->
      now w - last_connection_test (session w) > S3Live.CONNECTION_TEST_PERIOD ->
      exists v w1,
        S3Live.test_connection_quick fuel (serial_connection (session w))
          (set_session (put_last_connection_test (now w) (session w)) w)
        = (Ok v, w1)
        /\ watchdog_accounted v w (S3Live.connection_watchdog fuel w))
  /\ (connected (session w) = false ->
      let r := S3Live.dashboard_tab to_epoch utc_to_local to_dataframe fuel inp w in
      fst r = Ok tt
      /\ port (snd r) = port w
      /\ ui (snd r)
         = ui w ++ [StInfo "Please connect to your RFID reader using the sidebar."]
      /\ live_view_enabled (session (snd r))
         && negb (live_view_stop_requested (session (snd r))) = false
      /\ last_df (session (snd r)) = last_df (session w)).
Proof.
  intros Hf. split; [| split].
  - destruct (send_command_returns fuel (serial_connection (session w))
                (S3Live.range_command start_epoch_live (to_epoch tz (now w))) w)
      as (response & w1 & Hsend); [now apply page_fuel_enough |].
    exists response, w1. split; [exact Hsend |].
    now apply (poll_accounting to_epoch utc_to_local to_dataframe fuel tz start_epoch_live w
                 response w1).
  - intros Hen Hdue. now apply watchdog_accounting.
  - intros Hc. now apply disconnected_run.
Qed.

Lemma poll_failure_accounting_witness :
  page_fuel 400 silent_world
  /\ let r := S3Live.auto_refresh_poll epoch_seconds same_time plain_table 400 "UTC" 1
                silent_world in
     fst r = Raise RerunException
     /\ ui (snd r)
        = [StError "Connection Error: ESP32 is not responding. Please check connection."]
     /\ connected (session (snd r)) = false
     /\ connection_error_count (session (snd r)) = 0
     /\ last_df (session (snd r)) = Some [].
Proof.
  assert (Hf : page_fuel 400 silent_world) by (unfold page_fuel; simpl; lia).
  split; [exact Hf |].
  destruct (poll_failure_accounting epoch_seconds same_time plain_table 400
              (S3Live.mkRunInput true "UTC" false 0 0) "UTC" 1 silent_world Hf)
    as ((response & w1 & Hsend & Hpoll) & _).
  assert (E : fst (S3Live.send_command 400 ThePort
                     (S3Live.range_command 1 (epoch_seconds "UTC" 7000))
                     silent_world) = Ok EmptyString)
    by (vm_compute; reflexivity).
  change (serial_connection (session silent_world)) with ThePort in Hsend.
  change (now silent_world) with 7000 in Hsend.
  rewrite Hsend in E. cbn [fst] in E. injection E as ->.
  unfold poll_accounted, failure_counted in Hpoll. cbn in Hpoll.
  destruct Hpoll as (Hdf & Hr & Hui & Hn & Hc & _).
  cbn zeta. auto.
Defined.

(** With a conversion that keeps the order of the times, the lines of a
    run with the live view on are wake-up bytes, status queries and
    ordered polls. *)
Lemma run_line_ordered (to_epoch : string -> Z -> Z) (inp : S3Live.RunInput)
    (start : option Z) (lo hi : Z) (x : string) :
  (forall a b : Z,
     a <= b ->
     to_epoch (S3Live.in_timezone inp) a <= to_epoch (S3Live.in_timezone inp) b) ->
  run_line to_epoch inp true start lo hi x ->
  x = nl \/ x = command_line "status" \/ ordered_poll x.
Proof.
  intros Hmono [H | [H | [(H & _) | (_ & a & b & _ & Hab & _ & Hx)]]]; auto.
  - discriminate H.
  - right; right. eexists _, _. split; [apply Hmono; exact Hab | exact Hx].
Qed.




(** * Further properties *)

Close Scope Z_scope.

(** ** The bounded debug logs *)

Lemma log_append_last_n (l : list string) (msg : string) :
  log_append (last_n LOG_LIMIT l) msg = last_n LOG_LIMIT (l ++ [msg]).
Proof.
  unfold log_append, last_n, LOG_LIMIT. cbn zeta.
  rewrite !length_app, length_skipn. cbn [length].
  destruct (100 <? length l - (length l - 100) + 1)%nat eqn:E.
  - apply Nat.ltb_lt in E.
    rewrite skipn_app, length_skipn, skipn_skipn.
    replace (length l - (length l - 100) + 1 - 100
             - (length l - (length l - 100)))%nat with 0%nat by lia.
    cbn [skipn]. rewrite skipn_app.
    replace (length l + 1 - 100 - length l)%nat with 0%nat by lia.
    cbn [skipn]. f_equal. f_equal. lia.
  - apply Nat.ltb_ge in E.
    rewrite skipn_app.
    replace (length l + 1 - 100 - length l)%nat with 0%nat by lia.
    cbn [skipn]. f_equal. f_equal. lia.
Qed.

Lemma run_log_calls_logs (cs : list log_call) :
  fold_left run_log_call cs no_logs
  = mkLogs (last_n LOG_LIMIT (debug_msgs cs)) (last_n LOG_LIMIT (set_msgs cs))
      (last_n LOG_LIMIT (general_msgs cs)).
Proof.
  induction cs as [|c cs IH] using rev_ind; [reflexivity |].
  rewrite fold_left_app. cbn [fold_left]. rewrite IH.
  unfold debug_msgs, set_msgs, general_msgs. rewrite !omap_app.
  destruct c; cbn [omap run_log_call]; unfold log_debug, log_set_debug,
    log_general_debug; cbn [debug_log set_debug_log general_debug_log];
    rewrite ?app_nil_r, ?log_append_last_n; reflexivity.
Qed.

(** X1: Every log holds the last 100 of the messages sent to it since the
    start of the session, oldest first, and never more than 100 entries. *)
Theorem logs_keep_last_hundred (cs : list log_call) :
  let l := fold_left run_log_call cs no_logs in
  (debug_log l = last_n 100 (debug_msgs cs)
   /\ set_debug_log l = last_n 100 (set_msgs cs)
   /\ general_debug_log l = last_n 100 (general_msgs cs))
  /\ (length (debug_log l) <= 100 /\ length (set_debug_log l) <= 100
      /\ length (general_debug_log l) <= 100)%nat.
Proof.
  cbn zeta. rewrite run_log_calls_logs. cbn.
  split; [auto |]. unfold last_n. rewrite !length_skipn. unfold LOG_LIMIT. lia.
Qed.

(** ** Parsing what the block extraction returns *)

Lemma split_nl_cons (s : string) : exists h t, PyStr.split_nl s = h :: t.
Proof.
  destruct s as [|c s]; cbn; [eauto |].
  destruct (Ascii.eqb c PyStr.newline); [eauto |].
  destruct (PyStr.split_nl s); eauto.
Qed.

Lemma split_nl_one_line (s : string) : Forall one_line (PyStr.split_nl s).
Proof.
  induction s as [|c s IH]; cbn.
  - repeat constructor.
  - destruct (Ascii.eqb c PyStr.newline) eqn:E.
    + constructor; [reflexivity | exact IH].
    + destruct (PyStr.split_nl s) as [|h t].
      * repeat constructor. unfold one_line. cbn. unfold differs. now rewrite E.
      * inversion IH; subst. constructor; [| assumption].
        unfold one_line in *. cbn. unfold differs at 1. now rewrite E.
Qed.

Lemma split_nl_of_line (s : string) : one_line s -> PyStr.split_nl s = [s].
Proof.
  unfold one_line. induction s as [|c s IH]; cbn; [reflexivity |].
  intros H. apply andb_prop in H as [Hc Hs]. unfold differs in Hc.
  apply negb_true_iff in Hc. rewrite Hc, (IH Hs). reflexivity.
Qed.

Lemma split_nl_app_line (a b : string) :
  one_line a ->
  PyStr.split_nl (a +:+ String PyStr.newline b) = a :: PyStr.split_nl b.
Proof.
  unfold one_line. induction a as [|c a IH]; cbn.
  - intros _. now rewrite Ascii.eqb_refl.
  - intros H. apply andb_prop in H as [Hc Hs]. unfold differs in Hc.
    apply negb_true_iff in Hc. rewrite Hc, (IH Hs). reflexivity.
Qed.

(** Splitting undoes joining, for lines without newline. *)
Lemma split_join_nl (ls : list string) :
  ls <> [] -> Forall one_line ls -> PyStr.split_nl (PyStr.join_nl ls) = ls.
Proof.
  induction ls as [|x ls IH]; [congruence |].
  intros _ H. inversion H as [|? ? Hx Hls]; subst.
  destruct ls as [|y ls].
  - cbn. now apply split_nl_of_line.
  - change (PyStr.join_nl (x :: y :: ls))
      with (x +:+ String PyStr.newline (PyStr.join_nl (y :: ls))).
    rewrite split_nl_app_line by assumption. f_equal. apply IH; [congruence | assumption].
Qed.

(** Lines that open no block give no reading. *)
Lemma parse_lines_no_begin (f : string -> option Reading) (ls : list string) :
  Forall (fun l => PyStr.contains BEGIN_READINGS l = false) ls ->
  parse_lines f false ls = [].
Proof.
  induction 1 as [|l ls Hl _ IH]; cbn; [reflexivity |].
  rewrite Hl. destruct (PyStr.contains END_READINGS l); exact IH.
Qed.

Lemma collect_blocks_kept (lines : list string) :
  forall in_block cur blocks,
  Forall one_line lines -> Forall kept_line cur ->
  Forall (fun b => exists ls, b = PyStr.join_nl ls /\ Forall kept_line ls) blocks ->
  Forall (fun b => exists ls, b = PyStr.join_nl ls /\ Forall kept_line ls)
    (collect_blocks in_block cur blocks lines).
Proof.
  induction lines as [|l lines IH]; intros in_block cur blocks Hl Hc Hb; cbn;
    [exact Hb |].
  inversion Hl; subst.
  destruct (PyStr.contains BEGIN_READINGS l) eqn:Eb; [apply IH; auto |].
  destruct (PyStr.contains END_READINGS l) eqn:Ee.
  - apply IH; auto. apply Forall_app. split; [exact Hb |].
    repeat constructor. eauto.
  - destruct in_block; apply IH; auto.
    apply Forall_app. split; [exact Hc |]. repeat constructor; assumption.
Qed.

Lemma parse_of_kept (f : string -> option Reading) (ls : list string) :
  Forall kept_line ls ->
  parse_lines f false (PyStr.split_nl (PyStr.join_nl ls)) = [].
Proof.
  intros H. destruct ls as [|x ls]; [reflexivity |].
  rewrite split_join_nl; [| congruence | eapply Forall_impl; [exact H |]; now intros ? []].
  apply parse_lines_no_begin. eapply Forall_impl; [exact H |]. now intros ? [].
Qed.

Lemma parse_of_extract (f : string -> option Reading) (response : string) :
  parse_lines f false
    (PyStr.split_nl (extract_latest_readings_block response)) = [].
Proof.
  unfold extract_latest_readings_block. cbn zeta.
  set (text := match last (Re.findall re_dashboard response) with
               | Some b => b
               | None => response
               end).
  pose proof (collect_blocks_kept (PyStr.split_nl text) false [] []
                (split_nl_one_line text) ltac:(constructor) ltac:(constructor)) as H.
  destruct (last (collect_blocks false [] [] (PyStr.split_nl text))) as [b|] eqn:E;
    [| reflexivity].
  apply last_Some in E as [pre E]. rewrite E in H.
  apply Forall_app in H as [_ H]. inversion H as [|? ? (ls & -> & Hls) _]; subst.
  now apply parse_of_kept.
Qed.

(** X2: What [extract_latest_readings_block] returns holds no block for
    [parse_readings] to find, in either dashboard: parsing it gives no
    reading, whatever the response. *)
Theorem extracted_block_parses_to_nothing (response : string) :
  S3Live.parse_readings (extract_latest_readings_block response) = []
  /\ MultiButton.parse_readings (extract_latest_readings_block response) = [].
Proof.
  split; [unfold S3Live.parse_readings | unfold MultiButton.parse_readings];
    apply parse_of_extract.
Qed.

(** ** Responses one after the other *)

Lemma split_nl_app (a b : string) :
  PyStr.split_nl (a +:+ String PyStr.newline b)
  = PyStr.split_nl a ++ PyStr.split_nl b.
Proof.
  induction a as [|c a IH]; cbn.
  - now rewrite Ascii.eqb_refl.
  - destruct (Ascii.eqb c PyStr.newline); [now rewrite IH |].
    rewrite IH. destruct (split_nl_cons a) as (h & t & ->). reflexivity.
Qed.

(** X3: Two responses one after the other, the first ending outside a block:
    the readings of the first followed by the readings of the second. *)
Theorem parse_readings_of_two_responses (r1 r2 : string) :
  block_state false (PyStr.split_nl r1) = false ->
  S3Live.parse_readings (r1 +:+ nl +:+ r2)
  = S3Live.parse_readings r1 ++ S3Live.parse_readings r2
  /\ MultiButton.parse_readings (r1 +:+ nl +:+ r2)
     = MultiButton.parse_readings r1 ++ MultiButton.parse_readings r2.
Proof.
  intros Hout. unfold S3Live.parse_readings, MultiButton.parse_readings, nl.
  change (String PyStr.newline "" +:+ r2) with (String PyStr.newline r2).
  rewrite split_nl_app, !parse_lines_app, Hout. auto.
Qed.

Lemma parse_readings_of_two_responses_witness :
  block_state false (PyStr.split_nl (block_of first_record)) = false
  /\ S3Live.parse_readings (block_of first_record +:+ nl +:+ block_of second_record)
     = S3Live.parse_readings (block_of first_record)
       ++ S3Live.parse_readings (block_of second_record).
Proof.
  assert (H : block_state false (PyStr.split_nl (block_of first_record)) = false)
    by reflexivity.
  split; [exact H |].
  exact (proj1 (parse_readings_of_two_responses (block_of first_record)
                  (block_of second_record) H)).
Defined.

Lemma block_lines_plain (blk : list string) :
  forallb is_plain blk = true -> block_lines true blk = blk.
Proof.
  induction blk as [|l blk IH]; cbn; [reflexivity |].
  intros H. apply andb_prop in H as [Hl Hb]. unfold is_plain in Hl.
  apply andb_prop in Hl as [H1 H2].
  apply negb_true_iff in H1. apply negb_true_iff in H2.
  rewrite H1, H2, (IH Hb). reflexivity.
Qed.

Lemma block_state_open (b : string) (blk : list string) :
  forall in_block,
  is_begin b = true -> forallb is_plain blk = true ->
  block_lines in_block (b :: blk) = blk.
Proof.
  intros in_block Hb Hblk. cbn. unfold is_begin in Hb. rewrite Hb.
  now apply block_lines_plain.
Qed.

(** X4: A block that is opened and never closed (a response cut short): the
    readings of its lines are returned all the same, after those of the
    text before it. *)
Theorem open_block_is_parsed (r : string) (b : string) (blk : list string) :
  one_line b -> Forall one_line blk ->
  is_begin b = true -> forallb is_plain blk = true ->
  S3Live.parse_readings (r +:+ nl +:+ PyStr.join_nl (b :: blk))
  = S3Live.parse_readings r ++ omap S3Live.line_reading blk
  /\ MultiButton.parse_readings (r +:+ nl +:+ PyStr.join_nl (b :: blk))
     = MultiButton.parse_readings r ++ omap MultiButton.line_reading blk.
Proof.
  intros Hb Hl Hbeg Hplain.
  unfold S3Live.parse_readings, MultiButton.parse_readings, nl.
  change (String PyStr.newline "" +:+ PyStr.join_nl (b :: blk))
    with (String PyStr.newline (PyStr.join_nl (b :: blk))).
  rewrite split_nl_app, !parse_lines_app.
  rewrite split_join_nl by (try congruence; now constructor).
  rewrite !(parse_lines_block_lines _ (b :: blk)).
  rewrite !(block_state_open b blk) by assumption. auto.
Qed.

Lemma open_block_is_parsed_witness :
  S3Live.parse_readings
    ("Found 1 readings" +:+ nl
     +:+ PyStr.join_nl ["---BEGIN_READINGS---"; first_record; "junk"; second_record])
  = [ mkReading "2025-07-23 05:13:05" "999" "141004265912" "24.86";
      mkReading "2025-07-23 05:14:05" "999" "141004265912" "25.10" ].
Proof.
  refine (eq_trans (proj1 (open_block_is_parsed "Found 1 readings"
            "---BEGIN_READINGS---" [first_record; "junk"; second_record]
            _ _ _ _)) _); try reflexivity.
  repeat constructor.
Defined.

Open Scope Z_scope.

(** ** The duration of an exchange *)

Lemma lasts_ret {A : Type} (a : A) : lasts (fun _ => 0) (ret a).
Proof. intros w _. cbn. lia. Qed.

Lemma lasts_weaken {A : Type} (d d' : Z -> Z) (m : M A) :
  (forall t, 0 <= t -> d t <= d' t) -> lasts d m -> lasts d' m.
Proof.
  intros Hd Hm w Hpos. destruct (Hm w Hpos) as (Ht & Hn).
  specialize (Hd _ Hpos). split; [exact Ht | lia].
Qed.

Lemma lasts_bind {A B : Type} (d1 d2 : Z -> Z) (m : M A) (k : A -> M B) :
  (forall t, 0 <= t -> 0 <= d2 t) ->
  lasts d1 m -> (forall a, lasts d2 (k a)) ->
  lasts (fun t => d1 t + d2 t) (bind m k).
Proof.
  intros Hd Hm Hk w Hpos. rewrite bind_run.
  destruct (Hm w Hpos) as (Ht & Hn). specialize (Hd _ Hpos).
  destruct (m w) as [[a|e|] w1]; cbn [snd] in *; try (split; [exact Ht | lia]).
  destruct (Hk a w1) as (Ht' & Hn'); [lia |].
  rewrite Ht in Hn'. split; [congruence | lia].
Qed.

Lemma lasts_try_except {A : Type} (d1 d2 : Z -> Z) (m : M A) (h : exn -> M A) :
  (forall t, 0 <= t -> 0 <= d2 t) ->
  lasts d1 m -> (forall e, lasts d2 (h e)) ->
  lasts (fun t => d1 t + d2 t) (try_except m h).
Proof.
  intros Hd Hm Hh w Hpos. unfold try_except.
  destruct (Hm w Hpos) as (Ht & Hn). specialize (Hd _ Hpos).
  destruct (m w) as [[a|e|] w1]; cbn [snd] in *; try (split; [exact Ht | lia]).
  destruct (is_Exception e); cbn [snd]; [| split; [exact Ht | lia]].
  destruct (Hh e w1) as (Ht' & Hn'); [lia |].
  rewrite Ht in Hn'. split; [congruence | lia].
Qed.

Lemma lasts_io_guard (ser : serial_ref) : lasts (fun _ => 0) (io_guard ser).
Proof.
  intros w _. unfold io_guard. destruct ser; [cbn; lia |].
  destruct (hd NoFault (faults (port w))); [destruct (is_open (port w)) |..];
    cbn; lia.
Qed.

Lemma lasts_instant {A : Type} (m : M A) :
  (forall w, tick (snd (m w)) = tick w /\ now (snd (m w)) = now w) ->
  lasts (fun _ => 0) m.
Proof. intros H w _. destruct (H w) as [-> ->]. lia. Qed.

Lemma lasts_after_guard {A : Type} (d : Z -> Z) (ser : serial_ref) (m : M A) :
  (forall t, 0 <= t -> 0 <= d t) ->
  lasts d m -> lasts d (io_guard ser >> m).
Proof.
  intros Hd Hm. eapply lasts_weaken; [| apply (lasts_bind (fun _ => 0) d)];
    [intros; cbn; lia | exact Hd | apply lasts_io_guard | intros _; exact Hm].
Qed.

Lemma lasts_ser_write (ser : serial_ref) (data : string) :
  lasts (fun _ => 0) (ser_write ser data).
Proof.
  unfold ser_write. apply lasts_after_guard; [intros; lia |].
  apply lasts_instant. intros w. split; reflexivity.
Qed.

Lemma lasts_ser_flush (ser : serial_ref) : lasts (fun _ => 0) (ser_flush ser).
Proof. apply lasts_io_guard. Qed.

Lemma lasts_ser_reset (ser : serial_ref) :
  lasts (fun _ => 0) (ser_reset_input_buffer ser).
Proof.
  unfold ser_reset_input_buffer. apply lasts_after_guard; [intros; lia |].
  apply lasts_instant. intros w. split; reflexivity.
Qed.

Lemma lasts_ser_in_waiting (ser : serial_ref) :
  lasts (fun t => t) (ser_in_waiting ser).
Proof.
  unfold ser_in_waiting. apply lasts_after_guard; [intros; lia |].
  intros w Hpos. cbn. lia.
Qed.

Lemma lasts_ser_readline (ser : serial_ref) :
  lasts (fun _ => READ_TIMEOUT) (ser_readline ser).
Proof.
  unfold ser_readline. apply lasts_after_guard; [intros; unfold READ_TIMEOUT; lia |].
  intros w Hpos. unfold READ_TIMEOUT.
  destruct (rx (port w)) as [|e rest]; [cbn; lia |].
  destruct (arrived (now w) e); cbn; lia.
Qed.

Lemma lasts_time_sleep (d : Z) : 0 <= d -> lasts (fun _ => d) (time_sleep d).
Proof. intros Hd w _. cbn. lia. Qed.

Lemma lasts_is_serial_valid (ser : serial_ref) :
  lasts (fun _ => 0) (S3Live.is_serial_valid ser).
Proof. destruct ser; intros w _; cbn; lia. Qed.

Lemma lasts_wake_serial (ser : serial_ref) (d : Z) :
  0 <= d -> lasts (fun _ => d) (S3Live._wake_serial ser d).
Proof.
  intros Hd. unfold S3Live._wake_serial.
  eapply lasts_weaken; [| apply (lasts_try_except (fun _ => d) (fun _ => 0))].
  - intros; cbn; lia.
  - intros; lia.
  - eapply lasts_weaken;
      [| apply (lasts_bind (fun _ => 0) (fun _ => d));
         [intros; lia | apply lasts_is_serial_valid |]].
    + intros; cbn; lia.
    + intros valid. destruct (negb valid).
      * eapply lasts_weaken; [| apply lasts_ret]. intros; cbn; lia.
      * eapply lasts_weaken;
          [| apply (lasts_bind (fun _ => 0) (fun _ => d));
             [intros; lia | apply lasts_ser_write |]]; [intros; cbn; lia |].
        intros _. eapply lasts_weaken;
          [| apply (lasts_bind (fun _ => 0) (fun _ => d));
             [intros; lia | apply lasts_ser_flush |]]; [intros; cbn; lia |].
        intros _. now apply lasts_time_sleep.
  - intros e. destruct (is_serial_exception e); intros w _; cbn; lia.
Qed.

(** The loop of [send_command] ends within the hard timeout, one poll and
    one read timeout of its start. *)
Lemma plain_collect_bound (ser : serial_ref) (command : string) (start : Z)
    (fuel : nat) :
  forall (response : string) (any : bool) (last : option Z) (w : World),
  0 <= tick w -> now w - start <= S3Live.plain_hard_timeout command ->
  within w start (collect_limit (S3Live.plain_hard_timeout command) (tick w))
    (snd (S3Live.plain_collect fuel ser command start response any last w)).
Proof.
  unfold collect_limit.
  induction fuel as [|fuel IH]; intros response any last w Hpos Hin.
  - unfold within. cbn. unfold READ_TIMEOUT. lia.
  - cbn [S3Live.plain_collect]. rewrite bind_run.
    destruct (lasts_ser_in_waiting ser w Hpos) as (Ht1 & Hn1).
    destruct (ser_in_waiting ser w) as [[b|e|] w1]; cbn [snd] in *;
      try (unfold within, READ_TIMEOUT; split; [exact Ht1 | lia]).
    assert (Hstep : forall r a l w2,
               tick w2 = tick w -> now w1 <= now w2 <= now w1 + READ_TIMEOUT ->
               within w start
                 (S3Live.plain_hard_timeout command + tick w + READ_TIMEOUT)
                 (snd ((let* now_ts := time_time in
                        if S3Live.quiet_elapsed a l now_ts
                             (S3Live.plain_quiet_period command)
                        then ret (r, QuietPeriod)
                        else if now_ts - start >? S3Live.plain_hard_timeout command
                        then ret (r, HardTimeout)
                        else S3Live.plain_collect fuel ser command start r a l) w2))).
    { intros r a l w2 Ht2 Hn2. unfold bind, time_time, gets, ret.
      destruct (S3Live.quiet_elapsed _ _ _ _);
        [unfold within; cbn [snd]; split; [congruence | lia] |].
      destruct (now w2 - start >? _) eqn:Hh;
        [unfold within; cbn [snd]; split; [congruence | lia] |].
      rewrite Z.gtb_ltb in Hh; apply Z.ltb_ge in Hh.
      destruct (IH r a l w2) as (Ht3 & Hn3 & Hb3); [lia | exact Hh |].
      unfold within. split; [congruence |]. split; [lia |].
      rewrite Ht2 in Hb3. exact Hb3. }
    cbv beta iota zeta delta [bind ret time_time gets fst snd] in Hstep.
    destruct b.
    + rewrite !bind_run.
      destruct (lasts_ser_readline ser w1) as (Ht2 & Hn2); [lia |].
      destruct (ser_readline ser w1) as [[raw|e|] w2]; cbn [snd] in *;
        try (unfold within; split; [congruence | lia]).
      destruct (PyStr.truthy (PyStr.strip (decode_ignore raw)));
        destruct (S3Live.has_end_marker command (PyStr.strip (decode_ignore raw)));
        cbv beta iota zeta delta [bind ret time_time gets fst snd];
        try (unfold within; split; [congruence | lia]);
        apply Hstep; (congruence || lia).
    + cbv beta iota zeta delta [bind ret time_time gets fst snd].
      apply Hstep; unfold READ_TIMEOUT; (congruence || lia).
Qed.

(** The same for the loop of [_wake_and_send_command]. *)
Lemma fast_collect_bound (ser : serial_ref) (start : Z) (fuel : nat) :
  forall (response : string) (any : bool) (last : option Z) (w : World),
  0 <= tick w -> now w - start <= S3Live.fast_hard_timeout ->
  within w start (collect_limit S3Live.fast_hard_timeout (tick w))
    (snd (S3Live.fast_collect fuel ser start response any last w)).
Proof.
  unfold collect_limit.
  induction fuel as [|fuel IH]; intros response any last w Hpos Hin.
  - unfold within. cbn. unfold READ_TIMEOUT. lia.
  - cbn [S3Live.fast_collect]. rewrite bind_run.
    destruct (lasts_ser_in_waiting ser w Hpos) as (Ht1 & Hn1).
    destruct (ser_in_waiting ser w) as [[b|e|] w1]; cbn [snd] in *;
      try (unfold within, READ_TIMEOUT; split; [exact Ht1 | lia]).
    assert (Hstep : forall r a l w2,
               tick w2 = tick w -> now w1 <= now w2 <= now w1 + READ_TIMEOUT ->
               within w start
                 (S3Live.fast_hard_timeout + tick w + READ_TIMEOUT)
                 (snd ((let* now_ts := time_time in
                        if now_ts - start >? S3Live.fast_hard_timeout
                        then ret (r, HardTimeout)
                        else S3Live.fast_collect fuel ser start r a l) w2))).
    { intros r a l w2 Ht2 Hn2. unfold bind, time_time, gets, ret.
      destruct (now w2 - start >? _) eqn:Hh;
        [unfold within; cbn [snd]; split; [congruence | lia] |].
      rewrite Z.gtb_ltb in Hh; apply Z.ltb_ge in Hh.
      destruct (IH r a l w2) as (Ht3 & Hn3 & Hb3); [lia | exact Hh |].
      unfold within. split; [congruence |]. split; [lia |].
      rewrite Ht2 in Hb3. exact Hb3. }
    cbv beta iota zeta delta [bind ret time_time gets fst snd] in Hstep.
    destruct b.
    + rewrite !bind_run.
      destruct (lasts_ser_readline ser w1) as (Ht2 & Hn2); [lia |].
      destruct (ser_readline ser w1) as [[raw|e|] w2]; cbn [snd] in *;
        try (unfold within; split; [congruence | lia]).
      destruct (PyStr.truthy (PyStr.strip (decode_ignore raw)));
        cbv beta iota zeta delta [bind ret time_time gets fst snd];
        (destruct (S3Live.quiet_elapsed _ _ _ _);
           [unfold within; split; [congruence | lia] |]);
        apply Hstep; (congruence || lia).
    + cbv beta iota zeta delta [bind ret time_time gets fst snd].
      apply Hstep; unfold READ_TIMEOUT; (congruence || lia).
Qed.

Lemma collect_limit_nonneg (h t : Z) : 0 <= h -> 0 <= t -> 0 <= collect_limit h t.
Proof. unfold collect_limit, READ_TIMEOUT. lia. Qed.

Lemma plain_hard_timeout_nonneg (command : string) :
  0 <= S3Live.plain_hard_timeout command.
Proof. unfold S3Live.plain_hard_timeout. destruct (S3Live.expect_range _); lia. Qed.

Lemma lasts_wake_then_send (ser : serial_ref) (command : string) :
  lasts (fun _ => WAKE_DELAY) (S3Live.wake_then_send ser command).
Proof.
  unfold S3Live.wake_then_send.
  eapply lasts_weaken;
    [| apply (lasts_bind (fun _ => WAKE_DELAY) (fun _ => 0));
       [intros; lia | apply lasts_wake_serial; unfold WAKE_DELAY; lia |]];
    [intros; cbn; lia |].
  intros _. eapply lasts_weaken;
    [| apply (lasts_bind (fun _ => 0) (fun _ => 0));
       [intros; lia | apply lasts_ser_reset |]]; [intros; cbn; lia |].
  intros _. eapply lasts_weaken;
    [| apply (lasts_bind (fun _ => 0) (fun _ => 0));
       [intros; lia | apply lasts_ser_write |]]; [intros; cbn; lia |].
  intros _. apply lasts_ser_flush.
Qed.

Lemma lasts_plain_exchange (fuel : nat) (ser : serial_ref) (command : string) :
  lasts (fun t => WAKE_DELAY + collect_limit (S3Live.plain_hard_timeout command) t)
    (S3Live.plain_exchange fuel ser command).
Proof.
  unfold S3Live.plain_exchange.
  apply lasts_bind.
  - intros t Ht. apply collect_limit_nonneg; [apply plain_hard_timeout_nonneg | exact Ht].
  - apply lasts_wake_then_send.
  - intros _ w Hpos. unfold bind, time_time, gets.
    pose proof (plain_hard_timeout_nonneg command).
    destruct (plain_collect_bound ser command (now w) fuel EmptyString false None w)
      as (Ht & Hn & Hb); [exact Hpos | lia |].
    split; [exact Ht | lia].
Qed.

Lemma lasts_wake_and_send_attempt (fuel : nat) (ser : serial_ref)
    (command : string) :
  lasts (fun t => WAKE_DELAY + 100 + collect_limit S3Live.fast_hard_timeout t)
    (S3Live.wake_and_send_attempt fuel ser command WAKE_DELAY).
Proof.
  unfold S3Live.wake_and_send_attempt.
  assert (Hc : forall t, 0 <= t -> 0 <= collect_limit S3Live.fast_hard_timeout t)
    by (intros; apply collect_limit_nonneg; [unfold S3Live.fast_hard_timeout |]; lia).
  eapply lasts_weaken;
    [| apply (lasts_bind (fun _ => 0)
                (fun t => WAKE_DELAY + 100 + collect_limit S3Live.fast_hard_timeout t));
       [intros t Ht; specialize (Hc t Ht); unfold WAKE_DELAY; lia
       | apply lasts_ser_write |]]; [intros; cbn; lia |].
  intros _. eapply lasts_weaken;
    [| apply (lasts_bind (fun _ => 0)
                (fun t => WAKE_DELAY + 100 + collect_limit S3Live.fast_hard_timeout t));
       [intros t Ht; specialize (Hc t Ht); unfold WAKE_DELAY; lia
       | apply lasts_ser_flush |]]; [intros; cbn; lia |].
  intros _. eapply lasts_weaken;
    [| apply (lasts_bind (fun _ => WAKE_DELAY)
                (fun t => 100 + collect_limit S3Live.fast_hard_timeout t));
       [intros t Ht; specialize (Hc t Ht); lia
       | apply lasts_time_sleep; unfold WAKE_DELAY; lia |]]; [intros; cbn; lia |].
  intros _. eapply lasts_weaken;
    [| apply (lasts_bind (fun _ => 0)
                (fun t => 100 + collect_limit S3Live.fast_hard_timeout t));
       [intros t Ht; specialize (Hc t Ht); lia | apply lasts_ser_reset |]];
    [intros; cbn; lia |].
  intros _. eapply lasts_weaken;
    [| apply (lasts_bind (fun _ => 0)
                (fun t => 100 + collect_limit S3Live.fast_hard_timeout t));
       [intros t Ht; specialize (Hc t Ht); lia | apply lasts_ser_write |]];
    [intros; cbn; lia |].
  intros _. eapply lasts_weaken;
    [| apply (lasts_bind (fun _ => 0)
                (fun t => 100 + collect_limit S3Live.fast_hard_timeout t));
       [intros t Ht; specialize (Hc t Ht); lia | apply lasts_ser_flush |]];
    [intros; cbn; lia |].
  intros _. apply lasts_bind; [exact Hc | apply lasts_time_sleep; lia |].
  intros _ w Hpos. unfold bind, time_time, gets.
  destruct (fast_collect_bound ser (now w) fuel EmptyString false None w)
    as (Ht & Hn & Hb); [exact Hpos | unfold S3Live.fast_hard_timeout; lia |].
  split; [exact Ht | lia].
Qed.

Lemma lasts_wake_and_send_iteration (fuel : nat) (ser : serial_ref)
    (command : string) (max_retries attempt : Z) :
  lasts (fun t => WAKE_DELAY + 100 + collect_limit S3Live.fast_hard_timeout t
                  + backoff_after attempt max_retries)
    (S3Live.wake_and_send_iteration fuel ser command WAKE_DELAY max_retries attempt).
Proof.
  intros w Hpos. unfold S3Live.wake_and_send_iteration, try_except, backoff_after.
  assert (Hc : 0 <= collect_limit S3Live.fast_hard_timeout (tick w))
    by (apply collect_limit_nonneg; [unfold S3Live.fast_hard_timeout |]; lia).
  unfold WAKE_DELAY, S3Live.RETRY_BACKOFF in *.
  destruct ser.
  - cbn. destruct (attempt <? max_retries - 1); lia.
  - rewrite bind_run.
    destruct (lasts_wake_and_send_attempt fuel ThePort command w Hpos) as (Ht & Hn).
    unfold WAKE_DELAY in *.
    destruct (S3Live.wake_and_send_attempt fuel ThePort command 220 w)
      as [[cr|e|] w1]; cbn [snd] in *.
    + destruct (PyStr.truthy (PyStr.strip (fst cr)));
        [cbn; destruct (attempt <? max_retries - 1); lia |].
      destruct (attempt <? max_retries - 1); cbn; lia.
    + destruct (is_Exception e); [| cbn; destruct (attempt <? max_retries - 1); lia].
      destruct (attempt <? max_retries - 1); cbn; lia.
    + destruct (attempt <? max_retries - 1); cbn; lia.
Qed.

Lemma lasts_wake_and_send_command (fuel : nat) (ser : serial_ref)
    (command : string) :
  lasts (fun t => 3 * (WAKE_DELAY + 100 + collect_limit S3Live.fast_hard_timeout t)
                  + 2 * S3Live.RETRY_BACKOFF)
    (S3Live._wake_and_send_command fuel ser command WAKE_DELAY 3).
Proof.
  unfold S3Live._wake_and_send_command.
  change (Z.to_nat 3) with 3%nat. cbn [S3Live.wake_and_send_from].
  assert (Hc : forall t, 0 <= t -> 0 <= collect_limit S3Live.fast_hard_timeout t)
    by (intros; apply collect_limit_nonneg; [unfold S3Live.fast_hard_timeout |]; lia).
  pose (A := fun t => WAKE_DELAY + 100 + collect_limit S3Live.fast_hard_timeout t).
  assert (HA : forall t, 0 <= t -> 0 <= A t)
    by (intros t Ht; specialize (Hc t Ht); unfold A, WAKE_DELAY; lia).
  eapply lasts_weaken;
    [| apply (lasts_bind (fun t => A t + backoff_after 0 3)
                (fun t => 2 * A t + S3Live.RETRY_BACKOFF));
       [ intros t Ht; specialize (HA t Ht); unfold S3Live.RETRY_BACKOFF; lia
       | apply lasts_wake_and_send_iteration |]].
  { intros t Ht. unfold A, backoff_after, collect_limit, S3Live.RETRY_BACKOFF,
      S3Live.fast_hard_timeout, WAKE_DELAY, READ_TIMEOUT.
    repeat match goal with |- context [?a <? ?b] => change (a <? b) with true || change (a <? b) with false end. lia. }
  intros [s|]; [eapply lasts_weaken; [| apply lasts_ret];
                intros t Ht; specialize (HA t Ht);
                unfold S3Live.RETRY_BACKOFF; cbn; lia |].
  eapply lasts_weaken;
    [| apply (lasts_bind (fun t => A t + backoff_after (0 + 1) 3) A);
       [ exact HA | apply lasts_wake_and_send_iteration |]].
  { intros t Ht. unfold A, backoff_after, collect_limit, S3Live.RETRY_BACKOFF,
      S3Live.fast_hard_timeout, WAKE_DELAY, READ_TIMEOUT.
    repeat match goal with |- context [?a <? ?b] => change (a <? b) with true || change (a <? b) with false end. lia. }
  intros [s|]; [eapply lasts_weaken; [| apply lasts_ret];
                intros t Ht; specialize (HA t Ht); cbn; lia |].
  eapply lasts_weaken;
    [| apply (lasts_bind (fun t => A t + backoff_after (0 + 1 + 1) 3) (fun _ => 0));
       [ intros; lia | apply lasts_wake_and_send_iteration |]].
  { intros t Ht. unfold A, backoff_after, collect_limit, S3Live.RETRY_BACKOFF,
      S3Live.fast_hard_timeout, WAKE_DELAY, READ_TIMEOUT.
    repeat match goal with |- context [?a <? ?b] => change (a <? b) with true || change (a <? b) with false end. lia. }
  intros [s|]; apply lasts_ret.
Qed.

Lemma lasts_send_command (fuel : nat) (ser : serial_ref) (command : string) :
  lasts (send_command_limit command) (S3Live.send_command fuel ser command).
Proof.
  unfold S3Live.send_command.
  eapply lasts_weaken;
    [| apply (lasts_try_except (send_command_limit command) (fun _ => 0));
       [intros; lia | | intros e; apply lasts_ret]]; [intros; cbn; lia |].
  unfold S3Live.send_command_body, send_command_limit.
  assert (Hp : lasts
            (fun t => WAKE_DELAY + collect_limit (S3Live.plain_hard_timeout command) t)
            (let* cr := S3Live.plain_exchange fuel ser command in
             ret (PyStr.strip (fst cr)))).
  { eapply lasts_weaken;
      [| apply (lasts_bind
                  (fun t => WAKE_DELAY
                            + collect_limit (S3Live.plain_hard_timeout command) t)
                  (fun _ => 0));
         [intros; lia | apply lasts_plain_exchange | intros cr; apply lasts_ret]].
    intros; cbn; lia. }
  destruct (S3Live.is_fast command); [| exact Hp].
  apply lasts_bind.
  - intros t Ht. pose proof (plain_hard_timeout_nonneg command).
    pose proof (collect_limit_nonneg (S3Live.plain_hard_timeout command) t).
    unfold WAKE_DELAY. lia.
  - apply lasts_wake_and_send_command.
  - intros r. destruct (S3Live.response_truthy r); [| exact Hp].
    eapply lasts_weaken; [| apply lasts_ret].
    intros t Ht. pose proof (plain_hard_timeout_nonneg command).
    pose proof (collect_limit_nonneg (S3Live.plain_hard_timeout command) t).
    unfold WAKE_DELAY. cbn. lia.
Qed.

(** X5: [send_command] returns within a bound that depends only on the
    command and the poll period: 2.22 s plus the hard timeout and one poll
    for a plain command (32.22 s for a range query), about 60.2 s for a
    fast-turnaround command whose three attempts all run out. *)
Theorem send_command_duration (fuel : nat) (ser : serial_ref)
    (command : string) (w : World) :
  0 <= tick w ->
  let w' := snd (S3Live.send_command fuel ser command w) in
  now w <= now w' <= now w + send_command_limit command (tick w)
  /\ send_command_limit command (tick w)
     = if S3Live.is_fast command then 60180 + 4 * tick w
       else if S3Live.expect_range command then 32220 + tick w
       else 22220 + tick w.
Proof.
  intros Hpos w'. split; [apply (lasts_send_command fuel ser command w Hpos) |].
  unfold send_command_limit, collect_limit, S3Live.plain_hard_timeout,
    S3Live.fast_hard_timeout, WAKE_DELAY, READ_TIMEOUT, S3Live.RETRY_BACKOFF.
  destruct (S3Live.is_fast command) eqn:Hf.
  - assert (Hr : S3Live.expect_range command = false).
    { unfold S3Live.is_fast, S3Live.fast_commands in Hf. cbn in Hf.
      repeat (apply orb_prop in Hf as [Hf | Hf];
              [apply String.eqb_eq in Hf; subst; reflexivity |]).
      discriminate. }
    rewrite Hr. lia.
  - destruct (S3Live.expect_range command); lia.
Qed.

Lemma send_command_duration_witness :
  0 <= tick one_line_world
  /\ now (snd (S3Live.send_command 301 ThePort "range 1 7" one_line_world))
     <= 32320.
Proof.
  assert (Hpos : 0 <= tick one_line_world) by (simpl; lia).
  split; [exact Hpos |].
  destruct (send_command_duration 301 ThePort "range 1 7" one_line_world Hpos)
    as [[_ Hb] Hl].
  rewrite Hl in Hb. exact Hb.
Defined.

(** ** What [send_command] returns and touches *)

Lemma rstrip_idem (s : string) : PyStr.rstrip (PyStr.rstrip s) = PyStr.rstrip s.
Proof.
  induction s as [|c s IH]; [reflexivity |].
  cbn [PyStr.rstrip]. destruct (PyStr.rstrip s) as [|d r] eqn:E.
  - destruct (PyStr.isspace c) eqn:Hc; [reflexivity |].
    cbn. now rewrite Hc.
  - change (PyStr.rstrip (String c (String d r)))
      with (match PyStr.rstrip (String d r) with
            | EmptyString => if PyStr.isspace c then EmptyString else String c EmptyString
            | r' => String c r'
            end).
    now rewrite IH.
Qed.

Lemma lstrip_head (s : string) :
  match PyStr.lstrip s with
  | EmptyString => True
  | String c _ => PyStr.isspace c = false
  end.
Proof.
  induction s as [|c s IH]; cbn; [exact I |].
  destruct (PyStr.isspace c) eqn:Hc; [exact IH | exact Hc].
Qed.

Lemma rstrip_keeps_head (c : ascii) (s : string) :
  PyStr.isspace c = false -> exists r, PyStr.rstrip (String c s) = String c r.
Proof.
  intros Hc. cbn [PyStr.rstrip]. destruct (PyStr.rstrip s); [rewrite Hc |]; eauto.
Qed.

(** [strip] is idempotent. *)
Lemma strip_idem (s : string) : PyStr.strip (PyStr.strip s) = PyStr.strip s.
Proof.
  unfold PyStr.strip. pose proof (lstrip_head s) as H.
  destruct (PyStr.lstrip s) as [|c t]; [reflexivity |].
  destruct (rstrip_keeps_head c t H) as (r & E). rewrite E.
  cbn [PyStr.lstrip]. rewrite H, <- E. apply rstrip_idem.
Qed.

Lemma iteration_stripped (fuel : nat) (ser : serial_ref) (command : string)
    (d max_retries attempt : Z) (w : World) (s : string) (w' : World) :
  S3Live.wake_and_send_iteration fuel ser command d max_retries attempt w
  = (Ok (S3Live.Return s), w') ->
  PyStr.strip s = s.
Proof.
  unfold S3Live.wake_and_send_iteration, try_except. destruct ser.
  - cbn. intros H. inversion H. reflexivity.
  - rewrite bind_run.
    destruct (S3Live.wake_and_send_attempt fuel ThePort command d w)
      as [[cr|e|] w1].
    + destruct (PyStr.truthy (PyStr.strip (fst cr))).
      * cbn. intros H. inversion H. apply strip_idem.
      * destruct (attempt <? max_retries - 1); cbn; intros H; inversion H.
        reflexivity.
    + destruct (is_Exception e); [| discriminate].
      destruct (attempt <? max_retries - 1); cbn; intros H; inversion H.
      reflexivity.
    + discriminate.
Qed.

Lemma wake_and_send_from_stripped (n fuel : nat) (ser : serial_ref)
    (command : string) (d max_retries : Z) :
  forall (attempt : Z) (w : World) (s : string) (w' : World),
  S3Live.wake_and_send_from n fuel ser command d max_retries attempt w
  = (Ok (Some s), w') ->
  PyStr.strip s = s.
Proof.
  induction n as [|n IH]; intros attempt w s w'; cbn [S3Live.wake_and_send_from].
  - discriminate.
  - rewrite bind_run.
    destruct (S3Live.wake_and_send_iteration fuel ser command d max_retries attempt w)
      as [[[s0|]|e|] w1] eqn:E; try discriminate.
    + cbn. intros H. inversion H; subst. eapply iteration_stripped; eauto.
    + apply IH.
Qed.

(** X6: What [send_command] returns carries no blank at either end, so the
    test of the pages on it, [not response or response.strip() == ""],
    holds exactly for the empty string. *)
Theorem send_command_is_stripped (fuel : nat) (ser : serial_ref)
    (command : string) (w : World) (s : string) (w' : World) :
  S3Live.send_command fuel ser command w = (Ok s, w') ->
  PyStr.strip s = s /\ (blank s = true <-> s = EmptyString).
Proof.
  intros Hrun.
  assert (Hs : PyStr.strip s = s).
  { revert Hrun. unfold S3Live.send_command, try_except, S3Live.send_command_body.
    assert (Hplain : forall w0,
               (let* cr := S3Live.plain_exchange fuel ser command in
                ret (PyStr.strip (fst cr))) w0 = (Ok s, w') ->
               PyStr.strip s = s).
    { intros w0. rewrite bind_run.
      destruct (S3Live.plain_exchange fuel ser command w0) as [[cr|e|] w1];
        try discriminate.
      cbn. intros H. inversion H. apply strip_idem. }
    assert (Hexc : forall (e : exn) (w1 : World),
               (if is_Exception e then ret EmptyString w1 else (Raise e, w1))
               = (Ok s, w') -> PyStr.strip s = s).
    { intros e w1. destruct (is_Exception e); [| discriminate].
      cbn. intros H. inversion H. reflexivity. }
    destruct (S3Live.is_fast command).
    - rewrite bind_run.
      destruct (S3Live._wake_and_send_command fuel ser command WAKE_DELAY 3 w)
        as [[r|e|] w1] eqn:E; [| apply Hexc | discriminate].
      destruct (S3Live.response_truthy r) eqn:Hr.
      + destruct r as [s0|]; [| discriminate]. cbn. intros H. inversion H; subst.
        eapply wake_and_send_from_stripped. exact E.
      + destruct ((let* cr := S3Live.plain_exchange fuel ser command in
                   ret (PyStr.strip (fst cr))) w1) as [[s1|e|] w2] eqn:E2;
          [| apply Hexc | discriminate].
        intros H. inversion H; subst. eapply Hplain. exact E2.
    - destruct ((let* cr := S3Live.plain_exchange fuel ser command in
                 ret (PyStr.strip (fst cr))) w) as [[s1|e|] w2] eqn:E2;
        [| apply Hexc | discriminate].
      intros H. inversion H; subst. eapply Hplain. exact E2. }
  split; [exact Hs |].
  unfold blank. rewrite Hs. destruct s; cbn; [tauto |].
  split; [discriminate | discriminate].
Qed.

Lemma send_command_is_stripped_witness :
  S3Live.send_command 301 ThePort "status" third_time_world
  = (Ok "OK", snd (S3Live.send_command 301 ThePort "status" third_time_world))
  /\ PyStr.strip "OK" = "OK".
Proof.
  assert (E : S3Live.send_command 301 ThePort "status" third_time_world
              = (Ok "OK",
                 snd (S3Live.send_command 301 ThePort "status" third_time_world)))
    by (vm_compute; reflexivity).
  split; [exact E |].
  exact (proj1 (send_command_is_stripped _ _ _ _ _ _ E)).
Defined.

(** X7: what [send_command] does to the port and to the connection.  It
    neither opens nor closes the port, writes to it nothing but wake-up
    newlines and the line of the command, shows no message on the page
    and asks for no rerun; it changes neither the connection keys of the
    session ([connected], [connected_port], [serial_connection]) nor the
    table on display; with a [None] reference it returns the empty
    string and leaves the port as it is.  The debug logs, to which every
    call appends, are not part of this statement. *)
Theorem send_command_port_footprint (fuel : nat) (ser : serial_ref)
    (command : string) (w : World) :
  let r := S3Live.send_command fuel ser command w in
  is_open (port (snd r)) = is_open (port w)
  /\ (exists l, tx (port (snd r)) = tx (port w) ++ l
                /\ Forall (fun x => x = nl \/ x = command_line command) l)
  /\ ui (snd r) = ui w
  /\ fst r <> Raise RerunException
  /\ connected (session (snd r)) = connected (session w)
  /\ connected_port (session (snd r)) = connected_port (session w)
  /\ serial_connection (session (snd r)) = serial_connection (session w)
  /\ last_df (session (snd r)) = last_df (session w)
  /\ (ser = PyNone -> fst r = Ok EmptyString /\ port (snd r) = port w).
Proof.
  cbn zeta.
  destruct (link_send_command fuel ser command w)
    as [(_ & _ & Hs & Hu & Ho & _ & Hl) Hr].
  rewrite Hs. repeat split; auto;
    subst ser; unfold S3Live.send_command, try_except;
    now rewrite send_command_body_no_port.
Qed.

(** ** The range queries of the pages *)

Lemma str_of_int_head (n : Z) :
  exists c t, PyStr.str_of_int n = String c t /\ PyStr.isspace c = false.
Proof.
  unfold PyStr.str_of_int.
  destruct (Z.to_int n) as [d|d]; cbn; [| eexists _, _; split; reflexivity].
  destruct d; cbn; eexists _, _; split; reflexivity.
Qed.

Lemma range_rest_nonblank (a b : Z) :
  PyStr.strip (PyStr.str_of_int a +:+ " " +:+ PyStr.str_of_int b) <> EmptyString.
Proof.
  destruct (str_of_int_head a) as (c & t & -> & Hc).
  unfold PyStr.strip. cbn [String.append PyStr.lstrip]. rewrite Hc.
  match goal with
  | |- PyStr.rstrip (String c ?x) <> _ =>
      destruct (rstrip_keeps_head c x Hc) as (r & ->)
  end.
  discriminate.
Qed.

(** X8: Every range query of the pages, whatever its two epochs, takes the
    plain path of [send_command] with the profile of a range query: quiet
    period 1.5 s, hard timeout 30 s, and either end marker ends the
    collection. *)
Theorem range_query_profile (start_epoch end_epoch : Z) :
  let command := S3Live.range_command start_epoch end_epoch in
  S3Live.is_fast command = false
  /\ S3Live.plain_quiet_period command = 1500
  /\ S3Live.plain_hard_timeout command = 30000
  /\ (forall line, S3Live.has_end_marker command line
                   = PyStr.contains DASHBOARD_CLOSE line
                     || PyStr.contains END_READINGS line).
Proof.
  cbn zeta.
  assert (Hr : S3Live.expect_range (S3Live.range_command start_epoch end_epoch) = true).
  { unfold S3Live.range_command. apply expect_range_prefix, range_rest_nonblank. }
  unfold S3Live.plain_quiet_period, S3Live.plain_hard_timeout, S3Live.has_end_marker.
  rewrite Hr. repeat split; reflexivity.
Qed.

(** ** The connection tests *)

Lemma io_guard_ok (ser : serial_ref) (w : World) (u : unit) (w' : World) :
  io_guard ser w = (Ok u, w') ->
  ser = ThePort /\ is_open (port w) = true
  /\ now w' = now w /\ tick w' = tick w /\ rx (port w') = rx (port w)
  /\ is_open (port w') = true.
Proof.
  unfold io_guard. destruct ser; [discriminate |]. cbv zeta.
  destruct (hd NoFault (faults (port w))); try discriminate.
  destruct (is_open (port w)) eqn:Ho; [| discriminate].
  intros H. inversion H; subst. cbn. auto 10.
Qed.

Lemma ser_write_ok (ser : serial_ref) (data : string) (w : World) (u : unit)
    (w' : World) :
  ser_write ser data w = (Ok u, w') ->
  is_open (port w) = true
  /\ now w' = now w /\ tick w' = tick w /\ rx (port w') = rx (port w)
  /\ is_open (port w') = true.
Proof.
  unfold ser_write. rewrite bind_run.
  destruct (io_guard ser w) as [[[]|e|] w1] eqn:E; try discriminate.
  apply io_guard_ok in E as (_ & Ho & Hn & Ht & Hr & Ho').
  cbn. intros H. inversion H; subst. cbn. auto.
Qed.

Lemma ser_flush_ok (ser : serial_ref) (w : World) (u : unit) (w' : World) :
  ser_flush ser w = (Ok u, w') ->
  is_open (port w) = true
  /\ now w' = now w /\ tick w' = tick w /\ rx (port w') = rx (port w)
  /\ is_open (port w') = true.
Proof. intros H. apply io_guard_ok in H. tauto. Qed.

Lemma ser_reset_ok (ser : serial_ref) (w : World) (u : unit) (w' : World) :
  ser_reset_input_buffer ser w = (Ok u, w') ->
  is_open (port w) = true
  /\ now w' = now w /\ tick w' = tick w
  /\ rx (port w') = drop_arrived (now w) (rx (port w))
  /\ is_open (port w') = true.
Proof.
  unfold ser_reset_input_buffer. rewrite bind_run.
  destruct (io_guard ser w) as [[[]|e|] w1] eqn:E; try discriminate.
  apply io_guard_ok in E as (_ & Ho & Hn & Ht & Hr & Ho').
  cbn. intros H. inversion H; subst. cbn. rewrite Hn, Hr. auto.
Qed.

Lemma ser_in_waiting_ok (ser : serial_ref) (w : World) (b : bool) (w' : World) :
  ser_in_waiting ser w = (Ok b, w') ->
  ser = ThePort
  /\ now w' = now w + tick w /\ tick w' = tick w
  /\ rx (port w') = rx (port w)
  /\ b = match rx (port w) with
         | e :: _ => arrived (now w + tick w) e
         | [] => false
         end.
Proof.
  unfold ser_in_waiting. rewrite bind_run.
  destruct (io_guard ser w) as [[[]|e|] w1] eqn:E; try discriminate.
  apply io_guard_ok in E as (-> & Ho & Hn & Ht & Hr & Ho').
  cbn. intros H. inversion H; subst. cbn. rewrite Hn, Ht, Hr. auto.
Qed.

Lemma ser_readline_ok (ser : serial_ref) (w : World) (raw : string) (w' : World) :
  ser_readline ser w = (Ok raw, w') ->
  match rx (port w) with
  | e :: rest =>
      if arrived (now w) e
      then raw = snd e /\ rx (port w') = rest /\ now w' = now w
      else raw = EmptyString /\ rx (port w') = rx (port w)
  | [] => raw = EmptyString /\ rx (port w') = rx (port w)
  end
  /\ tick w' = tick w.
Proof.
  unfold ser_readline. rewrite bind_run.
  destruct (io_guard ser w) as [[[]|e|] w1] eqn:E; try discriminate.
  apply io_guard_ok in E as (_ & Ho & Hn & Ht & Hr & Ho').
  rewrite Hr, Hn. destruct (rx (port w)) as [|e rest].
  - intros H. inversion H; subst. cbn. auto.
  - destruct (arrived (now w) e); intros H; inversion H; subst; cbn; auto.
Qed.

Lemma quick_loop_true (fuel : nat) (ser : serial_ref) (start : Z) (w w' : World) :
  S3Live.quick_loop fuel ser start w = (Ok true, w') ->
  exists e, In e (rx (port w)) /\ S3Live.is_status_reply (received e) = true.
Proof.
  revert w. induction fuel as [|fuel IH]; intros w; [discriminate |].
  cbn [S3Live.quick_loop]. rewrite bind_run. cbn [time_time gets fst snd].
  cbv beta iota.
  destruct (negb (now w - start <? S3Live.QUICK_TIMEOUT)); [discriminate |].
  rewrite bind_run.
  destruct (ser_in_waiting ser w) as [[b|x|] w1] eqn:E1; try discriminate.
  apply ser_in_waiting_ok in E1 as (_ & Hn1 & Ht1 & Hr1 & Hb).
  destruct b.
  - rewrite bind_run.
    destruct (ser_readline ser w1) as [[raw|x|] w2] eqn:E2; try discriminate.
    apply ser_readline_ok in E2 as [E2 _]. rewrite Hr1, Hn1 in E2.
    destruct (rx (port w)) as [|e rest]; [discriminate |].
    rewrite <- Hb in E2. destruct E2 as (-> & Hr2 & _).
    destruct (S3Live.is_status_reply (PyStr.strip (decode_ignore (snd e)))) eqn:Hs.
    + intros _. exists e. split; [left; reflexivity | exact Hs].
    + intros H. apply IH in H as (e' & Hin & He'). rewrite Hr2 in Hin.
      exists e'. split; [right; exact Hin | exact He'].
  - intros H. apply IH in H as (e' & Hin & He'). rewrite Hr1 in Hin. eauto.
Qed.

Lemma test_loop_true (fuel : nat) (ser : serial_ref) (start : Z) (w w' : World) :
  S3Live.test_loop fuel ser start w = (Ok true, w') ->
  exists e, In e (rx (port w)) /\ S3Live.is_live_reply (received e) = true.
Proof.
  revert w. induction fuel as [|fuel IH]; intros w; [discriminate |].
  cbn [S3Live.test_loop]. rewrite bind_run. cbn [time_time gets fst snd].
  cbv beta iota.
  destruct (negb (now w - start <? S3Live.TEST_TIMEOUT)); [discriminate |].
  rewrite bind_run.
  destruct (ser_in_waiting ser w) as [[b|x|] w1] eqn:E1; try discriminate.
  apply ser_in_waiting_ok in E1 as (_ & Hn1 & Ht1 & Hr1 & Hb).
  destruct b.
  - rewrite bind_run.
    destruct (ser_readline ser w1) as [[raw|x|] w2] eqn:E2; try discriminate.
    apply ser_readline_ok in E2 as [E2 _]. rewrite Hr1, Hn1 in E2.
    destruct (rx (port w)) as [|e rest]; [discriminate |].
    rewrite <- Hb in E2. destruct E2 as (-> & Hr2 & _).
    destruct (S3Live.is_live_reply (PyStr.strip (decode_ignore (snd e)))) eqn:Hs.
    + intros _. exists e. split; [left; reflexivity | exact Hs].
    + intros H. apply IH in H as (e' & Hin & He'). rewrite Hr2 in Hin.
      exists e'. split; [right; exact Hin | exact He'].
  - intros H. apply IH in H as (e' & Hin & He'). rewrite Hr1 in Hin. eauto.
Qed.

Lemma try_except_all_ok {A : Type} (m : M A) (v : A) (w : World) (b : A)
    (w' : World) :
  try_except m (fun _ => ret v) w = (Ok b, w') ->
  m w = (Ok b, w') \/ b = v.
Proof.
  unfold try_except. destruct (m w) as [[a|e|] w1]; try discriminate.
  - auto.
  - destruct e; cbn; intros H; inversion H; auto.
Qed.

Lemma link_test_loop (P : string -> Prop) (fuel : nat) (ser : serial_ref)
    (start : Z) :
  link_comp P (S3Live.test_loop fuel ser start).
Proof.
  induction fuel as [|fuel IH]; simpl.
  - apply link_diverge.
  - link_auto; apply IH.
Qed.

Lemma link_test_connection (fuel : nat) (ser : serial_ref) :
  link_comp (wire "time") (S3Live.test_connection fuel ser).
Proof.
  unfold S3Live.test_connection.
  link_auto; try (now right); try (now left).
  - apply link_wake_serial; [now left | vm_compute; discriminate].
  - apply link_test_loop.
Qed.

(** The loop of the connection test ends before its fuel. *)
Lemma test_loop_settles (start : Z) (fuel : nat) :
  forall w : World,
  0 < tick w -> (1 <= fuel)%nat ->
  start + S3Live.TEST_TIMEOUT - now w <= (Z.of_nat fuel - 1) * tick w ->
  settles w (fst (S3Live.test_loop fuel ThePort start w)).
Proof.
  induction fuel as [|fuel IH]; intros w Htick Hpos Hfuel; [lia |].
  cbn [S3Live.test_loop]. unfold bind at 1, time_time, gets.
  destruct (now w - start <? S3Live.TEST_TIMEOUT) eqn:Hlt; cbn [negb].
  2:{ cbn. auto. }
  apply Z.ltb_lt in Hlt.
  rewrite bind_run.
  pose proof (ser_in_waiting_inv w) as Hw.
  destruct (ser_in_waiting ThePort w) as [[b|e|] w1]; [| simpl; auto | contradiction].
  destruct Hw as (Hn1 & Ht1 & _ & _ & Hc1). apply (settles_later w w1); [exact Hc1 |].
  assert (Hfuel1 : (1 <= fuel)%nat) by nia.
  destruct b.
  - rewrite bind_run.
    pose proof (ser_readline_inv w1) as Hr.
    destruct (ser_readline ThePort w1) as [[raw|e|] w2]; [| simpl; auto | contradiction].
    destruct Hr as (Hn2 & Ht2 & Hc2 & _). apply (settles_later w1 w2); [exact Hc2 |].
    destruct (S3Live.is_live_reply _); [cbn; auto |].
    apply IH; [lia | exact Hfuel1 | rewrite Ht2, Ht1; nia].
  - apply IH; [lia | exact Hfuel1 | rewrite Ht1; nia].
Qed.

Lemma test_connection_returns (fuel : nat) (ser : serial_ref) (w : World) :
  page_fuel fuel w ->
  exists v w', S3Live.test_connection fuel ser w = (Ok v, w').
Proof.
  intros Hpf. pose proof (page_fuel_enough fuel w Hpf) as Hf.
  destruct Hpf as [Htick Hpf].
  unfold S3Live.test_connection.
  destruct ser; [cbn; eauto |].
  assert (Hb : settles w (fst ((S3Live._wake_serial ThePort WAKE_DELAY >>
             ser_write ThePort (command_line "time") >>
             ser_flush ThePort >>
             let* start_time := time_time in
             S3Live.test_loop fuel ThePort start_time) w))).
  { apply (settles_bind anything);
      [apply link_wake_serial; [exact I | vm_compute; discriminate]
      | now apply (behaves_wake_serial fuel) |].
    intros _ w1 L1. apply (settles_bind anything);
      [apply link_ser_write; exact I
      | apply (behaves_ser_write fuel); now apply (link_step_fuel anything _ w) |].
    intros _ w2 L2. pose proof (link_step_trans _ _ _ _ L1 L2) as L12.
    apply (settles_bind anything);
      [apply link_ser_flush
      | apply (behaves_ser_flush fuel); now apply (link_step_fuel anything _ w) |].
    intros _ w3 L3. pose proof (link_step_trans _ _ _ _ L12 L3) as L13.
    destruct L13 as (Ht & _).
    unfold bind, time_time, gets.
    apply test_loop_settles; [lia | nia |].
    unfold S3Live.TEST_TIMEOUT. rewrite Ht. nia. }
  assert (Hl : link_comp anything
            (S3Live._wake_serial ThePort WAKE_DELAY >>
             ser_write ThePort (command_line "time") >>
             ser_flush ThePort >>
             let* start_time := time_time in
             S3Live.test_loop fuel ThePort start_time)).
  { link_auto; try exact I.
    - apply link_wake_serial; [exact I | vm_compute; discriminate].
    - apply link_test_loop. }
  unfold try_except.
  destruct (Hl w) as [_ Hr]. destruct Hb as [Hd _].
  destruct ((S3Live._wake_serial ThePort WAKE_DELAY >> _) w) as [[v|e|] w1];
    simpl in *; [eauto | | contradiction].
  destruct e; cbn; eauto. now contradiction Hr.
Qed.

Lemma bind_ok {A B : Type} (m : M A) (k : A -> M B) (w : World) (b : B)
    (w' : World) :
  bind m k w = (Ok b, w') ->
  exists a w1, m w = (Ok a, w1) /\ k a w1 = (Ok b, w').
Proof.
  rewrite bind_run. destruct (m w) as [[a|e|] w1]; try discriminate. eauto.
Qed.

Lemma time_sleep_ok (d : Z) (w : World) (u : unit) (w' : World) :
  time_sleep d w = (Ok u, w') ->
  now w' = now w + d /\ tick w' = tick w /\ rx (port w') = rx (port w).
Proof. unfold time_sleep, modify. intros H. inversion H; subst. cbn. auto. Qed.

Lemma keeps_rx_bind {A B : Type} (m : M A) (k : A -> M B) :
  keeps_rx m -> (forall a, keeps_rx (k a)) -> keeps_rx (bind m k).
Proof.
  intros Hm Hk w. rewrite bind_run. specialize (Hm w).
  destruct (m w) as [[a|e|] w1]; cbn in *; try exact Hm.
  rewrite Hk. exact Hm.
Qed.

Lemma keeps_rx_try_except {A : Type} (m : M A) (h : exn -> M A) :
  keeps_rx m -> (forall e, keeps_rx (h e)) -> keeps_rx (try_except m h).
Proof.
  intros Hm Hh w. unfold try_except. specialize (Hm w).
  destruct (m w) as [[a|e|] w1]; cbn in *; try exact Hm.
  destruct e; try exact Hm; cbn; rewrite Hh; exact Hm.
Qed.

Lemma keeps_rx_io_guard (ser : serial_ref) : keeps_rx (io_guard ser).
Proof.
  intros w. unfold io_guard. destruct ser; [reflexivity |]. cbv zeta.
  destruct (hd NoFault (faults (port w))); try reflexivity.
  destruct (is_open (port w)); reflexivity.
Qed.

Lemma keeps_rx_wake_serial (ser : serial_ref) (d : Z) :
  keeps_rx (S3Live._wake_serial ser d).
Proof.
  unfold S3Live._wake_serial.
  apply keeps_rx_try_except.
  - apply keeps_rx_bind; [destruct ser; intros w; reflexivity |].
    intros valid. destruct (negb valid); [intros w; reflexivity |].
    apply keeps_rx_bind.
    { unfold ser_write. apply keeps_rx_bind; [apply keeps_rx_io_guard |].
      intros _ w. reflexivity. }
    intros _. apply keeps_rx_bind; [apply keeps_rx_io_guard |].
    intros _ w. reflexivity.
  - intros e. destruct (is_serial_exception e); intros w; reflexivity.
Qed.

Lemma test_connection_quick_true (fuel : nat) (ser : serial_ref) (w w' : World) :
  S3Live.test_connection_quick fuel ser w = (Ok true, w') ->
  ser = ThePort /\ is_open (port w) = true
  /\ exists e, In e (drop_arrived (now w) (rx (port w)))
               /\ S3Live.is_status_reply (received e) = true.
Proof.
  unfold S3Live.test_connection_quick.
  destruct ser; [discriminate |].
  rewrite bind_run. cbn [S3Live.is_serial_valid gets].
  destruct (is_open (port w)) eqn:Ho; cbn [negb]; [| discriminate].
  intros H. apply try_except_all_ok in H as [H | H]; [| discriminate].
  apply bind_ok in H as (? & w1 & E1 & H).
  apply bind_ok in H as (? & w2 & E2 & H).
  apply bind_ok in H as (? & w3 & E3 & H).
  apply bind_ok in H as (? & w4 & E4 & H).
  apply bind_ok in H as (start & w5 & E5 & H).
  apply ser_reset_ok in E1 as (_ & _ & _ & R1 & _).
  apply ser_write_ok in E2 as (_ & _ & _ & R2 & _).
  apply ser_flush_ok in E3 as (_ & _ & _ & R3 & _).
  apply time_sleep_ok in E4 as (_ & _ & R4).
  inversion E5; subst w5. clear E5.
  apply quick_loop_true in H as (e & Hin & He).
  repeat split; try reflexivity.
  exists e. split; [| exact He]. congruence.
Qed.

Lemma test_connection_true (fuel : nat) (ser : serial_ref) (w w' : World) :
  S3Live.test_connection fuel ser w = (Ok true, w') ->
  ser = ThePort /\ is_open (port w) = true
  /\ exists e, In e (rx (port w)) /\ S3Live.is_live_reply (received e) = true.
Proof.
  unfold S3Live.test_connection.
  intros H. apply try_except_all_ok in H as [H | H]; [| discriminate].
  apply bind_ok in H as (? & w1 & E1 & H).
  apply bind_ok in H as (? & w2 & E2 & H).
  apply bind_ok in H as (? & w3 & E3 & H).
  apply bind_ok in H as (start & w4 & E4 & H).
  pose proof (keeps_rx_wake_serial ser WAKE_DELAY w) as R1.
  pose proof (link_wake_serial anything ser WAKE_DELAY I ltac:(vm_compute; discriminate) w)
    as [(_ & _ & _ & _ & O1 & _) _].
  rewrite E1 in R1, O1. cbn in R1, O1.
  pose proof E2 as G2. unfold ser_write in G2.
  apply bind_ok in G2 as (? & ? & G2 & _).
  apply io_guard_ok in G2 as (-> & _).
  apply ser_write_ok in E2 as (O2 & _ & _ & R2 & _).
  apply ser_flush_ok in E3 as (_ & _ & _ & R3 & _).
  inversion E4; subst w4. clear E4.
  apply test_loop_true in H as (e & Hin & He).
  repeat split; [congruence |].
  exists e. split; [| exact He]. congruence.
Qed.

Lemma drop_arrived_all (t : Z) (l : list (Z * string)) :
  forallb (arrived t) l = true -> drop_arrived t l = [].
Proof.
  induction l as [|e l IH]; [reflexivity |]. cbn.
  destruct (arrived t e); [exact IH | discriminate].
Qed.

(** X9: With fuel for its one-second loop [test_connection_quick] returns a
    verdict and raises nothing.  The verdict is [True] only on an open
    port, and only if one of the lines that were still to come when the
    input buffer was cleared at the start of the test is a status reply
    ([CMD_RECEIVED], [Dashboard Mode], [ACTIVE] or [INACTIVE]).  With a
    [None] reference or a port that is not open nothing is touched. *)
Theorem test_connection_quick_verdict (fuel : nat) (ser : serial_ref) (w : World) :
  page_fuel fuel w ->
  exists v w',
    S3Live.test_connection_quick fuel ser w = (Ok v, w')
    /\ (v = true ->
        ser = ThePort /\ is_open (port w) = true
        /\ exists e, In e (drop_arrived (now w) (rx (port w)))
                     /\ S3Live.is_status_reply (received e) = true)
    /\ (ser = PyNone \/ is_open (port w) = false -> w' = w).
Proof.
  intros Hpf.
  destruct (test_connection_quick_returns fuel ser w Hpf) as (v & w' & Hrun).
  exists v, w'. split; [exact Hrun |]. split.
  - intros ->. now apply (test_connection_quick_true fuel ser w w').
  - revert Hrun. unfold S3Live.test_connection_quick.
    intros Hrun [-> | Hc].
    + cbn in Hrun. now inversion Hrun.
    + destruct ser; cbn in Hrun; [now inversion Hrun |].
      rewrite Hc in Hrun. cbn in Hrun. now inversion Hrun.
Qed.

Lemma test_connection_quick_verdict_witness :
  exists v w',
    S3Live.test_connection_quick 301 ThePort third_time_world = (Ok v, w').
Proof.
  destruct (test_connection_quick_verdict 301 ThePort third_time_world)
    as (v & w' & H & _).
  - split; vm_compute; [reflexivity | discriminate].
  - exists v, w'. exact H.
Defined.

(** X10: With fuel for its two-second loop [test_connection] returns a
    verdict and raises nothing.  The verdict is [True] only on an open
    port, and only if one of the lines waiting or still to come is not
    empty and does not hold [RTC not available]. *)
Theorem test_connection_verdict (fuel : nat) (ser : serial_ref) (w : World) :
  page_fuel fuel w ->
  exists v w',
    S3Live.test_connection fuel ser w = (Ok v, w')
    /\ (v = true ->
        ser = ThePort /\ is_open (port w) = true
        /\ exists e, In e (rx (port w))
                     /\ S3Live.is_live_reply (received e) = true).
Proof.
  intros Hpf.
  destruct (test_connection_returns fuel ser w Hpf) as (v & w' & Hrun).
  exists v, w'. split; [exact Hrun |].
  intros ->. now apply (test_connection_true fuel ser w w').
Qed.

Lemma test_connection_verdict_witness :
  exists v w', S3Live.test_connection 301 ThePort third_time_world = (Ok v, w').
Proof.
  destruct (test_connection_verdict 301 ThePort third_time_world)
    as (v & w' & H & _).
  - split; vm_compute; [reflexivity | discriminate].
  - exists v, w'. exact H.
Defined.

(** X11: [test_connection] does not clear the input buffer: on a link without
    faults a line that was already waiting when the test began, not empty
    and without [RTC not available], makes it return [True].
    [test_connection_quick] clears the buffer first: when every line had
    already arrived it does not return [True], status reply or not. *)
Theorem stale_line_passes_test_connection (fuel : nat) (w : World)
    (e : Z * string) (rest : list (Z * string)) :
  clean w -> 0 <= tick w -> (1 <= fuel)%nat ->
  rx (port w) = e :: rest ->
  fst e <= now w ->
  S3Live.is_live_reply (received e) = true ->
  fst (S3Live.test_connection fuel ThePort w) = Ok true
  /\ (S3Live.is_status_reply (received e) = true ->
      forallb (arrived (now w)) (rx (port w)) = true ->
      fst (S3Live.test_connection_quick fuel ThePort w) <> Ok true).
Proof.
  intros Hc Htick Hfuel Hrx Hstale Hlive. split.
  - unfold S3Live.test_connection, try_except.
    rewrite bind_run. unfold S3Live._wake_serial at 1, try_except.
    rewrite bind_run, (is_serial_valid_clean w Hc). cbn [negb].
    rewrite bind_run.
    destruct (ser_write_clean nl w Hc) as (w1 & -> & Hc1 & Hn1 & Ht1 & Hr1).
    rewrite bind_run.
    destruct (ser_flush_clean w1 Hc1) as (w2 & -> & Hc2 & Hn2 & Ht2 & Hr2).
    unfold time_sleep at 1, modify.
    set (w3 := set_now (now w2 + WAKE_DELAY) w2).
    assert (Hc3 : clean w3) by exact Hc2.
    rewrite bind_run.
    destruct (ser_write_clean (command_line "time") w3 Hc3)
      as (w4 & -> & Hc4 & Hn4 & Ht4 & Hr4).
    rewrite bind_run.
    destruct (ser_flush_clean w4 Hc4) as (w5 & -> & Hc5 & Hn5 & Ht5 & Hr5).
    rewrite bind_run. cbn [time_time gets].
    destruct fuel as [|fuel]; [lia |].
    cbn [S3Live.test_loop]. rewrite bind_run. cbn [time_time gets].
    rewrite Z.sub_diag. change (negb (0 <? S3Live.TEST_TIMEOUT)) with false.
    cbv iota. rewrite bind_run.
    assert (Hrx5 : rx (port w5) = e :: rest).
    { rewrite Hr5, Hr4. subst w3. cbn. congruence. }
    assert (Hnow5 : now w5 = now w + WAKE_DELAY).
    { rewrite Hn5, Hn4. subst w3. cbn. congruence. }
    assert (Htick5 : tick w5 = tick w).
    { rewrite Ht5, Ht4. subst w3. cbn. congruence. }
    pose proof (ser_in_waiting_inv w5) as Hw.
    destruct (ser_in_waiting ThePort w5) as [[b|x|] w6];
      [| now contradiction Hw | contradiction].
    destruct Hw as (Hn6 & Ht6 & Hr6 & Hb & Hc6).
    rewrite Hrx5 in Hb.
    assert (Harr : arrived (now w6) e = true).
    { unfold arrived. apply Z.leb_le. unfold WAKE_DELAY in Hnow5. lia. }
    rewrite <- Hn6, Harr in Hb. subst b.
    rewrite bind_run.
    pose proof (ser_readline_inv w6) as Hl.
    destruct (ser_readline ThePort w6) as [[raw|x|] w7];
      [| exfalso; apply Hl; auto | contradiction].
    destruct Hl as (_ & _ & _ & Hl).
    destruct (Hl e rest ltac:(congruence) Harr) as (-> & _).
    unfold received in Hlive. rewrite Hlive. reflexivity.
  - intros _ Hall Hq.
    destruct (S3Live.test_connection_quick fuel ThePort w) as [r w'] eqn:E.
    cbn in Hq. subst r.
    apply test_connection_quick_true in E as (_ & _ & x & Hin & _).
    rewrite (drop_arrived_all _ _ Hall) in Hin. exact Hin.
Qed.

Lemma stale_line_passes_test_connection_witness :
  fst (S3Live.test_connection 1 ThePort stale_world) = Ok true
  /\ fst (S3Live.test_connection_quick 1 ThePort stale_world) <> Ok true.
Proof.
  destruct (stale_line_passes_test_connection 1 stale_world
              (400, "ACTIVE" +:+ nl) [])
    as [H1 H2]; try (vm_compute; reflexivity).
  - split; reflexivity.
  - cbn. lia.
  - vm_compute. discriminate.
  - split; [exact H1 | apply H2; reflexivity].
Defined.

(** ** Lost links in [get_variable_with_markers] *)

Lemma untouched_refl (w : World) : untouched w w.
Proof. split; reflexivity. Qed.

Lemma untouched_then (w w1 w2 : World) :
  untouched w w1 -> untouched w1 w2 -> untouched w w2.
Proof. intros [H1 H2] [H3 H4]. split; congruence. Qed.

Lemma untouched_lost (w w1 w2 : World) :
  untouched w w1 -> lost w1 w2 -> lost w w2.
Proof.
  intros [H1 H2] [H3 (msg & H4)]. split; [congruence |].
  exists msg. congruence.
Qed.

Lemma link_untouched {A : Type} (P : string -> Prop) (m : M A) (w : World) :
  link_comp P m -> untouched w (snd (m w)).
Proof. intros H. destruct (H w) as [(_ & _ & Hs & Hu & _) _]. now split. Qed.

Lemma gives_up_link {A : Type} (P : string -> Prop) (none : A) (m : M A) :
  link_comp P m -> gives_up none m.
Proof.
  intros H w. split; [apply (H w) |]. left. now apply (link_untouched P).
Qed.

Lemma gives_up_ret {A : Type} (none a : A) : gives_up none (ret a).
Proof. intros w. split; [discriminate |]. left. apply untouched_refl. Qed.

Lemma reports_gives_up {A : Type} (none : A) (m : M A) :
  reports none m -> gives_up none m.
Proof.
  intros H w. destruct (H w) as [He Hs]. split; [| exact Hs].
  intros E. now specialize (He _ E).
Qed.

Lemma gives_up_bind_link {A B : Type} (P : string -> Prop) (none : B)
    (m : M A) (k : A -> M B) :
  link_comp P m -> (forall a, gives_up none (k a)) -> gives_up none (bind m k).
Proof.
  intros Hm Hk w. rewrite bind_run.
  pose proof (link_untouched P m w Hm) as Hu. destruct (Hm w) as [_ Hr].
  destruct (m w) as [[a|e|] w1]; cbn in *.
  - destruct (Hk a w1) as [Hr' [H | [H E]]]; (split; [exact Hr' |]).
    + left. now apply (untouched_then w w1).
    + right. split; [now apply (untouched_lost w w1) | exact E].
  - split; [intros E; apply Hr; now inversion E | now left].
  - split; [discriminate | now left].
Qed.

Lemma gives_up_bind {A B : Type} (n1 : A) (n2 : B) (m : M A) (k : A -> M B) :
  gives_up n1 m -> (forall w, k n1 w = (Ok n2, w)) ->
  (forall a, gives_up n2 (k a)) -> gives_up n2 (bind m k).
Proof.
  intros Hm Hn Hk w. rewrite bind_run.
  destruct (Hm w) as [Hr [Hu | [Hl E]]].
  - destruct (m w) as [[a|e|] w1]; cbn in *.
    + destruct (Hk a w1) as [Hr' [H | [H E]]]; (split; [exact Hr' |]).
      * left. now apply (untouched_then w w1).
      * right. split; [now apply (untouched_lost w w1) | exact E].
    + split; [intros E; apply Hr; now inversion E | now left].
    + split; [discriminate | now left].
  - destruct (m w) as [[a|e|] w1]; cbn in *; try discriminate.
    inversion E; subst a. rewrite Hn. cbn. split; [discriminate |].
    right. now split.
Qed.

Lemma report_lost_run (msg : string) (w : World) :
  exists w', S3Live.report_lost msg w = (Ok tt, w') /\ lost w w' /\ port w' = port w.
Proof.
  eexists. split; [reflexivity |]. split; [| reflexivity].
  split; [reflexivity |]. exists msg. reflexivity.
Qed.

(** The handler of the serial exceptions turns [gives_up] into
    [reports]. *)
Lemma reports_handler {A : Type} (none : A) (msg : string) (m : M A) :
  gives_up none m ->
  reports none (try_except_serial m (fun _ => S3Live.report_lost msg >> ret none)).
Proof.
  intros Hm w. unfold try_except_serial.
  destruct (Hm w) as [Hr Hs].
  destruct (m w) as [[a|e|] w1]; cbn in *.
  - split; [discriminate | exact Hs].
  - destruct Hs as [Hu | [_ E]]; [| discriminate].
    destruct e; cbn.
    + split; [discriminate |]. right. split; [| reflexivity].
      apply (untouched_lost w w1); [exact Hu |].
      split; [reflexivity |]. exists msg. reflexivity.
    + split; [discriminate |]. right. split; [| reflexivity].
      apply (untouched_lost w w1); [exact Hu |].
      split; [reflexivity |]. exists msg. reflexivity.
    + split; [intros e E; now inversion E | now left].
    + now contradiction Hr.
  - split; [discriminate | exact Hs].
Qed.

Lemma reports_bind {A B : Type} (n1 : A) (n2 : B) (m : M A) (k : A -> M B) :
  reports n1 m -> (forall w, k n1 w = (Ok n2, w)) ->
  (forall a, reports n2 (k a)) -> reports n2 (bind m k).
Proof.
  intros Hm Hn Hk w. rewrite bind_run.
  destruct (Hm w) as [Hr [Hu | [Hl E]]].
  - destruct (m w) as [[a|e|] w1]; cbn in *.
    + destruct (Hk a w1) as [Hr' [H | [H E]]]; (split; [exact Hr' |]).
      * left. now apply (untouched_then w w1).
      * right. split; [now apply (untouched_lost w w1) | exact E].
    + split; [intros e' E; apply (Hr e'); now inversion E | now left].
    + split; [discriminate | now left].
  - destruct (m w) as [[a|e|] w1]; cbn in *; try discriminate.
    inversion E; subst a. rewrite Hn. cbn. split; [discriminate |].
    right. now split.
Qed.

Lemma reports_ret {A : Type} (none a : A) : reports none (ret a).
Proof. intros w. split; [discriminate |]. left. apply untouched_refl. Qed.

Lemma reports_report_lost {A : Type} (none : A) (msg : string) :
  reports none (S3Live.report_lost msg >> ret none).
Proof.
  intros w. split; [discriminate |]. right. split; [| reflexivity].
  split; [reflexivity |]. exists msg. reflexivity.
Qed.

Lemma reports_after_valid {A : Type} (none : A) (ser : serial_ref)
    (k : bool -> M A) :
  (forall b, reports none (k b)) ->
  reports none (bind (S3Live.is_serial_valid ser) k).
Proof.
  intros Hk w. rewrite bind_run.
  destruct ser; cbn; apply Hk.
Qed.

Lemma reports_get_loop (fuel : nat) (ser : serial_ref) (smark emark : string)
    (start : Z) :
  forall found lb,
  reports ReturnedNone (S3Live.get_loop fuel ser smark emark start found lb).
Proof.
  induction fuel as [|fuel IH]; intros found lb.
  - intros w. cbn. split; [discriminate | left; apply untouched_refl].
  - cbn [S3Live.get_loop].
    intros w. rewrite bind_run. cbn [time_time gets fst snd]. cbv beta iota.
    destruct (negb _); [apply reports_ret |].
    apply reports_after_valid. intros valid.
    destruct (negb valid); [apply reports_report_lost |].
    apply (reports_bind (inl tt)).
    + apply reports_handler.
      apply (gives_up_link anything). link_auto.
    + reflexivity.
    + intros [[] | [st |]]; [apply reports_ret | apply IH | apply reports_ret].
Qed.

(** X12: No serial exception leaves [get_variable_with_markers] of the S3
    dashboard, whatever the link does: the run leaves the session state
    and the page alone, or it shows one error, marks the session
    disconnected (the flag, the port name and the connection are cleared)
    and returns [None].  Only an exception that is not a serial one can
    leave it. *)
Theorem get_variable_reports_lost_link (fuel : nat) (ser : serial_ref)
    (var : string) (w : World) :
  let r := S3Live.get_variable_with_markers fuel ser var w in
  (forall e, fst r = Raise e -> e = OtherException)
  /\ (untouched w (snd r) \/ (lost w (snd r) /\ fst r = Ok None)).
Proof.
  cbv zeta. revert w. change (reports None (S3Live.get_variable_with_markers fuel ser var)).
  unfold S3Live.get_variable_with_markers.
  apply reports_after_valid. intros valid.
  destruct (negb valid); [apply reports_report_lost |].
  apply (reports_bind false).
  - apply reports_handler. apply (gives_up_link anything).
    link_auto. apply link_wake_serial; [exact I | vm_compute; discriminate].
  - reflexivity.
  - intros woke. destruct (negb woke); [apply reports_ret |].
    apply reports_handler.
    apply (gives_up_bind_link anything); [apply link_ser_write; exact I |].
    intros _. apply (gives_up_bind_link anything); [apply link_ser_flush |].
    intros _. apply (gives_up_bind_link anything);
      [apply link_time_sleep; vm_compute; discriminate |].
    intros _. apply (gives_up_bind_link anything); [apply link_time_time |].
    intros start.
    apply (gives_up_bind ReturnedNone).
    + apply reports_gives_up, reports_get_loop.
    + reflexivity.
    + intros [|lb]; apply gives_up_ret.
Qed.

(** X13: On a port that is not open [get_variable_with_markers] of the S3
    dashboard returns [None] without touching the port, after the error
    and the disconnection; the one of the older dashboard, on a link
    without scripted faults, raises the serial exception of the first
    operation after the wake-up. *)
Theorem get_variable_on_closed_port (fuel : nat) (var : string) (w : World) :
  is_open (port w) = false ->
  (let r := S3Live.get_variable_with_markers fuel ThePort var w in
   fst r = Ok None /\ lost w (snd r) /\ port (snd r) = port w)
  /\ (faults (port w) = [] ->
      fst (MultiButton.get_variable_with_markers fuel ThePort var w)
      = Raise SerialException).
Proof.
  intros Ho. split.
  - cbv zeta. unfold S3Live.get_variable_with_markers.
    rewrite bind_run. cbn [S3Live.is_serial_valid gets]. rewrite Ho.
    cbn. repeat split. eexists. reflexivity.
  - intros Hf. destruct w as [n t [o r x f] ss u]. cbn in Ho, Hf. subst o f.
    reflexivity.
Qed.

Lemma get_variable_on_closed_port_witness :
  fst (S3Live.get_variable_with_markers 50 ThePort "ssid"
         (set_port (set_is_open false (port ssid_world)) ssid_world)) = Ok None
  /\ fst (MultiButton.get_variable_with_markers 50 ThePort "ssid"
         (set_port (set_is_open false (port ssid_world)) ssid_world))
     = Raise SerialException.
Proof.
  destruct (get_variable_on_closed_port 50 "ssid"
              (set_port (set_is_open false (port ssid_world)) ssid_world))
    as [(H1 & _) H2]; [reflexivity |].
  split; [exact H1 | apply H2; reflexivity].
Defined.

(** ** The end of a run of the dashboard tab *)

Section EndingFacts.

Variable to_epoch : string -> Z -> Z.
Variable utc_to_local : string -> string -> option string.
Variable to_dataframe : list Reading -> option DataFrame.
Variable fuel : nat.
Variable inp : S3Live.RunInput.

Local Abbreviation ends := (ends to_dataframe inp).

Lemma ends_bind_at {A B : Type} (m : M A) (k : A -> M B) (w : World) :
  ends w (m w) ->
  (forall a w1, m w = (Ok a, w1) -> tick w1 = tick w -> ends w1 (k a w1)) ->
  ends w (bind m k w).
Proof.
  intros [Ht Hm] Hk. rewrite bind_run.
  destruct (m w) as [[a|e|] w1] eqn:E; cbn in *.
  - destruct (Hk a w1 eq_refl Ht) as [Ht' Hr]. split; [congruence | exact Hr].
  - split; [exact Ht | exact Hm].
  - contradiction.
Qed.

Lemma halts_bind_at {A B : Type} (m : M A) (k : A -> M B) (w : World) :
  halts w (m w) ->
  (forall a w1, m w = (Ok a, w1) -> tick w1 = tick w -> halts w1 (k a w1)) ->
  halts w (bind m k w).
Proof.
  intros [Ht Hm] Hk. rewrite bind_run.
  destruct (m w) as [[a|e|] w1] eqn:E; cbn in *.
  - destruct (Hk a w1 eq_refl Ht) as [Ht' Hr]. split; [congruence | exact Hr].
  - split; [exact Ht | discriminate].
  - contradiction.
Qed.

Lemma ends_try_except_at {A : Type} (m : M A) (h : exn -> M A) (w : World) :
  halts w (m w) ->
  (forall e w1, tick w1 = tick w -> ends w1 (h e w1)) ->
  ends w (try_except m h w).
Proof.
  intros [Ht Hm] Hh. unfold try_except.
  destruct (m w) as [[a|e|] w1] eqn:E; cbn in *.
  - split; [exact Ht | exact I].
  - destruct e; cbn;
      first [ destruct (Hh SerialException w1 Ht) as [Ht' Hr];
              split; [congruence | exact Hr]
            | destruct (Hh AttributeError w1 Ht) as [Ht' Hr];
              split; [congruence | exact Hr]
            | destruct (Hh OtherException w1 Ht) as [Ht' Hr];
              split; [congruence | exact Hr]
            | split; [exact Ht | exact I] ].
  - contradiction.
Qed.

Lemma ends_halts {A : Type} (w : World) (r : outcome A * World) :
  ends w r -> halts w r.
Proof.
  intros [Ht Hr]. split; [exact Ht |]. intros E. rewrite E in Hr. exact Hr.
Qed.

Lemma ends_Ok {A : Type} (w w' : World) (a : A) :
  tick w' = tick w -> ends w (Ok a, w').
Proof. intros Ht. split; [exact Ht | exact I]. Qed.

Lemma ends_rerun {A : Type} (w w' : World) :
  tick w' = tick w -> ends w (@Raise A RerunException, w').
Proof. intros Ht. split; [exact Ht | exact I]. Qed.

Lemma ends_from {A : Type} (w w1 : World) (r : outcome A * World) :
  tick w1 = tick w -> ends w1 r -> ends w r.
Proof. intros Ht [Ht' Hr]. split; [congruence | exact Hr]. Qed.

Lemma page_fuel_tick (w w' : World) :
  tick w' = tick w -> page_fuel fuel w -> page_fuel fuel w'.
Proof. unfold page_fuel. intros ->. auto. Qed.

Ltac ends_now :=
  unfold modify, time_sleep; cbn; split; [reflexivity | exact I].

Lemma ends_count_failure (msg : string) (w : World) :
  ends w (S3Live.count_failure msg w).
Proof.
  destruct (serial_connection (session w)) eqn:Hs; run_session;
    destruct (connection_error_count (session w) + 1 >=? S3Live.MAX_ERRORS);
    unfold modify; cbn; rewrite ?Hs; ends_now.
Qed.

Lemma ends_startup_validation (w : World) :
  ends w (S3Live.startup_validation w).
Proof.
  unfold S3Live.startup_validation. run_session.
  destruct (connected (session w)); [| ends_now].
  destruct (serial_connection (session w)); [ends_now |].
  destruct (is_open (port w)); ends_now.
Qed.

Lemma ends_connection_watchdog (w : World) :
  page_fuel fuel w -> ends w (S3Live.connection_watchdog fuel w).
Proof.
  intros Hf. unfold S3Live.connection_watchdog.
  rewrite bind_run. cbn [session_get gets]. cbv beta iota.
  destruct (live_view_enabled (session w)); [| now apply ends_Ok].
  rewrite bind_run. cbn [time_time gets]. cbv beta iota.
  destruct (_ >? _); [| now apply ends_Ok].
  rewrite bind_run. unfold session_put at 1, modify. cbv beta iota.
  set (w1 := set_session _ w).
  assert (Ht1 : tick w1 = tick w) by reflexivity.
  destruct (test_connection_quick_returns fuel
              (serial_connection (session w)) w1)
    as (v & w2 & Hrun); [now apply (page_fuel_tick w) |].
  pose proof (link_test_connection_quick fuel (serial_connection (session w)) w1)
    as [(Ht2 & _) _].
  rewrite bind_run, Hrun in *. cbn in Ht2.
  destruct v; cbn [negb].
  - apply ends_Ok. cbn. congruence.
  - destruct (ends_count_failure
                "Connection Lost: ESP32 is not responding. Please reconnect." w2)
      as [Ht3 Hr].
    split; [congruence | exact Hr].
Qed.

Lemma live_range_start_ends (tz : string) (w : World) :
  exists sel w', S3Live.live_range_start to_epoch tz w = (Ok sel, w')
                 /\ tick w' = tick w
                 /\ connected (session w') = connected (session w)
                 /\ S3Live.live_view_on (session w') = S3Live.live_view_on (session w)
                 /\ (S3Live.live_view_on (session w) = true -> is_Some sel).
Proof.
  unfold S3Live.live_range_start. run_session.
  destruct (S3Live.live_view_on (session w)) eqn:Hon.
  - destruct (live_view_start_timestamp (session w)); cbn;
      do 2 eexists; (split; [reflexivity |]); cbn; rewrite ?Hon; eauto 10.
  - do 2 eexists. split; [reflexivity |]. rewrite Hon.
    repeat split; try reflexivity. discriminate.
Qed.

(** The gate fires only with a connected session, a valid port and a
    live window. *)
Lemma auto_refresh_gate_run (sel : option Z) (w : World) :
  match S3Live.auto_refresh_gate sel w with
  | (Ok should, w') =>
      tick w' = tick w
      /\ (should = true ->
          connected (session w') = true
          /\ serial_connection (session w') = ThePort
          /\ is_open (port w') = true
          /\ S3Live.live_view_on (session w) = true
          /\ is_Some sel)
  | (Raise e, w') => tick w' = tick w /\ e = RerunException
  | (Diverge, _) => False
  end.
Proof.
  unfold S3Live.auto_refresh_gate. run_session.
  destruct (S3Live.live_view_on (session w)) eqn:Hon; cbn;
    [| split; [reflexivity | discriminate]].
  destruct (connected (session w)) eqn:Hc; cbn;
    [| split; [reflexivity | discriminate]].
  destruct sel as [s|]; cbn; [| split; [reflexivity | discriminate]].
  destruct (serial_connection (session w)) eqn:Hs; cbn; [auto |].
  rewrite ?Hs. cbn.
  destruct (is_open (port w)) eqn:Ho; cbn; [| auto].
  destruct (_ || _); cbn; [| split; [reflexivity | discriminate]].
  destruct (live_view_checkbox (session w)) eqn:Hb; cbn.
  - split; [reflexivity |]. intros _. auto 10.
  - split; [reflexivity | discriminate].
Qed.

Lemma send_command_halts (ser : serial_ref) (command : string) (w : World) :
  page_fuel fuel w ->
  exists s w', S3Live.send_command fuel ser command w = (Ok s, w')
               /\ tick w' = tick w.
Proof.
  intros Hf.
  destruct (send_command_returns fuel ser command w (page_fuel_enough _ _ Hf))
    as (s & w' & Hrun).
  exists s, w'. split; [exact Hrun |].
  destruct (link_send_command fuel ser command w) as [(Ht & _) _].
  now rewrite Hrun in Ht.
Qed.

Lemma store_readings_run (tz : string) (readings : list Reading) (w : World) :
  (exists w', S3Live.store_readings utc_to_local to_dataframe tz readings w = (Ok tt, w')
              /\ tick w' = tick w)
  \/ (exists w', S3Live.store_readings utc_to_local to_dataframe tz readings w
                  = (Raise OtherException, w')
                 /\ tick w' = tick w
                 /\ to_dataframe (converted utc_to_local tz readings) = None).
Proof.
  unfold S3Live.store_readings.
  rewrite bind_run, convert_timestamps_run. cbv beta iota.
  destruct (to_dataframe (converted utc_to_local tz readings));
    [left | right]; eexists; repeat split; reflexivity.
Qed.

Lemma handle_poll_response_halts (tz response : string) (w : World) :
  halts w
    (S3Live.handle_poll_response utc_to_local to_dataframe tz response w).
Proof.
  unfold S3Live.handle_poll_response.
  rewrite bind_run. unfold session_put at 1, modify. cbv beta iota.
  set (w1 := set_session _ w).
  destruct (_ || _).
  - apply (ends_halts w).
    destruct (ends_count_failure
      "Connection Error: ESP32 is not responding. Please check connection." w1)
      as [Ht Hr].
    split; [exact Ht | exact Hr].
  - rewrite bind_run. unfold session_put at 1, modify. cbv beta iota.
    destruct (S3Live.parse_readings response) as [|r rs].
    + split; [reflexivity | discriminate].
    + destruct (store_readings_run tz (r :: rs)
                  (set_session (put_connection_error_count 0 (session w1)) w1))
        as [(w' & -> & Ht) | (w' & -> & Ht & _)].
      * split; [exact Ht | discriminate].
      * split; [exact Ht | discriminate].
Qed.

Lemma ends_auto_refresh_poll (tz : string) (s : Z) (w : World) :
  page_fuel fuel w ->
  ends w (S3Live.auto_refresh_poll to_epoch utc_to_local to_dataframe fuel tz s w).
Proof.
  intros Hf. unfold S3Live.auto_refresh_poll.
  rewrite bind_run. cbn [time_time gets]. cbv beta iota zeta.
  apply ends_bind_at.
  - apply ends_try_except_at.
    + apply halts_bind_at; [split; [reflexivity | discriminate] |].
      intros ser w1 Heq Ht1. inversion Heq; subst ser w1; clear Heq.
      destruct (send_command_halts (serial_connection (session w))
                  (S3Live.range_command s (to_epoch tz (now w))) w Hf)
        as (resp & w2 & Hrun & Ht2).
      rewrite bind_run, Hrun.
      destruct (handle_poll_response_halts tz resp w2) as [Ht3 Hr].
      split; [congruence | exact Hr].
    + intros e w1 Ht1. apply ends_count_failure.
  - intros _ w1 _ Ht1. now apply ends_Ok.
Qed.

Lemma ends_manual_retrieve (w : World) :
  page_fuel fuel w -> S3Live.in_retrieve_clicked inp = true ->
  ends w (S3Live.manual_retrieve utc_to_local to_dataframe fuel inp w).
Proof.
  intros Hf Hclick. unfold S3Live.manual_retrieve. cbv zeta.
  rewrite bind_run. cbn [session_get gets]. cbv beta iota.
  destruct (send_command_halts (serial_connection (session w))
              (S3Live.range_command (S3Live.in_start_epoch inp)
                 (S3Live.in_end_epoch inp)) w Hf)
    as (resp & w2 & Hrun & Ht2).
  rewrite bind_run, Hrun. rewrite bind_run.
  unfold session_put at 1, modify. cbv beta iota.
  set (w3 := set_session _ w2).
  assert (Ht3 : tick w3 = tick w) by exact Ht2.
  rewrite bind_run.
  destruct (PyStr.truthy resp).
  - destruct (S3Live.parse_readings resp) as [|r rs].
    + destruct (String.eqb _ _); cbn; now apply ends_Ok.
    + destruct (store_readings_run (S3Live.in_timezone inp) (r :: rs) w3)
        as [(w' & -> & Ht) | (w' & -> & Ht & Hnone)].
      * cbn. apply ends_Ok. cbn. congruence.
      * split; [cbn; congruence |]. cbn. split; [exact Hclick | eauto].
  - cbn. now apply ends_Ok.
Qed.

Lemma ends_fetch (live_on : bool) (sel : option Z) (should : bool) (w : World) :
  page_fuel fuel w ->
  (should = true ->
   connected (session w) = true
   /\ serial_connection (session w) = ThePort
   /\ is_open (port w) = true
   /\ live_on = true /\ is_Some sel) ->
  ends w (S3Live.fetch to_epoch utc_to_local to_dataframe fuel inp live_on sel should w).
Proof.
  intros Hf Hshould. unfold S3Live.fetch.
  destruct should.
  - destruct (Hshould eq_refl) as (Hc & Hs & Ho & -> & [s ->]).
    rewrite orb_true_r. rewrite bind_run. cbn [ret].
    rewrite bind_run. cbn [session_get gets]. cbv beta iota.
    rewrite bind_run, Hs. cbn [S3Live.is_serial_valid gets].
    rewrite Hc, Ho. cbn [andb negb].
    now apply ends_auto_refresh_poll.
  - rewrite orb_false_r.
    destruct (S3Live.in_retrieve_clicked inp) eqn:Hclick; cbn [andb];
      [| now apply ends_Ok].
    destruct (negb live_on); [| now apply ends_Ok].
    rewrite bind_run. unfold session_put at 1, modify. cbv beta iota.
    set (w1 := set_session _ w).
    rewrite bind_run. cbn [session_get gets]. cbv beta iota.
    rewrite bind_run.
    assert (Hv : exists v, S3Live.is_serial_valid (serial_connection (session w1)) w1
                           = (Ok v, w1)).
    { destruct (serial_connection (session w1)); cbn; eauto. }
    destruct Hv as (v & ->).
    destruct (connected (session w1) && v); cbn [negb]; [| now apply ends_Ok].
    apply (ends_manual_retrieve w1); [exact Hf | exact Hclick].
Qed.

Lemma ends_live_view_section (w : World) :
  ends w (S3Live.live_view_section w).
Proof.
  unfold S3Live.live_view_section. run_session.
  destruct (live_view_stop_requested (session w)),
    (live_view_checkbox (session w)),
    (live_view_checkbox_previous (session w)),
    (live_view_enabled (session w)); ends_now.
Qed.

Lemma ends_page_tail (w : World) : ends w (S3Live.page_tail w).
Proof.
  unfold S3Live.page_tail. run_session. unfold time_sleep, modify.
  destruct (S3Live.watch_active (session w)); [ends_now |].
  destruct (_ && _); ends_now.
Qed.

Lemma dashboard_tab_ends (w : World) :
  page_fuel fuel w ->
  ends w (S3Live.dashboard_tab to_epoch utc_to_local to_dataframe fuel inp w).
Proof.
  intros Hf. unfold S3Live.dashboard_tab.
  apply ends_bind_at; [now apply ends_Ok |].
  intros _ w0 _ Ht0. pose proof (page_fuel_tick w w0 Ht0 Hf) as Hf0.
  apply ends_bind_at; [apply ends_startup_validation |].
  intros _ w1 _ Ht1. pose proof (page_fuel_tick w0 w1 Ht1 Hf0) as Hf1.
  apply ends_bind_at; [now apply ends_Ok |].
  intros c w1' Heq _. inversion Heq; subst c w1'; clear Heq.
  apply ends_bind_at; [| intros _ w9 _ _; apply ends_page_tail].
  destruct (connected (session w1)); [| now apply ends_Ok].
  apply ends_bind_at; [now apply ends_connection_watchdog |].
  intros _ w2 _ Ht2. pose proof (page_fuel_tick w1 w2 Ht2 Hf1) as Hf2.
  apply ends_bind_at; [now apply ends_Ok |].
  intros _ w3 _ Ht3. pose proof (page_fuel_tick w2 w3 Ht3 Hf2) as Hf3.
  apply ends_bind_at; [now apply ends_Ok |].
  intros live_on w3' Heq' _. inversion Heq'; subst live_on w3'; clear Heq'.
  destruct (live_range_start_ends (S3Live.in_timezone inp) w3)
    as (sel & w4 & Hrun4 & Ht4 & Hc4 & Hon4 & Hsel).
  pose proof (page_fuel_tick w3 w4 Ht4 Hf3) as Hf4.
  rewrite bind_run, Hrun4.
  pose proof (auto_refresh_gate_run sel w4) as Hgate.
  rewrite bind_run.
  destruct (S3Live.auto_refresh_gate sel w4) as [[should|e|] w5];
    [| | contradiction].
  2:{ destruct Hgate as [Ht5 ->]. apply ends_rerun. congruence. }
  destruct Hgate as [Ht5 Hfire].
  pose proof (page_fuel_tick w4 w5 Ht5 Hf4) as Hf5.
  assert (Hfetch : ends w5
            (S3Live.fetch to_epoch utc_to_local to_dataframe fuel inp
               (S3Live.live_view_on (session w3)) sel should w5)).
  { apply ends_fetch; [exact Hf5 |].
    intros Hs. destruct (Hfire Hs) as (Hc & Hser & Ho & Hon & Hsome).
    repeat split; auto. congruence. }
  apply (ends_from w3 w5); [congruence |].
  apply ends_bind_at; [exact Hfetch |].
  intros _ w6 _ _. apply ends_live_view_section.
Qed.

End EndingFacts.

(** X14: With fuel for its loops a run of the dashboard tab comes to an end:
    normally, with the request for a rerun, or, in a manual retrieval
    only, with the exception of a table that could not be built.  No
    serial exception reaches the page, and the branch of the fetch that
    reads [live_view_enabled] before it is bound is never taken by an
    auto-refresh, because the gate fires only on a connected session with
    a valid port. *)
Theorem tab_run_ends (to_epoch : string -> Z -> Z)
    (utc_to_local : string -> string -> option string)
    (to_dataframe : list Reading -> option DataFrame)
    (fuel : nat) (inp : S3Live.RunInput) (w : World) :
  page_fuel fuel w ->
  let r := S3Live.dashboard_tab to_epoch utc_to_local to_dataframe fuel inp w in
  fst r = Ok tt
  \/ fst r = Raise RerunException
  \/ (fst r = Raise OtherException
      /\ S3Live.in_retrieve_clicked inp = true
      /\ exists readings,
           to_dataframe readings = None).
Proof.
  intros Hf r.
  destruct (dashboard_tab_ends to_epoch utc_to_local to_dataframe fuel inp w Hf) as [_ Hr].
  fold r in Hr.
  destruct (fst r) as [[]|e|]; [auto | | contradiction].
  destruct e; try contradiction; auto.
Qed.

Lemma tab_run_ends_witness :
  fst (S3Live.dashboard_tab epoch_seconds same_time plain_table 400
         (S3Live.mkRunInput true "UTC" false 0 0) live_world)
  = Raise RerunException.
Proof.
  destruct (tab_run_ends epoch_seconds same_time plain_table 400
              (S3Live.mkRunInput true "UTC" false 0 0) live_world)
    as [H | [H | (_ & H & _)]].
  - split; vm_compute; [reflexivity | discriminate].
  - exfalso. vm_compute in H. discriminate H.
  - exact H.
  - discriminate H.
Defined.

(** X15: The auto-refresh is rate-limited: when the gate fires it stores the
    clock in [last_live_update], and while that value is in place the gate
    does not fire again before five seconds have passed.  The clock value
    0 is excepted, since 0 is what the page stores to ask for an immediate
    refresh. *)
Theorem auto_refresh_rate_limit (sel sel' : option Z) (w w1 w2 : World) :
  S3Live.auto_refresh_gate sel w = (Ok true, w1) ->
  now w <> 0 ->
  last_live_update (session w2) = last_live_update (session w1) ->
  now w2 - now w < S3Live.REFRESH_PERIOD ->
  last_live_update (session w1) = now w
  /\ fst (S3Live.auto_refresh_gate sel' w2) <> Ok true.
Proof.
  intros Hfire Hnz Hlast Hsoon.
  assert (Hset : last_live_update (session w1) = now w).
  { revert Hfire. unfold S3Live.auto_refresh_gate. run_session.
    destruct (_ && _ && _); [| discriminate].
    destruct (serial_connection (session w)); cbn; [discriminate |].
    destruct (is_open (port w)); cbn; [| discriminate].
    destruct (_ || _); [| discriminate].
    destruct (live_view_checkbox (session w)); cbn; [| discriminate].
    intros H. inversion H; subst w1. reflexivity. }
  split; [exact Hset |].
  rewrite Hset in Hlast. clear Hfire Hset.
  assert (E1 : (now w2 - now w >=? S3Live.REFRESH_PERIOD) = false).
  { rewrite Z.geb_leb. apply Z.leb_gt. exact Hsoon. }
  assert (E2 : (now w =? 0) = false) by now apply Z.eqb_neq.
  unfold S3Live.auto_refresh_gate. run_session.
  destruct (_ && _ && _); cbn; [| discriminate].
  destruct (serial_connection (session w2)); cbn; [discriminate |].
  destruct (is_open (port w2)); cbn; [| discriminate].
  rewrite Hlast, E1, E2. cbn. discriminate.
Qed.

Lemma auto_refresh_rate_limit_witness :
  exists w1,
    S3Live.auto_refresh_gate (Some 1) live_world = (Ok true, w1)
    /\ fst (S3Live.auto_refresh_gate (Some 1) (set_now 11999 w1)) <> Ok true.
Proof.
  eexists. split; [vm_compute; reflexivity |].
  refine (proj2 (auto_refresh_rate_limit (Some 1) (Some 1) live_world _ _ _ _ _ _)).
  - vm_compute. reflexivity.
  - vm_compute. discriminate.
  - reflexivity.
  - vm_compute. reflexivity.
Defined.

(** X16: The live-view checkbox.  After the section the live view is enabled
    exactly when the box is checked and either no stop was requested or
    the box has just gone from unchecked to checked; the stop flag is the
    negation of the enabled flag; the previous state of the box is the
    box.  Switching the live view on clears the table, stores the clock as
    the start of the window and asks for a rerun; in every other case the
    table is kept, and switching it off clears the start of the window.
    The connection and the port are not touched. *)
Theorem live_view_checkbox_rules (w : World) :
  let ss := session w in
  let r := S3Live.live_view_section w in
  let ss' := session (snd r) in
  live_view_enabled ss'
  = live_view_checkbox ss
    && (negb (live_view_stop_requested ss)
        || negb (live_view_checkbox_previous ss))
  /\ live_view_stop_requested ss' = negb (live_view_enabled ss')
  /\ live_view_checkbox_previous ss' = live_view_checkbox ss
  /\ (fst r = Raise RerunException
      /\ live_view_enabled ss = false /\ live_view_enabled ss' = true
      /\ live_view_start_timestamp ss' = Some (now w)
      /\ last_df ss' = None /\ last_live_update ss' = 0
      \/ fst r = Ok tt
         /\ (live_view_enabled ss = true \/ live_view_enabled ss' = false)
         /\ last_df ss' = last_df ss
         /\ (live_view_enabled ss' = false ->
             live_view_enabled ss = true ->
             live_view_start_timestamp ss' = None /\ last_live_update ss' = 0))
  /\ connected ss' = connected ss
  /\ port (snd r) = port w.
Proof.
  unfold S3Live.live_view_section. run_session.
  destruct (live_view_enabled (session w)) eqn:He;
    destruct (live_view_checkbox (session w)) eqn:Hc;
    destruct (live_view_stop_requested (session w)) eqn:Hs;
    destruct (live_view_checkbox_previous (session w)) eqn:Hp;
    repeat (progress (cbn; rewrite ?He, ?Hc, ?Hs, ?Hp));
    (split; [reflexivity |]); (split; [reflexivity |]);
    (split; [reflexivity |]); (split; [| split; reflexivity]);
    first [ left; repeat split; reflexivity
          | right; repeat split; auto; intros; discriminate ].
Qed.

(** X17: The start-up validation always completes and leaves a session in
    which [connected] implies a connection whose port is open.  A session
    that is not connected, or whose port is open, is left as it is; a
    session that loses its connection has the port name cleared and the
    error count at 0.  The live view, the table and the traffic of the
    port are not touched. *)
Theorem startup_validation_repairs (w : World) :
  exists w',
    S3Live.startup_validation w = (Ok tt, w')
    /\ (connected (session w') = true ->
        serial_connection (session w') = ThePort /\ is_open (port w') = true)
    /\ (connected (session w) = false
        \/ (serial_connection (session w) = ThePort /\ is_open (port w) = true) ->
        w' = w)
    /\ (connected (session w') = false -> connected (session w) = true ->
        connected_port (session w') = None
        /\ connection_error_count (session w') = 0)
    /\ live_view_enabled (session w') = live_view_enabled (session w)
    /\ live_view_start_timestamp (session w')
       = live_view_start_timestamp (session w)
    /\ last_df (session w') = last_df (session w)
    /\ tx (port w') = tx (port w) /\ rx (port w') = rx (port w).
Proof.
  unfold S3Live.startup_validation. run_session.
  destruct (connected (session w)) eqn:Hc.
  - destruct (serial_connection (session w)) eqn:Hs; cbn.
    + eexists. split; [reflexivity |]. cbn.
      repeat split; auto; try discriminate.
      intros [? | [? _]]; discriminate.
    + destruct (is_open (port w)) eqn:Ho; cbn; unfold modify; cbn.
      * eexists. split; [reflexivity |]. rewrite ?Hs, ?Ho, ?Hc.
        repeat split; auto; intros; discriminate.
      * eexists. split; [reflexivity |]. cbn.
        repeat split; auto; try discriminate.
        intros [? | [_ ?]]; discriminate.
  - eexists. split; [reflexivity |]. rewrite Hc.
    repeat split; auto; discriminate.
Qed.

(** ** The table of the readings *)

Section TableFacts.

Variable to_epoch : string -> Z -> Z.
Variable utc_to_local : string -> string -> option string.
Variable to_dataframe : list Reading -> option DataFrame.
Variable fuel : nat.
Variable inp : S3Live.RunInput.

Local Abbreviation table_step := (table_step utc_to_local to_dataframe inp).
Local Abbreviation table_comp := (table_comp utc_to_local to_dataframe inp).

Lemma table_step_refl (w : World) : table_step w w.
Proof. now left. Qed.

Lemma table_step_trans (w1 w2 w3 : World) :
  table_step w1 w2 -> table_step w2 w3 -> table_step w1 w3.
Proof.
  intros H12 [H23 | H23]; [| now right].
  destruct H12 as [H12 | (resp & df & Hne & Hdf & H12)].
  - left. congruence.
  - right. exists resp, df. repeat split; auto. congruence.
Qed.

Lemma table_bind {A B : Type} (m : M A) (k : A -> M B) :
  table_comp m -> (forall a, table_comp (k a)) -> table_comp (bind m k).
Proof.
  intros Hm Hk w. rewrite bind_run. specialize (Hm w).
  destruct (m w) as [[a|e|] w1]; cbn in *; try exact Hm.
  apply (table_step_trans w w1); [exact Hm | apply Hk].
Qed.

Lemma table_try_except {A : Type} (m : M A) (h : exn -> M A) :
  table_comp m -> (forall e, table_comp (h e)) -> table_comp (try_except m h).
Proof.
  intros Hm Hh w. unfold try_except. specialize (Hm w).
  destruct (m w) as [[a|e|] w1]; cbn in *; try exact Hm.
  destruct (is_Exception e); [| exact Hm].
  apply (table_step_trans w w1); [exact Hm | apply Hh].
Qed.

Lemma table_same {A : Type} (m : M A) :
  (forall w, session (snd (m w)) = session w) -> table_comp m.
Proof. intros H w. left. now rewrite H. Qed.

Lemma table_session_put (f : Session -> Session) :
  keeps_table f -> table_comp (session_put f).
Proof. intros Hf w. left. apply Hf. Qed.

Lemma table_link {A : Type} (P : string -> Prop) (m : M A) :
  link_comp P m -> table_comp m.
Proof.
  intros Hm. apply table_same. intros w.
  destruct (Hm w) as [(_ & _ & Hs & _) _]. exact Hs.
Qed.

Lemma table_ser_close (ser : serial_ref) : table_comp (ser_close ser).
Proof. apply table_same. intros w. destruct ser; reflexivity. Qed.

Lemma table_is_serial_valid (ser : serial_ref) :
  table_comp (S3Live.is_serial_valid ser).
Proof. apply table_same. intros w. destruct ser; reflexivity. Qed.

Ltac keeps_df := intros ?; reflexivity.

Ltac table_rule :=
  lazymatch goal with
  | |- table_comp (bind _ _) => apply table_bind; [| intros ?]
  | |- table_comp (ret _) => apply table_same; reflexivity
  | |- table_comp (gets _) => apply table_same; reflexivity
  | |- table_comp (session_get _) => apply table_same; reflexivity
  | |- table_comp time_time => apply table_same; reflexivity
  | |- table_comp (time_sleep _) => apply table_same; reflexivity
  | |- table_comp (session_put _) => apply table_session_put; keeps_df
  | |- table_comp (try_except _ _) => apply table_try_except; [| intros ?]
  | |- table_comp (st_error _) => apply table_same; reflexivity
  | |- table_comp (st_warning _) => apply table_same; reflexivity
  | |- table_comp (st_info _) => apply table_same; reflexivity
  | |- table_comp st_rerun => apply table_same; reflexivity
  | |- table_comp (raise _) => apply table_same; reflexivity
  | |- table_comp (ser_close _) => apply table_ser_close
  | |- table_comp (S3Live.is_serial_valid _) => apply table_is_serial_valid
  | |- table_comp (S3Live.send_command _ _ _) =>
      eapply table_link; apply link_send_command
  | |- table_comp (S3Live.test_connection_quick _ _) =>
      eapply table_link; apply link_test_connection_quick
  | |- table_comp (if ?b then _ else _) => destruct b eqn:?
  | |- table_comp (match ?x with _ => _ end) => destruct x eqn:?
  end.

Ltac table_auto := repeat table_rule.

Lemma table_count_failure (msg : string) :
  table_comp (S3Live.count_failure msg).
Proof. unfold S3Live.count_failure, S3Live.drop_connection. table_auto. Qed.

Lemma table_store_readings (response : string) :
  S3Live.parse_readings response <> [] ->
  table_comp (S3Live.store_readings utc_to_local to_dataframe (S3Live.in_timezone inp)
                (S3Live.parse_readings response)).
Proof.
  intros Hne w. unfold S3Live.store_readings.
  rewrite bind_run, convert_timestamps_run. cbv beta iota.
  destruct (to_dataframe _) as [df|] eqn:Hdf; [| now left].
  right. exists response, df. repeat split; auto.
Qed.

Lemma table_after_parse (response : string) (m : M unit) :
  table_comp m ->
  table_comp
    (match S3Live.parse_readings response with
     | [] => m
     | readings =>
         S3Live.store_readings utc_to_local to_dataframe (S3Live.in_timezone inp) readings
     end).
Proof.
  intros Hm.
  destruct (S3Live.parse_readings response) as [|r rs] eqn:E; [exact Hm |].
  rewrite <- E. apply table_store_readings. rewrite E. discriminate.
Qed.

Lemma table_startup_validation : table_comp S3Live.startup_validation.
Proof. unfold S3Live.startup_validation. table_auto. Qed.

Lemma table_connection_watchdog :
  table_comp (S3Live.connection_watchdog fuel).
Proof.
  unfold S3Live.connection_watchdog. table_auto. apply table_count_failure.
Qed.

Lemma table_live_range_start (tz : string) :
  table_comp (S3Live.live_range_start to_epoch tz).
Proof. unfold S3Live.live_range_start. table_auto. Qed.

Lemma table_auto_refresh_gate (sel : option Z) :
  table_comp (S3Live.auto_refresh_gate sel).
Proof. unfold S3Live.auto_refresh_gate. table_auto. Qed.

Lemma table_fetch (live_on : bool) (sel : option Z) (should : bool) :
  table_comp (S3Live.fetch to_epoch utc_to_local to_dataframe fuel inp live_on sel should).
Proof.
  unfold S3Live.fetch.
  destruct (_ || _); [| table_auto].
  apply table_bind; [table_auto |]. intros _.
  apply table_bind; [table_auto |]. intros ss.
  apply table_bind; [table_auto |]. intros valid.
  destruct (connected ss && valid); [| table_auto].
  destruct (negb should).
  - unfold S3Live.manual_retrieve. cbv zeta.
    apply table_bind; [table_auto |]. intros ser.
    apply table_bind; [table_auto |]. intros response.
    apply table_bind; [table_auto |]. intros _.
    apply table_bind; [| intros _; table_auto].
    destruct (PyStr.truthy response); [| table_auto].
    apply table_after_parse. table_auto.
  - destruct live_on; [| table_auto].
    destruct sel as [s|]; [| table_auto].
    unfold S3Live.auto_refresh_poll. cbv zeta.
    apply table_bind; [table_auto |]. intros t.
    apply table_bind; [| intros _; table_auto].
    apply table_try_except; [| intros e; apply table_count_failure].
    apply table_bind; [table_auto |]. intros ser.
    apply table_bind; [table_auto |]. intros response.
    unfold S3Live.handle_poll_response.
    apply table_bind; [table_auto |]. intros _.
    destruct (_ || _); [apply table_count_failure |].
    apply table_bind; [table_auto |]. intros _.
    apply table_after_parse. table_auto.
Qed.

Lemma table_page_tail : table_comp S3Live.page_tail.
Proof. unfold S3Live.page_tail. table_auto. Qed.

(** The live-view section keeps the table, or clears it when the live
    view is switched on. *)
Lemma live_view_section_table (w : World) :
  let r := S3Live.live_view_section w in
  (fst r = Ok tt /\ last_df (session (snd r)) = last_df (session w))
  \/ (fst r = Raise RerunException
      /\ live_view_enabled (session w) = false
      /\ live_view_enabled (session (snd r)) = true
      /\ last_df (session (snd r)) = None).
Proof.
  unfold S3Live.live_view_section. run_session.
  destruct (live_view_enabled (session w)) eqn:He;
    destruct (live_view_checkbox (session w)) eqn:Hc;
    destruct (live_view_stop_requested (session w)) eqn:Hs;
    destruct (live_view_checkbox_previous (session w)) eqn:Hp;
    repeat (progress (cbn; rewrite ?He, ?Hc, ?Hs, ?Hp)); auto 10.
Qed.

(** The table at the end of a piece of the page that may switch the live
    view on. *)
Lemma table_then_section {A : Type} (m : M A) (k : A -> M unit) (w : World) :
  table_comp m ->
  (forall a w1,
     table_step w1 (snd (k a w1))
     \/ (fst (k a w1) = Raise RerunException
         /\ live_view_enabled (session (snd (k a w1))) = true
         /\ last_df (session (snd (k a w1))) = None)) ->
  table_step w (snd (bind m k w))
  \/ (fst (bind m k w) = Raise RerunException
      /\ live_view_enabled (session (snd (bind m k w))) = true
      /\ last_df (session (snd (bind m k w))) = None).
Proof.
  intros Hm Hk. rewrite bind_run. specialize (Hm w).
  destruct (m w) as [[a|e|] w1]; cbn in *; [| now left | now left].
  destruct (Hk a w1) as [H | H]; [| now right].
  left. now apply (table_step_trans w w1).
Qed.

Lemma dashboard_tab_table (w : World) :
  let r := S3Live.dashboard_tab to_epoch utc_to_local to_dataframe fuel inp w in
  table_step w (snd r)
  \/ (fst r = Raise RerunException
      /\ live_view_enabled (session (snd r)) = true
      /\ last_df (session (snd r)) = None).
Proof.
  cbv zeta. unfold S3Live.dashboard_tab.
  apply table_then_section; [table_auto |]. intros _ w0.
  apply table_then_section; [apply table_startup_validation |]. intros _ w1.
  apply table_then_section; [table_auto |]. intros c w1'.
  match goal with
  | |- context [bind ?m _ w1'] => set (body := m)
  end.
  assert (Hbody :
    table_step w1' (snd (body w1'))
    \/ (fst (body w1') = Raise RerunException
        /\ live_view_enabled (session (snd (body w1'))) = true
        /\ last_df (session (snd (body w1'))) = None)).
  { subst body. destruct c; [| left; now left].
    apply table_then_section; [apply table_connection_watchdog |]. intros _ w2.
    apply table_then_section; [table_auto |]. intros _ w3.
    apply table_then_section; [table_auto |]. intros live_on w4.
    apply table_then_section; [apply table_live_range_start |]. intros sel w5.
    apply table_then_section; [apply table_auto_refresh_gate |].
    intros should w6.
    apply table_then_section; [apply table_fetch |]. intros _ w7.
    destruct (live_view_section_table w7) as [[_ H] | (H1 & _ & H2 & H3)];
      [left; now left | right; auto]. }
  rewrite bind_run.
  destruct Hbody as [Hb | (Hr & He & Hd)].
  - destruct (body w1') as [[[]|e|] w8]; cbn in *;
      [| now left | now left].
    left. apply (table_step_trans w1' w8); [exact Hb | apply table_page_tail].
  - destruct (body w1') as [[[]|e|] w8]; cbn in *;
      try discriminate.
    right. auto.
Qed.

End TableFacts.

(** X18: A run of the dashboard tab never loses the table of the readings to
    a failed retrieval: at its end the stored table is the one from
    before, or the table built from the readings (at least one) parsed
    from a response, or it was cleared because the live view was switched
    on in this run, which ends with the request for a rerun. *)
Theorem tab_run_keeps_table (to_epoch : string -> Z -> Z)
    (utc_to_local : string -> string -> option string)
    (to_dataframe : list Reading -> option DataFrame)
    (fuel : nat) (inp : S3Live.RunInput) (w : World) :
  let r := S3Live.dashboard_tab to_epoch utc_to_local to_dataframe fuel inp w in
  last_df (session (snd r)) = last_df (session w)
  \/ (exists response df,
        S3Live.parse_readings response <> []
        /\ to_dataframe
             (converted utc_to_local (S3Live.in_timezone inp)
                (S3Live.parse_readings response))
           = Some df
        /\ last_df (session (snd r)) = Some df)
  \/ (fst r = Raise RerunException
      /\ live_view_enabled (session (snd r)) = true
      /\ last_df (session (snd r)) = None).
Proof.
  cbv zeta.
  destruct (dashboard_tab_table to_epoch utc_to_local to_dataframe fuel inp w)
    as [[H | H] | H]; auto.
Qed.
